(** * Certificate lifecycle framework: store, dispatch, cache and expiry monitor

    A shallow embedding of the Python sources

    - [infrastructure/mcp-server/src/database.py]   (module [Database])
    - [infrastructure/mcp-server/src/mcp_protocol.py] (module [MCP])
    - [infrastructure/mcp-server/src/cache.py]      (module [RedisCache])
    - [vault-pki/automation/monitoring/cert-expiry-monitor.py]
                                                    (module [CertificateMonitor])
    - [agents/base/tool_registry.py]                (module [ToolRegistry])
    - [agents/base/memory.py]                       (module [AgentMemory])
    - [agents/network_scanner/network_scanner_agent.py]
                                                    (module [NetworkScanner])

    Stateful code is written in state-passing style; code that can raise
    returns an [outcome].  Readings of the wall clock ([NOW()],
    [datetime.utcnow()]) are arguments of the embedded functions. *)

From Stdlib Require Import ZArith Lia Ascii String DecimalString.
From stdpp Require Import base option strings list sorting gmap.

Set Warnings "-register-all".
Open Scope string_scope.
Open Scope Z_scope.

(** ** Python values and exceptions *)

(** The JSON-like fragment of Python values that flows through the code. *)
Inductive pyval : Type :=
| PNone
| PBool (b : bool)
| PInt (z : Z)
| PStr (s : string)
| PList (l : list pyval)
| PDict (d : list (string * pyval)).

(** A [dict] with string keys, in insertion order. *)
Abbreviation dict V := (list (string * V)).

(** Python truthiness ([if v:], [v and ...]). *)
Definition truthy (v : pyval) : bool :=
  match v with
  | PNone => false
  | PBool b => b
  | PInt z => negb (z =? 0)
  | PStr s => negb (String.eqb s EmptyString)
  | PList l => match l with [] => false | _ => true end
  | PDict d => match d with [] => false | _ => true end
  end.

(** Truthiness of an [Optional[str]] argument. *)
Definition truthy_str (o : option string) : bool :=
  match o with
  | None => false
  | Some s => negb (String.eqb s EmptyString)
  end.

Fixpoint dict_get {V} (d : dict V) (k : string) : option V :=
  match d with
  | [] => None
  | (k', v) :: d' => if String.eqb k' k then Some v else dict_get d' k
  end.

(** [k in d] *)
Definition dict_mem {V} (d : dict V) (k : string) : bool :=
  match dict_get d k with Some _ => true | None => false end.

(** [d[k] = v]: an existing key keeps its position. *)
Fixpoint dict_set {V} (d : dict V) (k : string) (v : V) : dict V :=
  match d with
  | [] => [(k, v)]
  | (k', v') :: d' =>
      if String.eqb k' k then (k, v) :: d' else (k', v') :: dict_set d' k v
  end.

(** [list(d.keys())] *)
Definition dict_keys {V} (d : dict V) : list string := map fst d.

(** [sep.join(l)] *)
Fixpoint join (sep : string) (l : list string) : string :=
  match l with
  | [] => EmptyString
  | [s] => s
  | s :: l' => s ++ sep ++ join sep l'
  end.

(** [sub in s] on strings. *)
Definition contains (s sub : string) : Prop :=
  exists pre post : string, s = pre ++ sub ++ post.

(** Exception classes that occur in the embedded code, and exceptions as
    class plus message ([str(e)] is the message). *)
Inductive exn_class : Type :=
| Exception
| ValueError
| AttributeError
| JSONDecodeError
| RecursionError
| ConnectionError
| ResponseError
| HTTPError
| UniqueViolationError
| NotNullViolationError
| ForeignKeyViolationError.

Inductive exn : Type :=
| Exn (cls : exn_class) (msg : string).

Definition str_exn (e : exn) : string :=
  match e with Exn _ msg => msg end.

(** Result of running a block of code that may raise. *)
Inductive outcome (A : Type) : Type :=
| Returned (a : A)
| Raised (e : exn).
Arguments Returned {A} a.
Arguments Raised {A} e.

Definition bind {A B} (m : outcome A) (k : A -> outcome B) : outcome B :=
  match m with
  | Returned a => k a
  | Raised e => Raised e
  end.

(** [try: return body  except Exception as e: return handler(e)], for a
    handler that does not raise. *)
Definition try_except {A} (body : outcome A) (handler : exn -> A) : A :=
  match body with
  | Returned a => a
  | Raised e => handler e
  end.

Notation "'let*' x := m 'in' k" := (bind m (fun x => k))
  (at level 10, x name, m at level 100, k at level 200).

Definition opt_str_eqb (a b : option string) : bool :=
  match a, b with
  | Some x, Some y => String.eqb x y
  | None, None => true
  | _, _ => false
  end.

(** Sorting by a key in descending order, keeping the given order among
    equal keys (as [sorted(..., reverse=True)] does). *)
Fixpoint insert_desc {A} (key : A -> Z) (x : A) (l : list A) : list A :=
  match l with
  | [] => [x]
  | y :: l' =>
      if key x <? key y then y :: insert_desc key x l' else x :: y :: l'
  end.

Definition sort_desc {A} (key : A -> Z) (l : list A) : list A :=
  foldr (insert_desc key) [] l.

(** Later elements have keys that are not larger. *)
Abbreviation descending key := (StronglySorted (fun a b => key b <= key a)).

(** [d.pop(k)] / [del d[k]] on the entries of a dictionary. *)
Fixpoint dict_remove {V} (d : dict V) (k : string) : dict V :=
  match d with
  | [] => []
  | (k', v) :: d' =>
      if String.eqb k' k then d' else (k', v) :: dict_remove d' k
  end.


(** ** The certificate store ([database.py]) *)

Module Database.

(** Timestamps ([TIMESTAMP WITH TIME ZONE]) as seconds on the time line. *)
Definition timestamp := Z.

(** Table [certificates]; one field per column, [None] for SQL [NULL].
    Text columns are unbounded strings: the length limits of the
    [VARCHAR(n)] column types are not represented. *)
Module certificates.
Record row : Type := mk {
  id : Z;
  certificate_id : option string;
  serial_number : option string;
  common_name : string;
  organization : option string;
  organizational_unit : option string;
  ca_provider : string;
  certificate_type : option string;
  status : option string;
  certificate_pem : option string;
  private_key_pem : option string;
  ca_chain : list string;
  alt_names : list string;
  validity_period : option Z;
  issued_at : option timestamp;
  expires_at : option timestamp;
  revoked_at : option timestamp;
  revocation_reason : option string;
  metadata : option pyval;
  created_at : timestamp;
  updated_at : timestamp
}.
End certificates.

(** The [certificate_data] dictionary read by [store_certificate].  A field
    is [None] when [.get(key)] gives [None]; [status] distinguishes an
    absent key ([None], the default ["issued"] applies) from a present one. *)
Record certificate_data : Type := {
  cd_certificate_id : option string;
  cd_serial_number : option string;
  cd_common_name : option string;
  cd_organization : option string;
  cd_organizational_unit : option string;
  cd_certificate_type : option string;
  cd_status : option (option string);
  cd_certificate : option string;
  cd_private_key : option string;
  cd_ca_chain : option (list string);
  cd_alt_names : option (list string);
  cd_validity_period : option Z;
  cd_issued_at : option string;
  cd_expires_at : option string
}.

(** Request snapshots written to [operation_data]. *)
Inductive operation_data : Type :=
| IssueData (cd : certificate_data)
| StatusUpdateData (status reason : option string).

(** Table [certificate_operations]. *)
Module certificate_operations.
Record row : Type := mk {
  id : Z;
  certificate_id : option string;
  operation_type : string;
  operation_data : Database.operation_data;
  result : pyval;
  error_message : option string;
  performed_at : timestamp;
  performed_by : string
}.
End certificate_operations.

(** The store: the connection pool ([self.pool], [None] until [connect])
    and the two tables with their [SERIAL] counters. *)
Record Database : Type := {
  pool : bool;
  certificates_table : list certificates.row;
  certificates_seq : Z;
  operations_table : list certificate_operations.row;
  operations_seq : Z
}.

Definition with_certificates (db : Database) (rows : list certificates.row)
  : Database :=
  {| pool := pool db;
     certificates_table := rows;
     certificates_seq := certificates_seq db;
     operations_table := operations_table db;
     operations_seq := operations_seq db |}.

(** [async with self.pool.acquire() as conn] *)
Definition acquire (db : Database) : outcome unit :=
  if pool db then Returned tt
  else Raised (Exn AttributeError "'NoneType' object has no attribute 'acquire'").

(** [FOREIGN KEY (certificate_id) REFERENCES certificates(certificate_id)] *)
Definition references_certificate (db : Database) (cid : option string)
  : bool :=
  match cid with
  | None => true
  | Some c =>
      existsb (fun r => opt_str_eqb (certificates.certificate_id r) (Some c))
              (certificates_table db)
  end.

(** [_log_operation]: one [INSERT] into [certificate_operations]; a failure
    of the insert is logged and swallowed.  [performed_at] is the column
    default [NOW()] of this statement, which runs after the statement of
    the caller; the embedding stamps the row with the caller's reading of
    the clock. *)
Definition _log_operation (db : Database) (now : timestamp)
    (certificate_id : option string) (operation_type : string)
    (operation_data : operation_data) (result : pyval) : Database :=
  let insert : outcome Database :=
    if references_certificate db certificate_id then
      Returned
        {| pool := pool db;
           certificates_table := certificates_table db;
           certificates_seq := certificates_seq db;
           operations_table :=
             operations_table db ++
             [certificate_operations.mk (operations_seq db) certificate_id
                operation_type operation_data result None now "system"];
           operations_seq := operations_seq db + 1 |}
    else Raised (Exn ForeignKeyViolationError
                   "certificate_operations_certificate_id_fkey") in
  try_except insert (fun _ => db).

(** The lookup key chosen by the [if certificate_id: ... elif
    serial_number: ... else: raise] chain. *)
Inductive where_clause : Type :=
| ByCertificateId (v : string)
| BySerialNumber (v : string).

Definition choose_where (certificate_id serial_number : option string)
  : outcome where_clause :=
  if truthy_str certificate_id then
    Returned (ByCertificateId (default EmptyString certificate_id))
  else if truthy_str serial_number then
    Returned (BySerialNumber (default EmptyString serial_number))
  else
    Raised (Exn ValueError
              "Either certificate_id or serial_number must be provided").

(** [WHERE certificate_id = $1] / [WHERE serial_number = $1]; a [NULL]
    column never compares equal. *)
Definition matches (w : where_clause) (r : certificates.row) : bool :=
  match w with
  | ByCertificateId v => opt_str_eqb (certificates.certificate_id r) (Some v)
  | BySerialNumber v => opt_str_eqb (certificates.serial_number r) (Some v)
  end.

(** The [SET] list built in [update_fields]: [status = $2],
    [updated_at = NOW()], and for [status == "revoked"] also
    [revoked_at = NOW()] and, when a reason is given,
    [revocation_reason = $3].  The values are written as given: that they
    fit the columns is a condition stated apart ([update_within_limits]). *)
Definition apply_set (now : timestamp) (status revocation_reason : option string)
    (r : certificates.row) : certificates.row :=
  let revoking := opt_str_eqb status (Some "revoked") in
  certificates.mk
    (certificates.id r)
    (certificates.certificate_id r)
    (certificates.serial_number r)
    (certificates.common_name r)
    (certificates.organization r)
    (certificates.organizational_unit r)
    (certificates.ca_provider r)
    (certificates.certificate_type r)
    status
    (certificates.certificate_pem r)
    (certificates.private_key_pem r)
    (certificates.ca_chain r)
    (certificates.alt_names r)
    (certificates.validity_period r)
    (certificates.issued_at r)
    (certificates.expires_at r)
    (if revoking then Some now else certificates.revoked_at r)
    (if revoking && truthy_str revocation_reason
     then revocation_reason else certificates.revocation_reason r)
    (certificates.metadata r)
    (certificates.created_at r)
    now.

(** The table rewritten by the [UPDATE], and the rows its [WHERE] clause
    selects. *)
Abbreviation updated now w st reason :=
  (map (fun r => if matches w r then apply_set now st reason r else r)).

Abbreviation matching w := (filter (fun r => matches w r = true)).

(** [UPDATE certificates SET ... WHERE ... RETURNING certificate_id]:
    every matching row is rewritten; the returned rows are the matching
    ones, in table order. *)
Definition sql_update (now : timestamp) (w : where_clause)
    (status revocation_reason : option string)
    (rows : list certificates.row)
  : list certificates.row * list (option string) :=
  (updated now w status revocation_reason rows,
   map certificates.certificate_id (matching w rows)).

(** [update_certificate_status]: the outcome of the call and the store
    after it.  [fetchrow] keeps the first returned row; [now] is the value
    of [NOW()] during the call. *)
Definition update_certificate_status (db : Database) (now : timestamp)
    (certificate_id serial_number status revocation_reason : option string)
  : outcome bool * Database :=
  match acquire db with
  | Raised e => (Raised e, db)
  | Returned _ =>
      match choose_where certificate_id serial_number with
      | Raised e => (Raised e, db)
      | Returned w =>
          let '(rows, returning) :=
            sql_update now w status revocation_reason
                       (certificates_table db) in
          let db1 := with_certificates db rows in
          match returning with
          | result :: _ =>
              (Returned true,
               _log_operation db1 now result "status_update"
                 (StatusUpdateData status revocation_reason)
                 (PDict [("success", PBool true)]))
          | [] => (Returned false, db1)
          end
      end
  end.

(** [timestamp_str.replace('Z', '+00:00')] *)
Fixpoint replace_Z (s : string) : string :=
  match s with
  | EmptyString => EmptyString
  | String c s' =>
      if Ascii.eqb c "Z"%char then "+00:00" ++ replace_Z s'
      else String c (replace_Z s')
  end.

Section WithDatetime.

(** The two parsers of the [datetime] library used by [_parse_timestamp];
    both raise [ValueError] on text they do not accept. *)
Variable fromisoformat : string -> outcome timestamp.
Variable strptime_ymd_hms : string -> outcome timestamp.

(** [_parse_timestamp] *)
Definition _parse_timestamp (timestamp_str : option string) : option timestamp :=
  if negb (truthy_str timestamp_str) then None
  else
    let text := default EmptyString timestamp_str in
    match fromisoformat (replace_Z text) with
    | Returned t => Some t
    | Raised _ =>
        match strptime_ymd_hms text with
        | Returned t => Some t
        | Raised _ => None
        end
    end.

(** The [INSERT INTO certificates ... RETURNING id] of [store_certificate],
    with the [NOT NULL] and [UNIQUE] constraints of the table.  The values
    are taken to fit the column types ([VARCHAR(n)], [INTEGER]), and the
    [SERIAL] counter is shown as it was after a rejected [INSERT], where
    the server may have advanced it. *)
Definition sql_insert (db : Database) (now : timestamp) (provider : string)
    (cd : certificate_data) (metadata : option pyval)
  : outcome (Z * Database) :=
  match cd_common_name cd with
  | None => Raised (Exn NotNullViolationError "common_name")
  | Some cn =>
      if match cd_certificate_id cd with
         | None => false
         | Some c =>
             existsb
               (fun r => opt_str_eqb (certificates.certificate_id r) (Some c))
               (certificates_table db)
         end
      then Raised (Exn UniqueViolationError "certificates_certificate_id_key")
      else
        let new_row :=
          certificates.mk
            (certificates_seq db)
            (cd_certificate_id cd)
            (cd_serial_number cd)
            cn
            (cd_organization cd)
            (cd_organizational_unit cd)
            provider
            (cd_certificate_type cd)
            (default (Some "issued") (cd_status cd))
            (cd_certificate cd)
            (cd_private_key cd)
            (default [] (cd_ca_chain cd))
            (default [] (cd_alt_names cd))
            (cd_validity_period cd)
            (_parse_timestamp (cd_issued_at cd))
            (_parse_timestamp (cd_expires_at cd))
            None
            None
            (match metadata with
             | Some m => if truthy m then Some m else None
             | None => None
             end)
            now
            now in
        Returned
          (certificates_seq db,
           {| pool := pool db;
              certificates_table := certificates_table db ++ [new_row];
              certificates_seq := certificates_seq db + 1;
              operations_table := operations_table db;
              operations_seq := operations_seq db |})
  end.

(** [store_certificate] *)
Definition store_certificate (db : Database) (now : timestamp)
    (provider : string) (cd : certificate_data) (metadata : option pyval)
  : outcome Z * Database :=
  match acquire db with
  | Raised e => (Raised e, db)
  | Returned _ =>
      match sql_insert db now provider cd metadata with
      | Raised e => (Raised e, db)
      | Returned (cert_id, db1) =>
          (Returned cert_id,
           _log_operation db1 now (cd_certificate_id cd) "issue"
             (IssueData cd) (PDict [("success", PBool true)]))
      end
  end.

(** The two mutating entry points of the store, as calls. *)
Inductive store_op : Type :=
| StoreCertificate (now : timestamp) (provider : string)
    (cd : certificate_data) (metadata : option pyval)
| UpdateCertificateStatus (now : timestamp)
    (certificate_id serial_number status revocation_reason : option string).

Definition step (db : Database) (o : store_op) : Database :=
  match o with
  | StoreCertificate now provider cd metadata =>
      snd (store_certificate db now provider cd metadata)
  | UpdateCertificateStatus now cid sn st reason =>
      snd (update_certificate_status db now cid sn st reason)
  end.

Definition run (db : Database) (ops : list store_op) : Database :=
  fold_left step ops db.

End WithDatetime.

(** A freshly created, connected store. *)
Definition empty_store : Database :=
  {| pool := true;
     certificates_table := [];
     certificates_seq := 1;
     operations_table := [];
     operations_seq := 1 |}.

(** The life cycle as section 4.2 of the specification words it:
    pending -> issued -> active -> {revoked, expired}, and
    active -> suspended -> active; revoked and expired are terminal. *)
Definition spec_legal_successor (current requested : option string) : bool :=
  match current, requested with
  | Some c, Some n =>
      (String.eqb c "pending" && String.eqb n "issued")
      || (String.eqb c "issued" && String.eqb n "active")
      || (String.eqb c "active" &&
          (String.eqb n "revoked" || String.eqb n "expired"
           || String.eqb n "suspended"))
      || (String.eqb c "suspended" && String.eqb n "active")
  | _, _ => false
  end.

(** Sample data: a certificate request for [svc.internal]. *)
Definition svc_request : certificate_data :=
  {| cd_certificate_id := Some "cert-1";
     cd_serial_number := Some "0a:1b";
     cd_common_name := Some "svc.internal";
     cd_organization := None;
     cd_organizational_unit := None;
     cd_certificate_type := Some "ssl";
     cd_status := None;
     cd_certificate := None;
     cd_private_key := None;
     cd_ca_chain := None;
     cd_alt_names := None;
     cd_validity_period := None;
     cd_issued_at := None;
     cd_expires_at := None |}.

(** A parser that accepts nothing, for closed examples. *)
Definition no_parse (_ : string) : outcome timestamp :=
  Raised (Exn ValueError "Invalid isoformat string").

(** The store after issuing [svc_request] at time 10. *)
Definition svc_store : Database :=
  run no_parse no_parse empty_store
      [StoreCertificate 10 "vault" svc_request None].

(** The same store after revoking [cert-1] at time 100. *)
Definition revoked_store : Database :=
  snd (update_certificate_status svc_store 100 (Some "cert-1") None
         (Some "revoked") None).

(** Issue, revoke, then set the status back to ["active"]. *)
Definition reinstating_calls : list store_op :=
  [StoreCertificate 10 "vault" svc_request None;
   UpdateCertificateStatus 100 (Some "cert-1") None (Some "revoked") None;
   UpdateCertificateStatus 200 (Some "cert-1") None (Some "active") None].

(** *** The store's testable properties, as the specification states them *)

(** "Rejects transitions that violate the direction above": a request whose
    status is not a legal successor of a certificate's current status leaves
    that certificate's stored status as it was. *)
Definition rejects_illegal_transitions : Prop :=
  forall (db : Database) now cid sn st reason (i : nat) (r : certificates.row),
    certificates_table db !! i = Some r ->
    spec_legal_successor (certificates.status r) st = false ->
    certificates.status <$>
      (certificates_table
         (snd (update_certificate_status db now cid sn st reason)) !! i)
    = Some (certificates.status r).

(** "Supplying both or neither is a validation error" and performs no write. *)
Definition requires_exactly_one_key : Prop :=
  forall (db : Database) now cid sn st reason,
    (is_Some cid /\ is_Some sn) \/ (cid = None /\ sn = None) ->
    exists e, update_certificate_status db now cid sn st reason = (Raised e, db).

(** "A second revoke call returns success without changing [revoked_at]". *)
Definition second_revoke_keeps_revoked_at : Prop :=
  forall (db db1 : Database) t1 t2 cid sn reason,
    update_certificate_status db t1 cid sn (Some "revoked") reason
      = (Returned true, db1) ->
    exists db2,
      update_certificate_status db1 t2 cid sn (Some "revoked") reason
        = (Returned true, db2)
      /\ map certificates.revoked_at (certificates_table db2)
         = map certificates.revoked_at (certificates_table db1).

(** "[C.status == revoked] iff [C.revoked_at] is set", for every stored
    certificate. *)
Definition revoked_iff_revoked_at (db : Database) : Prop :=
  forall r, In r (certificates_table db) ->
    certificates.status r = Some "revoked"
    <-> is_Some (certificates.revoked_at r).

Definition revocation_invariant_always : Prop :=
  forall fromisoformat strptime_ymd_hms ops,
    revoked_iff_revoked_at (run fromisoformat strptime_ymd_hms empty_store ops).

(** One direction of the above. *)
Definition revoked_has_revoked_at (db : Database) : Prop :=
  forall r, In r (certificates_table db) ->
    certificates.status r = Some "revoked" ->
    is_Some (certificates.revoked_at r).

(** A [store_certificate] call whose data carry the status ["revoked"]. *)
Definition stores_as_revoked (o : store_op) : bool :=
  match o with
  | StoreCertificate _ _ cd _ =>
      match cd_status cd with
      | Some st => opt_str_eqb st (Some "revoked")
      | None => false
      end
  | UpdateCertificateStatus _ _ _ _ _ => false
  end.

(** Issue a certificate, then revoke it. *)
Definition revoking_calls : list store_op :=
  [StoreCertificate 10 "vault" svc_request None;
   UpdateCertificateStatus 100 (Some "cert-1") None (Some "revoked") None].

(** A request whose data carry the status ["revoked"]. *)
Definition revoked_request : certificate_data :=
  {| cd_certificate_id := Some "cert-2";
     cd_serial_number := Some "0e:3f";
     cd_common_name := Some "old.internal";
     cd_organization := None;
     cd_organizational_unit := None;
     cd_certificate_type := None;
     cd_status := Some (Some "revoked");
     cd_certificate := None;
     cd_private_key := None;
     cd_ca_chain := None;
     cd_alt_names := None;
     cd_validity_period := None;
     cd_issued_at := None;
     cd_expires_at := None |}.

(** "Every revoked certificate has [revoked_at] set", after any sequence
    of calls on a new store. *)
Definition revoked_always_has_revoked_at : Prop :=
  forall fromisoformat strptime_ymd_hms ops,
    revoked_has_revoked_at (run fromisoformat strptime_ymd_hms empty_store ops).

(** *** The limits of the column types *)

(** Text the server accepts as a [text] or [VARCHAR] value has no NUL
    character.  Strings are byte strings here (the UTF-8 form of a Python
    [str]), so a bound on their length also bounds the number of
    characters. *)
Fixpoint nul_free (s : string) : bool :=
  match s with
  | EmptyString => true
  | String c s' => negb (Ascii.eqb c Ascii.zero) && nul_free s'
  end.

(** A value for a [VARCHAR(n)] column: [NULL], or text of at most [n]
    characters. *)
Definition fits_varchar (n : nat) (v : option string) : bool :=
  match v with
  | None => true
  | Some s => (String.length s <=? n)%nat && nul_free s
  end.

(** The values [update_certificate_status] binds to [status VARCHAR(50)]
    and, when it writes a reason, to [revocation_reason VARCHAR(100)] fit
    these columns.  [apply_set] writes whatever it is given; with values
    beyond the limits the server rejects the [UPDATE], which is outside the
    calls the embedding covers. *)
Definition update_within_limits (status revocation_reason : option string)
  : bool :=
  fits_varchar 50 status
  && (if opt_str_eqb status (Some "revoked") && truthy_str revocation_reason
      then fits_varchar 100 revocation_reason
      else true).

(** The largest value of a [bigint] parameter ([LIMIT], [OFFSET]). *)
Definition INT64_MAX : Z := 2 ^ 63 - 1.

(** A filter value the server accepts as text. *)
Definition sql_text (v : option string) : bool :=
  match v with
  | None => true
  | Some s => nul_free s
  end.


(** *** Queries *)


(** The [WHERE] conditions of the inventory query: a filter that is [None]
    or empty is not applied. *)
Definition inventory_filter (ca_provider status : option string)
    (r : certificates.row) : bool :=
  (if truthy_str ca_provider
   then String.eqb (certificates.ca_provider r) (default EmptyString ca_provider)
   else true)
  && (if truthy_str status
      then opt_str_eqb (certificates.status r) status
      else true).

(** The rows selected by [... ORDER BY created_at DESC LIMIT l OFFSET o].
    Rows with equal [created_at] come in table order here; the query leaves
    their order open.  [LIMIT] and [OFFSET] are [bigint] parameters: a
    Python [int] outside that range is rejected by asyncpg when it encodes
    the argument ([DataError]), and a negative one by the server; both
    errors are recorded under their base class.  The filter values are
    taken to be text the server accepts ([sql_text]). *)
Definition select_inventory (db : Database) (ca_provider status : option string)
    (limit offset : Z) : outcome (list certificates.row) :=
  if (limit <? - INT64_MAX - 1) || (INT64_MAX <? limit)
     || (offset <? - INT64_MAX - 1) || (INT64_MAX <? offset)
  then Raised (Exn Exception "invalid input for query argument: value out of int64 range")
  else if offset <? 0 then Raised (Exn Exception "OFFSET must not be negative")
  else if limit <? 0 then Raised (Exn Exception "LIMIT must not be negative")
  else
    Returned
      (take (Z.to_nat limit)
         (drop (Z.to_nat offset)
            (sort_desc certificates.created_at
               (filter (fun r => inventory_filter ca_provider status r = true)
                       (certificates_table db))))).

(** One element of the list returned by [get_certificate_inventory]. *)
Record inventory_entry : Type := {
  inv_certificate_id : option string;
  inv_serial_number : option string;
  inv_common_name : string;
  inv_organization : option string;
  inv_ca_provider : string;
  inv_certificate_type : option string;
  inv_status : option string;
  inv_issued_at : option string;
  inv_expires_at : option string;
  inv_revoked_at : option string;
  inv_revocation_reason : option string;
  inv_created_at : string;
  inv_updated_at : string
}.

(** One element of the list returned by [get_certificate_operations].
    The two [JSONB] columns come back as JSON text. *)
Record operation_entry : Type := {
  ope_id : Z;
  ope_operation_type : string;
  ope_operation_data : string;
  ope_result : string;
  ope_error_message : option string;
  ope_performed_at : string;
  ope_performed_by : string
}.

Section WithIsoformat.

(** [datetime.isoformat] *)
Variable isoformat : timestamp -> string.

Definition inventory_entry_of (r : certificates.row) : inventory_entry :=
  {| inv_certificate_id := certificates.certificate_id r;
     inv_serial_number := certificates.serial_number r;
     inv_common_name := certificates.common_name r;
     inv_organization := certificates.organization r;
     inv_ca_provider := certificates.ca_provider r;
     inv_certificate_type := certificates.certificate_type r;
     inv_status := certificates.status r;
     inv_issued_at := isoformat <$> certificates.issued_at r;
     inv_expires_at := isoformat <$> certificates.expires_at r;
     inv_revoked_at := isoformat <$> certificates.revoked_at r;
     inv_revocation_reason := certificates.revocation_reason r;
     inv_created_at := isoformat (certificates.created_at r);
     inv_updated_at := isoformat (certificates.updated_at r) |}.

(** [get_certificate_inventory] *)
Definition get_certificate_inventory (db : Database)
    (ca_provider status : option string) (limit offset : Z)
  : outcome (list inventory_entry) :=
  let* _ := acquire db in
  let* rows := select_inventory db ca_provider status limit offset in
  Returned (map inventory_entry_of rows).

(** The text the server returns for a stored [JSONB] document: of the
    request snapshot in [operation_data], and of the value in [result]. *)
Variable jsonb_of_request : operation_data -> string.
Variable jsonb_of_value : pyval -> string.

Definition operation_entry_of (o : certificate_operations.row)
  : operation_entry :=
  {| ope_id := certificate_operations.id o;
     ope_operation_type := certificate_operations.operation_type o;
     ope_operation_data :=
       jsonb_of_request (certificate_operations.operation_data o);
     ope_result := jsonb_of_value (certificate_operations.result o);
     ope_error_message := certificate_operations.error_message o;
     ope_performed_at := isoformat (certificate_operations.performed_at o);
     ope_performed_by := certificate_operations.performed_by o |}.

End WithIsoformat.

(** The logged operations of one certificate. *)
Abbreviation logged_for c :=
  (filter (fun o => opt_str_eqb (certificate_operations.certificate_id o)
                                (Some c) = true)).

(** The rows selected by [SELECT * FROM certificate_operations WHERE
    certificate_id = $1 ORDER BY performed_at DESC LIMIT $2]; for [LIMIT]
    see [select_inventory]. *)
Definition select_operations (db : Database) (certificate_id : string)
    (limit : Z) : outcome (list certificate_operations.row) :=
  if (limit <? - INT64_MAX - 1) || (INT64_MAX <? limit)
  then Raised (Exn Exception "invalid input for query argument: value out of int64 range")
  else if limit <? 0 then Raised (Exn Exception "LIMIT must not be negative")
  else
    Returned
      (take (Z.to_nat limit)
         (sort_desc certificate_operations.performed_at
            (filter
               (fun o => opt_str_eqb (certificate_operations.certificate_id o)
                                     (Some certificate_id) = true)
               (operations_table db)))).

(** [get_certificate_operations] *)
Definition get_certificate_operations (isoformat : timestamp -> string)
    (jsonb_of_request : operation_data -> string)
    (jsonb_of_value : pyval -> string)
    (db : Database) (certificate_id : string) (limit : Z)
  : outcome (list operation_entry) :=
  let* _ := acquire db in
  let* rows := select_operations db certificate_id limit in
  Returned (map (operation_entry_of isoformat jsonb_of_request jsonb_of_value)
                rows).

(** [health_check]: [SELECT 1] on a pooled connection. *)
Definition health_check (db : Database) : bool :=
  try_except (let* _ := acquire db in Returned true) (fun _ => false).

(** *** Invariants of the tables *)

(** [certificate_id UNIQUE]: the non-null identifiers are pairwise distinct. *)
Definition unique_certificate_ids (db : Database) : Prop :=
  NoDup (omap certificates.certificate_id (certificates_table db)).

(** [id SERIAL PRIMARY KEY], for both tables: the keys handed out are
    pairwise distinct and below the next value of the sequence. *)
Definition serial_keys_fresh (db : Database) : Prop :=
  NoDup (map certificates.id (certificates_table db))
  /\ Forall (fun r => certificates.id r < certificates_seq db)
            (certificates_table db)
  /\ NoDup (map certificate_operations.id (operations_table db))
  /\ Forall (fun o => certificate_operations.id o < operations_seq db)
            (operations_table db).

(** The foreign key of [certificate_operations]. *)
Definition operations_reference_certificates (db : Database) : Prop :=
  Forall (fun o => references_certificate db
                     (certificate_operations.certificate_id o) = true)
         (operations_table db).

(** The columns that no [UPDATE] of the module assigns. *)
Definition frozen_columns (r : certificates.row) :=
  (certificates.id r, certificates.certificate_id r,
   certificates.serial_number r, certificates.common_name r,
   certificates.organization r, certificates.organizational_unit r,
   certificates.ca_provider r, certificates.certificate_type r,
   certificates.certificate_pem r, certificates.private_key_pem r,
   certificates.ca_chain r, certificates.alt_names r,
   certificates.validity_period r, certificates.issued_at r,
   certificates.expires_at r, certificates.metadata r,
   certificates.created_at r).


End Database.

(** ** The tool dispatch engine ([mcp_protocol.py]) *)

Module MCP.

(** [MCPResult]; [data] is [PNone] and [error] is [None] by default. *)
Record MCPResult : Type := mkResult {
  success : bool;
  data : pyval;
  error : option string
}.

Definition is_py_none (v : pyval) : bool :=
  match v with PNone => true | _ => false end.

(** [MCPResult.to_dict]; [now] is [datetime.utcnow().isoformat()]. *)
Definition MCPResult_to_dict (now : string) (r : MCPResult) : dict pyval :=
  let result := [("success", PBool (success r)); ("timestamp", PStr now)] in
  let result :=
    if is_py_none (data r) then result else dict_set result "data" (data r) in
  let result :=
    match error r with
    | None => result
    | Some e => dict_set result "error" (PStr e)
    end in
  result.

(** What a handler hands back to [call_tool]: a plain value, or an
    [MCPResult] it built itself ([isinstance(result, MCPResult)]). *)
Inductive handler_return : Type :=
| Plain (v : pyval)
| Result (r : MCPResult).

(** [MCPTool]; [parameters] maps a parameter name to its schema, itself a
    dictionary (with keys such as [type] and [required]). *)
Record MCPTool : Type := mkTool {
  name : string;
  description : string;
  parameters : dict (dict pyval);
  handler : dict pyval -> outcome handler_return
}.

(** [MCPTool.to_dict] *)
Definition MCPTool_to_dict (t : MCPTool) : dict pyval :=
  [("name", PStr (name t));
   ("description", PStr (description t));
   ("inputSchema",
    PDict [("type", PStr "object");
           ("properties",
            PDict (map (fun kd => (fst kd, PDict (snd kd))) (parameters t)));
           ("required", PList (map PStr (dict_keys (parameters t))))])].

(** [MCPServer] *)
Record MCPServer : Type := mkServer {
  server_name : string;
  tools : dict MCPTool;
  session_id : string
}.

(** [register_tool] *)
Definition register_tool (srv : MCPServer) (tool : MCPTool) : MCPServer :=
  {| server_name := server_name srv;
     tools := dict_set (tools srv) (name tool) tool;
     session_id := session_id srv |}.

(** [list_tools] *)
Definition list_tools (srv : MCPServer) : dict pyval :=
  [("tools", PList (map (fun nt => PDict (MCPTool_to_dict (snd nt))) (tools srv)))].

(** [param_def.get("required", True)], as a condition. *)
Definition required_flag (param_def : dict pyval) : bool :=
  truthy (default (PBool true) (dict_get param_def "required")).

(** The validation loop of [call_tool]: [missing_params] after the
    [for param_name, param_def in tool.parameters.items()] loop. *)
Definition missing_params (tool : MCPTool) (params : dict pyval) : list string :=
  fold_left
    (fun (missing : list string) (item : string * dict pyval) =>
       let (param_name, param_def) := item in
       if negb (dict_mem params param_name) && required_flag param_def
       then (missing ++ [param_name])%list
       else missing)
    (parameters tool) [].

(** The condition under which the validation loop reports a parameter. *)
Definition reported (params : dict pyval) (item : string * dict pyval) : bool :=
  negb (dict_mem params (fst item)) && required_flag (snd item).

(** A handler invocation [tool.handler( **parameters )], as an event. *)
Definition invocation : Type := string * dict pyval.

(** [call_tool]: the returned envelope and the handler invocations made. *)
Definition call_tool (srv : MCPServer) (now : string) (tool_name : string)
    (params : dict pyval) : dict pyval * list invocation :=
  match dict_get (tools srv) tool_name with
  | None =>
      (MCPResult_to_dict now
         (mkResult false PNone (Some ("Tool '" ++ tool_name ++ "' not found"))),
       [])
  | Some tool =>
      match missing_params tool params with
      | (_ :: _) as missing =>
          (MCPResult_to_dict now
             (mkResult false PNone
                (Some ("Missing required parameters: " ++ join ", " missing))),
           [])
      | [] =>
          (try_except
             (let* result := handler tool params in
              Returned
                (match result with
                 | Result r => MCPResult_to_dict now r
                 | Plain v => MCPResult_to_dict now (mkResult true v None)
                 end))
             (fun e =>
                MCPResult_to_dict now
                  (mkResult false PNone
                     (Some ("Tool execution failed: " ++ str_exn e)))),
           [(tool_name, params)])
      end
  end.



(** Sample tools. *)
Definition issue_certificate_tool : MCPTool :=
  {| name := "issue_certificate";
     description := "Issue a certificate";
     parameters :=
       [("common_name", [("type", PStr "string"); ("required", PBool true)]);
        ("alt_names", [("type", PStr "array"); ("required", PBool false)]);
        ("ttl", [("type", PStr "string")])];
     handler := fun params =>
       Returned (Plain (PDict [("status", PStr "issued")])) |}.

Definition ping_tool : MCPTool :=
  {| name := "ping";
     description := "Liveness probe";
     parameters := [];
     handler := fun _ => Returned (Plain PNone) |}.

(** A tool whose handler raises. *)
Definition revoke_certificate_tool : MCPTool :=
  {| name := "revoke_certificate";
     description := "Revoke a certificate";
     parameters := [("serial_number", [("type", PStr "string")])];
     handler := fun _ => Raised (Exn Exception "Vault is sealed") |}.

Definition sample_server : MCPServer :=
  register_tool
    (register_tool
       (register_tool (mkServer "pki" [] "session") issue_certificate_tool)
       ping_tool)
    revoke_certificate_tool.

(** *** The envelopes, as the specification states them *)

(** [{success: true, data: <value>, timestamp}] and
    [{success: false, error: <message>, timestamp}], in the key order in
    which [MCPResult.to_dict] fills them. *)
Definition success_envelope (now : string) (v : pyval) : dict pyval :=
  [("success", PBool true); ("timestamp", PStr now); ("data", v)].

Definition failure_envelope (now : string) (message : string) : dict pyval :=
  [("success", PBool false); ("timestamp", PStr now); ("error", PStr message)].

(** "A value returned by the handler is wrapped into
    [{success: true, data: <value>, timestamp}]", read key by key. *)
Definition wraps_every_returned_value : Prop :=
  forall srv now tool_name tool params v,
    dict_get (tools srv) tool_name = Some tool ->
    missing_params tool params = [] ->
    handler tool params = Returned (Plain v) ->
    let envelope := fst (call_tool srv now tool_name params) in
    dict_get envelope "success" = Some (PBool true)
    /\ dict_get envelope "data" = Some v
    /\ dict_get envelope "timestamp" = Some (PStr now).

(** *** Servers built by registration *)

(** An [MCPServer] as [__init__] leaves it. *)
Definition new_server (server_name session_id : string) : MCPServer :=
  mkServer server_name [] session_id.

(** The server after [register_tool] was called for each tool in turn. *)
Definition register_all (srv : MCPServer) (l : list MCPTool) : MCPServer :=
  fold_left register_tool l srv.

(** Every tool of a server is stored under its own name. *)
Definition keyed_by_name (srv : MCPServer) : Prop :=
  forall k t, In (k, t) (tools srv) -> k = name t.

(** The [name] fields of the tool descriptions in the answer of
    [list_tools]. *)
Definition listed_names (srv : MCPServer) : list pyval :=
  match dict_get (list_tools srv) "tools" with
  | Some (PList descriptions) =>
      map (fun t => match t with
                    | PDict d => default PNone (dict_get d "name")
                    | _ => PNone
                    end) descriptions
  | _ => []
  end.

End MCP.

(** ** The cache layer ([cache.py]) *)

Module RedisCache.

(** Values held by the Redis server under a key. *)
Inductive redis_value : Type :=
| RString (s : string)
| RList (l : list string)
| RHash (h : dict string).

(** The client handle [self.redis]: [None] before [connect], or a client
    whose server is unreachable, or a client with a reachable keyspace. *)
Inductive client : Type :=
| NotConnected
| Unreachable
| Connected (keyspace : gmap string redis_value).

Record RedisCache : Type := {
  key_prefix : string;
  redis : client
}.

(** [_make_key] *)
Definition _make_key (c : RedisCache) (key : string) : string :=
  key_prefix c ++ ":" ++ key.

Definition unavailable {A} (cl : client) (method : string) : outcome A :=
  match cl with
  | NotConnected =>
      Raised (Exn AttributeError
                ("'NoneType' object has no attribute '" ++ method ++ "'"))
  | _ => Raised (Exn ConnectionError "Error connecting to redis")
  end.

(** [await self.redis.get(full_key)] *)
Definition redis_get (cl : client) (full_key : string) : outcome (option string) :=
  match cl with
  | Connected keyspace =>
      match keyspace !! full_key with
      | None => Returned None
      | Some (RString s) => Returned (Some s)
      | Some _ =>
          Raised (Exn ResponseError
            "WRONGTYPE Operation against a key holding the wrong kind of value")
      end
  | _ => unavailable cl "get"
  end.

(** [await self.redis.exists(full_key)] *)
Definition redis_exists (cl : client) (full_key : string) : outcome Z :=
  match cl with
  | Connected keyspace =>
      Returned (match keyspace !! full_key with Some _ => 1 | None => 0 end)
  | _ => unavailable cl "exists"
  end.

Section WithJson.

(** [json.loads]: raises [JSONDecodeError] on text that is not JSON. *)
Variable json_loads : string -> outcome pyval.

(** [get] *)
Definition get (c : RedisCache) (key : string) : pyval :=
  try_except
    (let full_key := _make_key c key in
     let* value := redis_get (redis c) full_key in
     match value with
     | None => Returned PNone
     | Some value =>
         match json_loads value with
         | Returned v => Returned v
         | Raised (Exn JSONDecodeError _) => Returned (PStr value)
         | Raised e => Raised e
         end
     end)
    (fun _ => PNone).

End WithJson.

(** [exists] *)
Definition exists_ (c : RedisCache) (key : string) : bool :=
  try_except
    (let full_key := _make_key c key in
     let* result := redis_exists (redis c) full_key in
     Returned (0 <? result))
    (fun _ => false).

(** A decoder for closed examples: it reads the literals [null] and [true]
    and rejects everything else. *)
Definition tiny_loads (s : string) : outcome pyval :=
  if String.eqb s "null" then Returned PNone
  else if String.eqb s "true" then Returned (PBool true)
  else Raised (Exn JSONDecodeError "Expecting value").

Definition sample_cache : RedisCache :=
  {| key_prefix := "pki_mcp";
     redis := Connected
       (<["pki_mcp:legacy" := RString "not json"]>
          (<["pki_mcp:flag" := RString "true"]> ∅)) |}.

Definition down_cache : RedisCache :=
  {| key_prefix := "pki_mcp"; redis := Unreachable |}.

(** *** Writing and deleting *)

(** [await self.redis.set(full_key, value)]: the key holds the string
    afterwards, whatever it held before. *)
Definition redis_set (cl : client) (full_key value : string) : outcome client :=
  match cl with
  | Connected keyspace =>
      Returned (Connected (<[full_key := RString value]> keyspace))
  | _ => unavailable cl "set"
  end.

(** [await self.redis.setex(full_key, ttl, value)]: the server rejects a
    time to live that is not positive; otherwise the key holds the string,
    and the server drops it when the time has passed.  The passing of time
    is not represented: the keyspace is the one seen right after the
    command.  A time to live beyond the range of the server's clock is
    rejected as well, which is not represented either. *)
Definition redis_setex (cl : client) (full_key : string) (ttl : Z)
    (value : string) : outcome client :=
  match cl with
  | Connected keyspace =>
      if ttl <=? 0
      then Raised (Exn ResponseError "invalid expire time in 'setex' command")
      else Returned (Connected (<[full_key := RString value]> keyspace))
  | _ => unavailable cl "setex"
  end.

(** [await self.redis.delete(full_key)]: the number of keys removed. *)
Definition redis_delete (cl : client) (full_key : string)
  : outcome (Z * client) :=
  match cl with
  | Connected keyspace =>
      Returned (match keyspace !! full_key with Some _ => 1 | None => 0 end,
                Connected (base.delete full_key keyspace))
  | _ => unavailable cl "delete"
  end.

Definition with_client (c : RedisCache) (cl : client) : RedisCache :=
  {| key_prefix := key_prefix c; redis := cl |}.

Section WithJsonDumps.

(** [json.dumps(value, default=str)] *)
Variable json_dumps : pyval -> outcome string.

(** [set]: the returned flag and the cache afterwards. *)
Definition set_ (c : RedisCache) (key : string) (value : pyval)
    (ttl : option Z) : bool * RedisCache :=
  try_except
    (let full_key := _make_key c key in
     let* text := match value with
                  | PStr s => Returned s
                  | _ => json_dumps value
                  end in
     let* cl := match ttl with
                | Some t =>
                    if t =? 0 then redis_set (redis c) full_key text
                    else redis_setex (redis c) full_key t text
                | None => redis_set (redis c) full_key text
                end in
     Returned (true, with_client c cl))
    (fun _ => (false, c)).

End WithJsonDumps.

(** [delete]: the returned flag and the cache afterwards. *)
Definition delete_ (c : RedisCache) (key : string) : bool * RedisCache :=
  try_except
    (let full_key := _make_key c key in
     let* r := redis_delete (redis c) full_key in
     Returned (0 <? fst r, with_client c (snd r)))
    (fun _ => (false, c)).

(** An encoder for closed examples: it writes [None] and the booleans. *)
Definition tiny_dumps (v : pyval) : outcome string :=
  match v with
  | PNone => Returned "null"
  | PBool true => Returned "true"
  | PBool false => Returned "false"
  | _ => Raised (Exn ValueError "Circular reference detected")
  end.

End RedisCache.

(** ** The expiry monitor ([cert-expiry-monitor.py]) *)

Module CertificateMonitor.

(** [self.warning_days], [self.critical_days] as set by [__init__]. *)
Definition warning_days : Z := 30.
Definition critical_days : Z := 7.

(** What the monitor sees of Vault over HTTP: the status code of
    [/v1/sys/health], the [data] entry of the [/v1/sys/mounts] body (after
    [raise_for_status]; [None] when the body has no such entry), and the
    text of [/v1/<mount>/ca/pem] (after [raise_for_status]). *)
Record vault : Type := {
  sys_health : outcome Z;
  sys_mounts : outcome (option (dict (dict pyval)));
  ca_pem : string -> outcome string
}.

(** [check_vault_health] *)
Definition check_vault_health (v : vault) : bool :=
  try_except
    (let* status_code := sys_health v in Returned (status_code =? 200))
    (fun _ => false).

(** [mount.rstrip('/')] *)
Fixpoint rstrip_slash (s : string) : string :=
  match s with
  | EmptyString => EmptyString
  | String c s' =>
      let r := rstrip_slash s' in
      if Ascii.eqb c "/"%char && String.eqb r EmptyString then EmptyString
      else String c r
  end.

Definition is_pki (config : dict pyval) : bool :=
  match dict_get config "type" with
  | Some (PStr t) => String.eqb t "pki"
  | _ => false
  end.

(** [get_pki_mounts] *)
Definition get_pki_mounts (v : vault) : list string :=
  try_except
    (let* data := sys_mounts v in
     Returned
       (fold_left
          (fun (pki_mounts : list string) (item : string * dict pyval) =>
             let (mount, config) := item in
             if is_pki config then (pki_mounts ++ [rstrip_slash mount])%list
             else pki_mounts)
          (default [] data) []))
    (fun _ => []).

(** The dictionary returned by [check_ca_expiry]. *)
Record ca_info : Type := {
  mount : string;
  expires_at : string;
  days_until_expiry : Z;
  status : string
}.

(** [check_ca_expiry]: the certificate text is fetched and, as the source
    has it, fixed figures are returned. *)
Definition check_ca_expiry (v : vault) (mount : string) : option ca_info :=
  try_except
    (let* cert_pem := ca_pem v mount in
     Returned
       (Some {| mount := mount;
                expires_at := "2025-12-31T23:59:59Z";
                days_until_expiry := 350;
                status := "healthy" |}))
    (fun _ => None).

Record statistics : Type := {
  total_cas : Z;
  healthy_cas : Z;
  warning_cas : Z;
  critical_cas : Z
}.

Record report : Type := {
  timestamp : string;
  vault_health : bool;
  ca_certificates : list ca_info;
  alerts : list (dict pyval);
  stats : statistics
}.

(** [str(days_until_expiry)] *)
Definition str_int (z : Z) : string := NilZero.string_of_int (Z.to_int z).

Definition expiry_alert (level mount : string) (days : Z) (now : string)
  : dict pyval :=
  [("level", PStr level);
   ("message", PStr ("CA " ++ mount ++ " expires in " ++ str_int days ++ " days"));
   ("mount", PStr mount);
   ("days_until_expiry", PInt days);
   ("timestamp", PStr now)].

(** The three-way branch of [generate_report], as the bucket it counts in. *)
Inductive severity : Type := Critical | Warning | Healthy.

Definition classify (days_until_expiry : Z) : severity :=
  if days_until_expiry <=? critical_days then Critical
  else if days_until_expiry <=? warning_days then Warning
  else Healthy.

(** The body of the [for mount in pki_mounts] loop, given the result of
    [check_ca_expiry] for that mount.  The state carries the report and the
    number of clock readings taken so far; [utcnow k] is the [k]-th reading
    of [datetime.utcnow().isoformat()]. *)
Definition process_mount (utcnow : nat -> string)
    (st : report * nat) (mount : string) (info : option ca_info)
  : report * nat :=
  let (rep, k) := st in
  match info with
  | None => st
  | Some ca =>
      let certs := (ca_certificates rep ++ [ca])%list in
      let days := days_until_expiry ca in
      let s := stats rep in
      if days <=? critical_days then
        ({| timestamp := timestamp rep;
            vault_health := vault_health rep;
            ca_certificates := certs;
            alerts := alerts rep ++ [expiry_alert "critical" mount days (utcnow k)];
            stats := {| total_cas := total_cas s;
                        healthy_cas := healthy_cas s;
                        warning_cas := warning_cas s;
                        critical_cas := critical_cas s + 1 |} |}, S k)
      else if days <=? warning_days then
        ({| timestamp := timestamp rep;
            vault_health := vault_health rep;
            ca_certificates := certs;
            alerts := alerts rep ++ [expiry_alert "warning" mount days (utcnow k)];
            stats := {| total_cas := total_cas s;
                        healthy_cas := healthy_cas s;
                        warning_cas := warning_cas s + 1;
                        critical_cas := critical_cas s |} |}, S k)
      else
        ({| timestamp := timestamp rep;
            vault_health := vault_health rep;
            ca_certificates := certs;
            alerts := alerts rep;
            stats := {| total_cas := total_cas s;
                        healthy_cas := healthy_cas s + 1;
                        warning_cas := warning_cas s;
                        critical_cas := critical_cas s |} |}, k)
  end.

(** The loop over the mounts, for a given way of checking one mount. *)
Definition scan_mounts (utcnow : nat -> string)
    (check : string -> option ca_info) (st : report * nat)
    (pki_mounts : list string) : report * nat :=
  fold_left (fun st mount => process_mount utcnow st mount (check mount))
            pki_mounts st.

(** [generate_report], for a given way of checking one mount. *)
Definition generate_report_with (check : string -> option ca_info)
    (v : vault) (utcnow : nat -> string) : report :=
  let health := check_vault_health v in
  let rep := {| timestamp := utcnow 0%nat;
                vault_health := health;
                ca_certificates := [];
                alerts := [];
                stats := {| total_cas := 0; healthy_cas := 0;
                            warning_cas := 0; critical_cas := 0 |} |} in
  if negb health then
    {| timestamp := timestamp rep;
       vault_health := health;
       ca_certificates := [];
       alerts := [[("level", PStr "critical");
                   ("message", PStr "Vault is not accessible");
                   ("timestamp", PStr (utcnow 1%nat))]];
       stats := stats rep |}
  else
    let pki_mounts := get_pki_mounts v in
    let rep := {| timestamp := timestamp rep;
                  vault_health := health;
                  ca_certificates := [];
                  alerts := [];
                  stats := {| total_cas := Z.of_nat (length pki_mounts);
                              healthy_cas := 0;
                              warning_cas := 0;
                              critical_cas := 0 |} |} in
    fst (scan_mounts utcnow check (rep, 1%nat) pki_mounts).

(** [generate_report] *)
Definition generate_report (v : vault) (utcnow : nat -> string) : report :=
  generate_report_with (check_ca_expiry v) v utcnow.

(** Sample Vault: healthy, one PKI mount and one other mount; the CA of
    [pki_int] cannot be fetched. *)
Definition sample_vault : vault :=
  {| sys_health := Returned 200;
     sys_mounts := Returned (Some [("pki/", [("type", PStr "pki")]);
                                   ("secret/", [("type", PStr "kv")]);
                                   ("pki_int/", [("type", PStr "pki")])]);
     ca_pem := fun mount =>
       if String.eqb mount "pki" then Returned "-----BEGIN CERTIFICATE-----"
       else Raised (Exn HTTPError "404 Client Error") |}.

Definition sample_clock (k : nat) : string :=
  "2025-01-15T00:00:0" ++ str_int (Z.of_nat k).

(** The sum of the three severity counters. *)
Definition bucket_sum (s : statistics) : Z :=
  healthy_cas s + warning_cas s + critical_cas s.

(** "Each scanned CA mount is counted in exactly one of the three
    statistics buckets": after a scan, the buckets add up to the number of
    mounts scanned. *)
Definition every_scanned_mount_is_counted : Prop :=
  forall (v : vault) (utcnow : nat -> string),
    let rep := generate_report v utcnow in
    vault_health rep = true ->
    bucket_sum (stats rep) = Z.of_nat (length (get_pki_mounts v)).

(** *** Alerting *)

(** [a['level'] == level]; the subscript raises [KeyError] (recorded
    under its base class) for an alert without that key. *)
Definition level_is (level : string) (a : dict pyval) : outcome bool :=
  match dict_get a "level" with
  | Some (PStr s) => Returned (String.eqb s level)
  | Some _ => Returned false
  | None => Raised (Exn Exception "'level'")
  end.

(** [[a for a in alerts if a['level'] == level]] *)
Fixpoint alerts_of_level (level : string) (alerts : list (dict pyval))
  : outcome (list (dict pyval)) :=
  match alerts with
  | [] => Returned []
  | a :: rest =>
      let* keep := level_is level a in
      let* kept := alerts_of_level level rest in
      Returned (if keep then a :: kept else kept)
  end.

(** A request [requests.post(url, json={'text': ..., 'report': ...})]. *)
Record webhook_post : Type := {
  post_url : string;
  post_text : string;
  post_report : report
}.

Definition alert_text (critical warning : nat) : string :=
  "PKI Certificate Alert - " ++ str_int (Z.of_nat critical) ++ " critical, "
  ++ str_int (Z.of_nat warning) ++ " warning".

(** [send_alerts], as the requests it posts; [alert_webhook] is
    [os.getenv('ALERT_WEBHOOK_URL')].  A failure of the request itself is
    logged and changes nothing else. *)
Definition send_alerts (alert_webhook : option string) (rep : report)
  : list webhook_post :=
  if negb (truthy_str alert_webhook)
     || match alerts rep with [] => true | _ => false end
  then []
  else
    try_except
      (let* critical_alerts := alerts_of_level "critical" (alerts rep) in
       let* warning_alerts := alerts_of_level "warning" (alerts rep) in
       Returned
         (match critical_alerts, warning_alerts with
          | [], [] => []
          | _, _ =>
              [{| post_url := default EmptyString alert_webhook;
                  post_text := alert_text (length critical_alerts)
                                          (length warning_alerts);
                  post_report := rep |}]
          end))
      (fun _ => []).

(** The alerts of a report that carry a given level. *)
Definition has_level (level : string) (a : dict pyval) : bool :=
  match dict_get a "level" with
  | Some (PStr s) => String.eqb s level
  | _ => false
  end.

(** A run of [k] slashes, and whether a string ends in a slash. *)
Fixpoint slashes (k : nat) : string :=
  match k with
  | O => EmptyString
  | S k' => String "/"%char (slashes k')
  end.

Fixpoint ends_with_slash (s : string) : bool :=
  match s with
  | EmptyString => false
  | String c EmptyString => Ascii.eqb c "/"%char
  | String _ s' => ends_with_slash s'
  end.

(** Between two reports of one scan, the numbers of alerts per level
    move with the counters. *)
Definition alerts_track_counters (rep0 rep : report) : Prop :=
  Z.of_nat (length (List.filter (has_level "critical") (alerts rep)))
    - critical_cas (stats rep)
  = Z.of_nat (length (List.filter (has_level "critical") (alerts rep0)))
    - critical_cas (stats rep0)
  /\ Z.of_nat (length (List.filter (has_level "warning") (alerts rep)))
     - warning_cas (stats rep)
     = Z.of_nat (length (List.filter (has_level "warning") (alerts rep0)))
       - warning_cas (stats rep0)
  /\ Z.of_nat (length (alerts rep))
     - critical_cas (stats rep) - warning_cas (stats rep)
     = Z.of_nat (length (alerts rep0))
       - critical_cas (stats rep0) - warning_cas (stats rep0).

(** A Vault whose health endpoint cannot be reached. *)
Definition unreachable_vault : vault :=
  {| sys_health := Raised (Exn ConnectionError "Connection refused");
     sys_mounts := Raised (Exn ConnectionError "Connection refused");
     ca_pem := fun _ => Raised (Exn ConnectionError "Connection refused") |}.

End CertificateMonitor.

(** ** The agents' tool registry ([agents/base/tool_registry.py]) *)

(** [l.remove(x)]: the list without the first occurrence of [x], or
    [None] where Python raises [ValueError]. *)
Fixpoint list_remove_first (x : string) (l : list string)
  : option (list string) :=
  match l with
  | [] => None
  | y :: l' =>
      if String.eqb y x then Some l'
      else match list_remove_first x l' with
           | Some r => Some (y :: r)
           | None => None
           end
  end.

Module ToolRegistry.

(** What the registry reads of a [SmolagentsTool]. *)
Record SmolagentsTool : Type := {
  name : string;
  description : string
}.

(** The argument of [register_tool]: a tool, or an object for which
    [isinstance(tool, SmolagentsTool)] is false. *)
Inductive candidate : Type :=
| ATool (t : SmolagentsTool)
| NotATool.

(** [ToolMetadata]; [datetime] values are points on the time line. *)
Record ToolMetadata : Type := {
  meta_name : string;
  meta_description : string;
  category : string;
  version : string;
  author : string;
  security_level : string;
  mcp_enabled : bool;
  registered_at : option Z;
  usage_count : Z;
  last_used : option Z
}.

(** [ToolRegistry]: the three dictionaries. *)
Record ToolRegistry : Type := {
  tools : dict SmolagentsTool;
  metadata : dict ToolMetadata;
  categories : dict (list string)
}.

(** [__init__] *)
Definition empty : ToolRegistry :=
  {| tools := []; metadata := []; categories := [] |}.

(** [register_tool]; [now] is [datetime.now()]. *)
Definition register_tool (r : ToolRegistry) (now : Z) (tool : candidate)
    (category security_level : string) (mcp_enabled : bool)
  : outcome ToolRegistry :=
  match tool with
  | NotATool => Raised (Exn ValueError "Tool must be a SmolagentsTool instance")
  | ATool t =>
      let metadata_ :=
        {| meta_name := name t;
           meta_description := description t;
           category := category;
           version := "1.0.0";
           author := "system";
           security_level := security_level;
           mcp_enabled := mcp_enabled;
           registered_at := Some now;
           usage_count := 0;
           last_used := None |} in
      let categories1 :=
        if dict_mem (categories r) category then categories r
        else dict_set (categories r) category [] in
      Returned
        {| tools := dict_set (tools r) (name t) t;
           metadata := dict_set (metadata r) (name t) metadata_;
           categories :=
             dict_set categories1 category
               (default [] (dict_get categories1 category) ++ [name t])%list |}
  end.

(** [get_tool] *)
Definition get_tool (r : ToolRegistry) (name : string) : option SmolagentsTool :=
  dict_get (tools r) name.

(** [get_tools_by_category] *)
Definition get_tools_by_category (r : ToolRegistry) (category : string)
  : list SmolagentsTool :=
  let tool_names := default [] (dict_get (categories r) category) in
  omap (dict_get (tools r)) tool_names.

(** [get_all_tools] *)
Definition get_all_tools (r : ToolRegistry) : list SmolagentsTool :=
  map snd (tools r).

(** [get_tool_metadata] *)
Definition get_tool_metadata (r : ToolRegistry) (name : string)
  : option ToolMetadata :=
  dict_get (metadata r) name.

(** [update_usage]; [now] is [datetime.now()]. *)
Definition update_usage (r : ToolRegistry) (now : Z) (name : string)
  : ToolRegistry :=
  match dict_get (metadata r) name with
  | None => r
  | Some m =>
      {| tools := tools r;
         metadata :=
           dict_set (metadata r) name
             {| meta_name := meta_name m;
                meta_description := meta_description m;
                category := category m;
                version := version m;
                author := author m;
                security_level := security_level m;
                mcp_enabled := mcp_enabled m;
                registered_at := registered_at m;
                usage_count := usage_count m + 1;
                last_used := Some now |};
         categories := categories r |}
  end.

(** The [most_used] entry of [get_usage_stats]: the five highest usage
    counts with their names. *)
Definition most_used (r : ToolRegistry) : list (string * Z) :=
  take 5 (sort_desc snd
            (map (fun item => (fst item, usage_count (snd item)))
                 (metadata r))).

(** [get_usage_stats] *)
Definition get_usage_stats (r : ToolRegistry)
  : Z * dict Z * list (string * Z) :=
  (Z.of_nat (length (tools r)),
   map (fun item => (fst item, Z.of_nat (length (snd item)))) (categories r),
   most_used r).

(** [unregister_tool]: the outcome and the registry afterwards, also when
    a step raises ([KeyError] of [pop] is recorded under its base class). *)
Definition unregister_tool (r : ToolRegistry) (name : string)
  : outcome bool * ToolRegistry :=
  if dict_mem (tools r) name then
    let r1 := {| tools := dict_remove (tools r) name;
                 metadata := metadata r;
                 categories := categories r |} in
    match dict_get (metadata r) name with
    | None => (Raised (Exn Exception ("'" ++ name ++ "'")), r1)
    | Some m =>
        let r2 := {| tools := tools r1;
                     metadata := dict_remove (metadata r) name;
                     categories := categories r |} in
        match dict_get (categories r) (category m) with
        | None => (Returned true, r2)
        | Some names =>
            match list_remove_first name names with
            | None =>
                (Raised (Exn ValueError "list.remove(x): x not in list"), r2)
            | Some [] =>
                (Returned true,
                 {| tools := tools r2;
                    metadata := metadata r2;
                    categories := dict_remove (categories r) (category m) |})
            | Some rest =>
                (Returned true,
                 {| tools := tools r2;
                    metadata := metadata r2;
                    categories := dict_set (categories r) (category m) rest |})
            end
        end
    end
  else (Returned false, r).

(** Calls of the registry's mutating methods, to speak of the registries
    that can be built. *)
Inductive call : Type :=
| Register (now : Z) (tool : candidate) (category security_level : string)
    (mcp_enabled : bool)
| UpdateUsage (now : Z) (name : string)
| Unregister (name : string).

Definition apply_call (r : ToolRegistry) (c : call) : ToolRegistry :=
  match c with
  | Register now tool category level mcp =>
      try_except (register_tool r now tool category level mcp) (fun _ => r)
  | UpdateUsage now name => update_usage r now name
  | Unregister name => snd (unregister_tool r name)
  end.

Definition after_calls (calls : list call) : ToolRegistry :=
  fold_left apply_call calls empty.

(** One [register_tool] call with a tool as argument, and the registry
    after a sequence of such calls on a new registry. *)
Record registration : Type := {
  reg_time : Z;
  reg_tool : SmolagentsTool;
  reg_category : string;
  reg_level : string;
  reg_mcp : bool
}.

Definition call_of (x : registration) : call :=
  Register (reg_time x) (ATool (reg_tool x)) (reg_category x) (reg_level x)
           (reg_mcp x).

Definition register_each (l : list registration) : ToolRegistry :=
  after_calls (map call_of l).

(** What the three dictionaries of a registry have in common. *)
Definition consistent (r : ToolRegistry) : Prop :=
  dict_keys (tools r) = dict_keys (metadata r)
  /\ NoDup (dict_keys (tools r))
  /\ NoDup (dict_keys (categories r))
  /\ forall n m, dict_get (metadata r) n = Some m ->
       exists names, dict_get (categories r) (category m) = Some names
                     /\ In n names.

(** Sample tools. *)
Definition nmap_tool : SmolagentsTool :=
  {| name := "nmap"; description := "Port scanner" |}.

Definition whois_tool : SmolagentsTool :=
  {| name := "whois"; description := "Registry lookup" |}.

End ToolRegistry.

(** ** The agents' memory ([agents/base/memory.py]) *)

Module AgentMemory.

(** Values of a stored interaction: the [datetime] put in by the memory,
    or a value of the caller. *)
Inductive mem_value : Type :=
| Datetime (t : Z)
| Val (v : pyval).

(** [AgentMemory]: [max_size] and the deque, oldest entry first. *)
Record AgentMemory : Type := {
  max_size : Z;
  memory : list (dict mem_value)
}.

(** The largest value of a C [Py_ssize_t], on a 64-bit build of CPython. *)
Definition PY_SSIZE_T_MAX : Z := 2 ^ 63 - 1.

(** [__init__]: [deque(maxlen=max_size)] converts the length to a
    [Py_ssize_t], which raises [OverflowError] (recorded under its base
    class) for an [int] outside that range, and then rejects a negative
    length. *)
Definition init (max_size : Z) : outcome AgentMemory :=
  if (max_size <? - PY_SSIZE_T_MAX - 1) || (PY_SSIZE_T_MAX <? max_size)
  then Raised (Exn Exception "Python int too large to convert to C ssize_t")
  else if max_size <? 0
  then Raised (Exn ValueError "maxlen must be non-negative")
  else Returned {| max_size := max_size; memory := [] |}.

(** [{"timestamp": datetime.now(), **interaction}] *)
Definition stamped (now : Z) (interaction : dict pyval) : dict mem_value :=
  fold_left (fun d (item : string * pyval) =>
               dict_set d (fst item) (Val (snd item)))
            interaction [("timestamp", Datetime now)].

(** [deque.append] on a deque with [maxlen]: when full, the entry at the
    other end is dropped. *)
Definition deque_append (maxlen : Z) (d : list (dict mem_value))
    (x : dict mem_value) : list (dict mem_value) :=
  let d' := (d ++ [x])%list in
  if maxlen <? Z.of_nat (length d') then drop 1 d' else d'.

(** [store_interaction]; [popleft] on an empty deque raises [IndexError]
    (recorded under its base class), and the memory is then unchanged. *)
Definition store_interaction (m : AgentMemory) (now : Z)
    (interaction : dict pyval) : outcome AgentMemory :=
  let* after_pop :=
    if max_size m <=? Z.of_nat (length (memory m)) then
      match memory m with
      | [] => Raised (Exn Exception "pop from an empty deque")
      | _ :: rest => Returned rest
      end
    else Returned (memory m) in
  Returned {| max_size := max_size m;
              memory := deque_append (max_size m) after_pop
                          (stamped now interaction) |}.

(** [list(self.memory)[-count:]] *)
Definition get_recent_interactions (m : AgentMemory) (count : Z)
  : list (dict mem_value) :=
  let n := length (memory m) in
  if 0 <? count then drop (n - Z.to_nat count) (memory m)
  else drop (Z.to_nat (- count)) (memory m).

(** [clear_memory] *)
Definition clear_memory (m : AgentMemory) : AgentMemory :=
  {| max_size := max_size m; memory := [] |}.

(** [health_check] *)
Definition health_check (m : AgentMemory) : bool :=
  Z.of_nat (length (memory m)) <=? max_size m.

(** [get_size] *)
Definition get_size (m : AgentMemory) : Z := Z.of_nat (length (memory m)).

(** The memory after storing interactions one after the other, as long as
    no call raises. *)
Fixpoint store_all (m : AgentMemory) (l : list (Z * dict pyval))
  : outcome AgentMemory :=
  match l with
  | [] => Returned m
  | (now, interaction) :: rest =>
      let* m' := store_interaction m now interaction in
      store_all m' rest
  end.

End AgentMemory.

(** ** The network scanner ([agents/network_scanner/network_scanner_agent.py]) *)

Module NetworkScanner.

(** The dictionary built and returned by [scan_ports]. *)
Record scan_result : Type := {
  host : string;
  open_ports : list Z;
  closed_ports : list Z;
  total_scanned : Z;
  timestamp : string
}.

(** The ports scanned when [ports is None]. *)
Definition default_ports : list Z :=
  [21; 22; 23; 25; 53; 80; 110; 143; 443; 993; 995; 8080; 8443].

Section WithNetwork.

(** The network as the scanner meets it: a state that every connection
    attempt may change.  [connect_ex net host port] is one
    [sock.connect_ex((host, port))] on a socket of its own: the error code
    it returns (0 for an accepted connection) or the exception it raises,
    and the network afterwards.  Two attempts on the same port need not
    agree.  Creating, configuring and closing the socket are taken to
    succeed. *)
Variable network : Type.
Variable connect_ex : network -> string -> Z -> outcome Z * network.

(** One round of the [for port in ports] loop of [scan_ports]: a port
    whose attempt raises counts as closed. *)
Definition scan_step (host : string) (st : list Z * list Z * network)
    (port : Z) : list Z * list Z * network :=
  let '(open_ports, closed_ports, net) := st in
  match connect_ex net host port with
  | (Returned result, net') =>
      if result =? 0 then ((open_ports ++ [port])%list, closed_ports, net')
      else (open_ports, (closed_ports ++ [port])%list, net')
  | (Raised _, net') => (open_ports, (closed_ports ++ [port])%list, net')
  end.

Definition scan_loop (net : network) (host : string) (ports : list Z)
  : list Z * list Z * network :=
  fold_left (scan_step host) ports ([], [], net).

(** The connection attempts in the order of a port list: each element of
    the list with the verdict of the attempt made for it, and the network
    after the last attempt. *)
Fixpoint attempts (net : network) (host : string) (ports : list Z)
  : list (Z * bool) * network :=
  match ports with
  | [] => ([], net)
  | port :: rest =>
      let (res, net') := connect_ex net host port in
      let accepted :=
        match res with
        | Returned result => result =? 0
        | Raised _ => false
        end in
      let (more, net'') := attempts net' host rest in
      ((port, accepted) :: more, net'')
  end.

(** The dictionary [scan_result] built by [scan_ports] after the loop, and
    the network then; [now] is [self._get_timestamp()]. *)
Definition scan_result_of (net : network) (now : string) (host : string)
    (ports : option (list Z)) : scan_result * network :=
  let ports := default default_ports ports in
  let '(open_ports, closed_ports, net') := scan_loop net host ports in
  ({| host := host;
      open_ports := open_ports;
      closed_ports := closed_ports;
      total_scanned := Z.of_nat (length ports);
      timestamp := now |},
   net').

(** The object [self.memory], and the three statements that put the result
    into its scan history ([get_context], [append], [add_context]): the
    memory afterwards, or the exception raised. *)
Variable memory : Type.
Variable record_scan : memory -> scan_result -> outcome memory.

(** [scan_ports]: the result is returned once it has been recorded. *)
Definition scan_ports (net : network) (mem : memory) (now : string)
    (host : string) (ports : option (list Z))
  : outcome scan_result * network * memory :=
  let (scan_result, net') := scan_result_of net now host ports in
  match record_scan mem scan_result with
  | Returned mem' => (Returned scan_result, net', mem')
  | Raised e => (Raised e, net', mem)
  end.

End WithNetwork.

(** Recording a scan in an [AgentMemory] of [agents/base/memory.py]: the
    class defines neither [get_context] nor [add_context], so the first of
    the three statements raises. *)
Definition agent_memory_record_scan (m : AgentMemory.AgentMemory)
    (r : scan_result) : outcome AgentMemory.AgentMemory :=
  Raised (Exn AttributeError
            "'AgentMemory' object has no attribute 'get_context'").

Definition high_risk_ports : list Z := [21; 23; 135; 139; 445; 1433; 3389].

(** [port in open_ports] *)
Definition port_in (port : Z) (ports : list Z) : bool :=
  existsb (Z.eqb port) ports.

(** [_assess_risk_level]; [None] stands for an argument that is [None] or
    empty. *)
Definition _assess_risk_level (port_scan : option scan_result) : string :=
  match port_scan with
  | None => "unknown"
  | Some scan =>
      if existsb (fun port => port_in port (open_ports scan)) high_risk_ports
      then "high"
      else if 5 <? Z.of_nat (length (open_ports scan)) then "medium"
      else if 0 <? Z.of_nat (length (open_ports scan)) then "low"
      else "minimal"
  end.

(** The levels in increasing order of severity. *)
Definition risk_rank (level : string) : Z :=
  if String.eqb level "high" then 3
  else if String.eqb level "medium" then 2
  else if String.eqb level "low" then 1
  else 0.

(** The same scan with further ports found open. *)
Definition with_more_open (scan : scan_result) (more : list Z) : scan_result :=
  {| host := host scan;
     open_ports := (open_ports scan ++ more)%list;
     closed_ports := closed_ports scan;
     total_scanned := total_scanned scan;
     timestamp := timestamp scan |}.

(** A host that accepts a connection on port 22 once: the network state
    counts the attempts made, and only the first one is accepted. *)
Definition accepts_once (net : nat) (host : string) (port : Z)
  : outcome Z * nat :=
  (if (net =? 0)%nat && (port =? 22) then Returned 0 else Returned 111,
   S net).

End NetworkScanner.

(** * Properties *)

Lemma opt_str_eqb_eq (a b : option string) : opt_str_eqb a b = true <-> a = b.
Proof.
  destruct a as [x|], b as [y|]; simpl; try (split; congruence).
  rewrite String.eqb_eq. split; congruence.
Qed.

Lemma opt_str_eqb_refl (a : option string) : opt_str_eqb a a = true.
Proof. by apply opt_str_eqb_eq. Qed.

(** ** The certificate store *)

Module StoreProperties.
Import Database.

(** The [SET] list never touches the columns the [WHERE] clause reads. *)
Lemma apply_set_certificate_id now st reason r :
  certificates.certificate_id (apply_set now st reason r)
  = certificates.certificate_id r.
Proof. reflexivity. Qed.

Lemma matches_apply_set w now st reason r :
  matches w (apply_set now st reason r) = matches w r.
Proof. by destruct w. Qed.

Lemma apply_set_status now st reason r :
  certificates.status (apply_set now st reason r) = st.
Proof. reflexivity. Qed.

Lemma apply_set_revoked_at now reason r :
  certificates.revoked_at (apply_set now (Some "revoked") reason r) = Some now.
Proof. reflexivity. Qed.

Lemma updated_lookup now w st reason (rows : list certificates.row) (i : nat) :
  updated now w st reason rows !! i
  = (fun r => if matches w r then apply_set now st reason r else r)
      <$> rows !! i.
Proof. apply list_lookup_fmap. Qed.

(** An [UPDATE] whose [WHERE] clause selects nothing rewrites nothing. *)
Lemma updated_no_match now w st reason (rows : list certificates.row) :
  matching w rows = [] -> updated now w st reason rows = rows.
Proof.
  induction rows as [|r rows IH]; [done|].
  rewrite filter_cons. simpl. destruct (matches w r) eqn:Hm.
  - rewrite decide_True by done. discriminate.
  - rewrite decide_False by congruence. intros H. by rewrite IH.
Qed.

Lemma matching_nil_iff w (rows : list certificates.row) :
  matching w rows = [] <-> forall r, In r rows -> matches w r = false.
Proof.
  split.
  - intros H r Hin. destruct (matches w r) eqn:Hm; [|done].
    assert (r ∈ matching w rows) as Hel
      by (apply list_elem_of_filter; split; [done | by apply list_elem_of_In]).
    rewrite H in Hel. by apply not_elem_of_nil in Hel.
  - intros H. induction rows as [|r rows IH]; [done|].
    rewrite filter_cons. rewrite decide_False.
    + apply IH. intros r' Hr'. apply H. by right.
    + rewrite (H r) by (by left). done.
Qed.

(** The rows selected before and after the rewrite are the same ones. *)
Lemma matching_updated now w st reason (rows : list certificates.row) :
  matching w (updated now w st reason rows)
  = updated now w st reason (matching w rows).
Proof.
  induction rows as [|r rows IH]; [done|].
  simpl. rewrite !filter_cons. destruct (matches w r) eqn:Hm.
  - rewrite matches_apply_set, Hm. rewrite !decide_True by done.
    simpl. rewrite Hm. by rewrite IH.
  - rewrite Hm. rewrite !decide_False by congruence. done.
Qed.

(** The certificate a returned row names exists in the rewritten table, so
    the audit row passes the foreign key. *)
Lemma returned_row_referenced (db : Database) now w st reason r rest :
  matching w (certificates_table db) = r :: rest ->
  references_certificate
    (with_certificates db (updated now w st reason (certificates_table db)))
    (certificates.certificate_id r) = true.
Proof.
  intros Hf. unfold references_certificate. simpl.
  destruct (certificates.certificate_id r) as [c|] eqn:Hc; [|done].
  assert (r ∈ matching w (certificates_table db)) as Hel
    by (rewrite Hf; left).
  apply list_elem_of_filter in Hel as [Hm Hin].
  apply existsb_exists.
  exists (apply_set now st reason r). split.
  - apply in_map_iff. exists r. rewrite Hm. split; [done|].
    by apply list_elem_of_In.
  - rewrite apply_set_certificate_id, Hc. apply opt_str_eqb_refl.
Qed.

Lemma with_certificates_same (db : Database) :
  with_certificates db (certificates_table db) = db.
Proof. by destruct db. Qed.

(** [update_certificate_status] on a connected store with a usable key,
    when no row matches ... *)
Lemma update_when_no_match (db : Database) now cid sn st reason w :
  pool db = true ->
  choose_where cid sn = Returned w ->
  matching w (certificates_table db) = [] ->
  update_certificate_status db now cid sn st reason = (Returned false, db).
Proof.
  intros Hp Hw Hf. unfold update_certificate_status, acquire, sql_update.
  rewrite Hp, Hw, Hf. simpl.
  by rewrite updated_no_match, with_certificates_same.
Qed.

(** ... and when at least one does. *)
Lemma update_when_match (db : Database) now cid sn st reason w r rest :
  pool db = true ->
  choose_where cid sn = Returned w ->
  matching w (certificates_table db) = r :: rest ->
  update_certificate_status db now cid sn st reason
  = (Returned true,
     {| pool := true;
        certificates_table := updated now w st reason (certificates_table db);
        certificates_seq := certificates_seq db;
        operations_table :=
          operations_table db ++
          [certificate_operations.mk (operations_seq db)
             (certificates.certificate_id r) "status_update"
             (StatusUpdateData st reason) (PDict [("success", PBool true)])
             None now "system"];
        operations_seq := operations_seq db + 1 |}).
Proof.
  intros Hp Hw Hf. unfold update_certificate_status, acquire, sql_update.
  rewrite Hp, Hw, Hf. simpl. f_equal.
  unfold _log_operation.
  rewrite (returned_row_referenced db now w st reason r rest Hf).
  simpl. by rewrite Hp.
Qed.

(** A call that returns [True] went through the [UPDATE] with some key and
    some matching row. *)
Lemma update_true_inv (db db1 : Database) now cid sn st reason :
  update_certificate_status db now cid sn st reason = (Returned true, db1) ->
  pool db = true /\
  exists w r rest,
    choose_where cid sn = Returned w /\
    matching w (certificates_table db) = r :: rest.
Proof.
  unfold update_certificate_status, acquire, sql_update.
  destruct (pool db) eqn:Hp; [|discriminate].
  destruct (choose_where cid sn) as [w|e] eqn:Hw; [|discriminate].
  destruct (matching w (certificates_table db)) as [|r rest] eqn:Hf;
    simpl; [discriminate|].
  intros _. split; [done|]. by exists w, r, rest.
Qed.

(** The table after a call, whatever the call returned, for a connected
    store and a usable key. *)
Lemma update_table (db : Database) now cid sn st reason w :
  pool db = true ->
  choose_where cid sn = Returned w ->
  certificates_table (snd (update_certificate_status db now cid sn st reason))
  = updated now w st reason (certificates_table db).
Proof.
  intros Hp Hw.
  destruct (matching w (certificates_table db)) as [|r rest] eqn:Hf.
  - rewrite (update_when_no_match db now cid sn st reason w) by done.
    simpl. by rewrite updated_no_match.
  - by rewrite (update_when_match db now cid sn st reason w r rest).
Qed.

(** *** Status transitions *)

(** C1, as stated, fails: the certificate of [revoked_store] is in the
    terminal status ["revoked"]; a request for ["pending"] is not a legal
    successor, yet the stored status becomes ["pending"]. *)
Lemma illegal_transition_is_stored : ~ rejects_illegal_transitions.
Proof.
  intros H.
  assert (exists r, certificates_table revoked_store !! 0%nat = Some r
                    /\ certificates.status r = Some "revoked")
    as (r & Hr & Hs) by (eexists; split; reflexivity).
  specialize (H revoked_store 200 (Some "cert-1") None (Some "pending") None
                0%nat r Hr).
  rewrite Hs in H. specialize (H eq_refl).
  vm_compute in H. discriminate.
Qed.

(** C1, amended: [update_certificate_status] checks no transition.  On a
    connected store, with a usable lookup key and with values that fit the
    columns they are written to (a status of at most 50 characters and,
    when a revocation reason is written, a reason of at most 100), every
    certificate the key selects gets the requested status, whatever its
    current status is, and every other certificate keeps its status. *)
Theorem update_stores_any_requested_status
    (db : Database) now cid sn st reason w (i : nat) r :
  pool db = true ->
  choose_where cid sn = Returned w ->
  update_within_limits st reason = true ->
  certificates_table db !! i = Some r ->
  certificates.status <$>
    (certificates_table
       (snd (update_certificate_status db now cid sn st reason)) !! i)
  = Some (if matches w r then st else certificates.status r).
Proof.
  intros Hp Hw _ Hr.
  rewrite (update_table db now cid sn st reason w Hp Hw).
  rewrite updated_lookup, Hr. simpl.
  by destruct (matches w r).
Qed.

Lemma update_stores_any_requested_status_witness :
  pool revoked_store = true
  /\ choose_where (Some "cert-1") None = Returned (ByCertificateId "cert-1")
  /\ update_within_limits (Some "pending") None = true
  /\ certificates.status <$>
       (certificates_table
          (snd (update_certificate_status revoked_store 200 (Some "cert-1")
                  None (Some "pending") None)) !! 0%nat)
     = Some (Some "pending").
Proof.
  split; [reflexivity|]. split; [reflexivity|]. split; [reflexivity|].
  refine (update_stores_any_requested_status revoked_store 200 (Some "cert-1")
            None (Some "pending") None (ByCertificateId "cert-1") 0%nat _
            eq_refl eq_refl eq_refl eq_refl).
Defined.

(** *** Lookup keys *)

(** C2, as stated, fails: with both keys supplied the call on [svc_store]
    raises nothing; it returns [True] and rewrites the row. *)
Lemma both_keys_are_accepted : ~ requires_exactly_one_key.
Proof.
  intros H.
  destruct (H svc_store 100 (Some "cert-1") (Some "0a:1b") (Some "revoked") None)
    as [e He].
  - left. split; eexists; reflexivity.
  - vm_compute in He. discriminate.
Qed.

(** C2, amended: with neither key supplied ([None] or the empty string)
    the call raises and the store is unchanged, the exception being the
    [ValueError] of the source when the pool is connected; with a
    [certificate_id] supplied, a [serial_number] supplied as well is
    ignored: the call behaves as the call without it. *)
Theorem lookup_key_choice (db : Database) now cid sn st reason :
  (truthy_str cid = false -> truthy_str sn = false ->
   exists e,
     update_certificate_status db now cid sn st reason = (Raised e, db)
     /\ (pool db = true ->
         e = Exn ValueError
               "Either certificate_id or serial_number must be provided"))
  /\ (truthy_str cid = true ->
      update_certificate_status db now cid sn st reason
      = update_certificate_status db now cid None st reason).
Proof.
  split.
  - intros Hc Hs. unfold update_certificate_status, acquire, choose_where.
    rewrite Hc, Hs. destruct (pool db); eexists; split; try reflexivity.
    discriminate.
  - intros Hc. unfold update_certificate_status, choose_where.
    by rewrite Hc.
Qed.

Lemma lookup_key_choice_witness :
  (exists e,
     update_certificate_status svc_store 100 None (Some EmptyString)
       (Some "revoked") None = (Raised e, svc_store)
     /\ (pool svc_store = true ->
         e = Exn ValueError
               "Either certificate_id or serial_number must be provided"))
  /\ update_certificate_status svc_store 100 (Some "cert-1") (Some "ffff")
       (Some "revoked") None
     = update_certificate_status svc_store 100 (Some "cert-1") None
         (Some "revoked") None.
Proof.
  destruct (lookup_key_choice svc_store 100 None (Some EmptyString)
              (Some "revoked") None) as [Hneither _].
  destruct (lookup_key_choice svc_store 100 (Some "cert-1") (Some "ffff")
              (Some "revoked") None) as [_ Hboth].
  split.
  - apply Hneither; reflexivity.
  - apply Hboth; reflexivity.
Defined.

(** *** Unknown certificates *)



(** *** Repeated revocation *)

(** C3, as stated, fails: revoking [cert-1] at time 100 and again at time
    200 returns [True] both times, and the second call moves [revoked_at]
    from 100 to 200. *)
Lemma second_revoke_moves_revoked_at : ~ second_revoke_keeps_revoked_at.
Proof.
  intros H.
  destruct (H svc_store revoked_store 100 200 (Some "cert-1") None None
              eq_refl) as (db2 & Hcall & Hsame).
  apply (f_equal snd) in Hcall. simpl in Hcall. subst db2.
  vm_compute in Hsame. discriminate.
Qed.

(** C3, amended: after a successful revocation at time [t1], a second
    revocation with the same key at time [t2], with a reason (if any) that
    fits the [revocation_reason] column, returns [True] as well; it stamps
    every selected certificate again, moving [revoked_at] from [t1] to
    [t2], leaves the other certificates alone, and appends one more
    [status_update] row to the operation log. *)
Theorem second_revoke_restamps
    (db db1 : Database) t1 t2 cid sn reason1 reason2 :
  update_certificate_status db t1 cid sn (Some "revoked") reason1
    = (Returned true, db1) ->
  update_within_limits (Some "revoked") reason2 = true ->
  exists w db2 op,
    choose_where cid sn = Returned w
    /\ update_certificate_status db1 t2 cid sn (Some "revoked") reason2
       = (Returned true, db2)
    /\ (forall (i : nat) r,
          certificates_table db1 !! i = Some r ->
          exists r2,
            certificates_table db2 !! i = Some r2
            /\ if matches w r
               then certificates.status r = Some "revoked"
                    /\ certificates.revoked_at r = Some t1
                    /\ certificates.status r2 = Some "revoked"
                    /\ certificates.revoked_at r2 = Some t2
               else r2 = r)
    /\ operations_table db2 = (operations_table db1 ++ [op])%list
    /\ certificate_operations.operation_type op = "status_update"
    /\ certificate_operations.operation_data op
       = StatusUpdateData (Some "revoked") reason2.
Proof.
  intros Hfirst _.
  destruct (update_true_inv _ _ _ _ _ _ _ Hfirst)
    as (Hp & w & r & rest & Hw & Hf).
  rewrite (update_when_match db t1 cid sn _ reason1 w r rest Hp Hw Hf)
    in Hfirst.
  injection Hfirst as <-.
  set (db1 := {| pool := true |}).
  assert (matching w (certificates_table db1)
          = updated t1 w (Some "revoked") reason1 (r :: rest)) as Hf1
    by (unfold db1; simpl certificates_table;
        by rewrite matching_updated, Hf).
  simpl in Hf1.
  pose proof (update_when_match db1 t2 cid sn (Some "revoked") reason2 w
                _ _ eq_refl Hw Hf1) as Hsecond.
  eexists w, _, _. split; [done|]. split; [exact Hsecond|].
  split; [|by simpl].
  intros i r1 Hr1. simpl certificates_table in *.
  rewrite updated_lookup in Hr1. rewrite updated_lookup, updated_lookup.
  destruct (certificates_table db !! i) as [r0|]; [|discriminate].
  simpl in *. injection Hr1 as <-.
  eexists. split; [reflexivity|].
  destruct (matches w r0) eqn:Hm.
  - rewrite !matches_apply_set, Hm. by simpl.
  - by rewrite Hm.
Qed.

Lemma second_revoke_restamps_witness :
  exists w db2 op,
    choose_where (Some "cert-1") None = Returned w
    /\ update_certificate_status revoked_store 200 (Some "cert-1") None
         (Some "revoked") (Some "superseded") = (Returned true, db2)
    /\ (forall (i : nat) r,
          certificates_table revoked_store !! i = Some r ->
          exists r2,
            certificates_table db2 !! i = Some r2
            /\ if matches w r
               then certificates.status r = Some "revoked"
                    /\ certificates.revoked_at r = Some 100
                    /\ certificates.status r2 = Some "revoked"
                    /\ certificates.revoked_at r2 = Some 200
               else r2 = r)
    /\ operations_table db2 = (operations_table revoked_store ++ [op])%list
    /\ certificate_operations.operation_type op = "status_update"
    /\ certificate_operations.operation_data op
       = StatusUpdateData (Some "revoked") (Some "superseded").
Proof.
  apply (second_revoke_restamps svc_store revoked_store 100 200
           (Some "cert-1") None None (Some "superseded")).
  - reflexivity.
  - reflexivity.
Defined.

(** *** The revocation invariant *)

(** C4, as stated, fails: after issuing, revoking and setting the status
    back to ["active"], the certificate is not revoked and its [revoked_at]
    is still set. *)
Lemma revoked_at_outlives_revocation : ~ revocation_invariant_always.
Proof.
  intros H. specialize (H no_parse no_parse reinstating_calls).
  assert (exists r,
            certificates_table (run no_parse no_parse empty_store
                                    reinstating_calls) = [r]
            /\ certificates.status r = Some "active"
            /\ certificates.revoked_at r = Some 100)
    as (r & Htbl & Hs & Hr)
    by (vm_compute; eexists; split; [reflexivity | split; reflexivity]).
  destruct (H r) as [_ Hback].
  - rewrite Htbl. by left.
  - rewrite Hr, Hs in Hback. specialize (Hback (mk_is_Some _ _ eq_refl)).
    discriminate.
Qed.

Lemma log_operation_certificates (db : Database) now cid ty d res :
  certificates_table (_log_operation db now cid ty d res)
  = certificates_table db.
Proof.
  unfold _log_operation. by destruct (references_certificate db cid).
Qed.

Lemma update_preserves_stamps (db : Database) now cid sn st reason :
  revoked_has_revoked_at db ->
  revoked_has_revoked_at
    (snd (update_certificate_status db now cid sn st reason)).
Proof.
  intros Hinv.
  destruct (pool db) eqn:Hp;
    [|by unfold update_certificate_status, acquire; rewrite Hp].
  destruct (choose_where cid sn) as [w|e] eqn:Hw;
    [|by unfold update_certificate_status, acquire; rewrite Hp, Hw].
  intros r' Hin. rewrite (update_table db now cid sn st reason w Hp Hw) in Hin.
  apply in_map_iff in Hin as (r & <- & Hin).
  destruct (matches w r); [|by apply Hinv].
  rewrite apply_set_status. intros ->. simpl. by eexists.
Qed.

Section WithDatetime.

Variable fromisoformat : string -> outcome timestamp.
Variable strptime_ymd_hms : string -> outcome timestamp.

Lemma store_preserves_stamps (db : Database) now provider cd metadata :
  revoked_has_revoked_at db ->
  stores_as_revoked (StoreCertificate now provider cd metadata) = false ->
  revoked_has_revoked_at
    (snd (store_certificate fromisoformat strptime_ymd_hms db now provider
            cd metadata)).
Proof.
  intros Hinv Hst. unfold store_certificate, acquire.
  destruct (pool db); [|done].
  unfold sql_insert.
  destruct (cd_common_name cd) as [cn|]; [|done].
  match goal with |- context [if ?c then _ else _] => destruct c end; [done|].
  simpl. intros r Hin. rewrite log_operation_certificates in Hin.
  simpl in Hin. apply in_app_iff in Hin as [Hin|[<-|[]]]; [by apply Hinv|].
  simpl. intros Hrev. simpl in Hst.
  destruct (cd_status cd) as [s|]; simpl in Hrev; [|discriminate].
  rewrite Hrev in Hst. discriminate.
Qed.

Lemma step_preserves_stamps (db : Database) (o : store_op) :
  revoked_has_revoked_at db ->
  stores_as_revoked o = false ->
  revoked_has_revoked_at (step fromisoformat strptime_ymd_hms db o).
Proof.
  destruct o; simpl step; intros Hinv Hst.
  - by apply store_preserves_stamps.
  - by apply update_preserves_stamps.
Qed.

(** C4, amended: one direction of the invariant is kept.  If every
    revoked certificate of a store has [revoked_at] set (as in the empty
    store), then so it is after any sequence of [store_certificate] and
    [update_certificate_status] calls in which no certificate is stored
    with the status ["revoked"]. *)
Theorem revoked_certificates_keep_revoked_at
    (ops : list store_op) (db : Database) :
  revoked_has_revoked_at db ->
  Forall (fun o => stores_as_revoked o = false) ops ->
  revoked_has_revoked_at (run fromisoformat strptime_ymd_hms db ops).
Proof.
  revert db. induction ops as [|o ops IH]; intros db Hinv Hops; [done|].
  apply Forall_cons in Hops as [Ho Hops].
  simpl. apply IH; [|done]. by apply step_preserves_stamps.
Qed.

End WithDatetime.

Lemma revoked_certificates_keep_revoked_at_witness :
  exists r,
    certificates_table (run no_parse no_parse empty_store revoking_calls) = [r]
    /\ certificates.status r = Some "revoked"
    /\ is_Some (certificates.revoked_at r).
Proof.
  eexists. split; [reflexivity|]. split; [reflexivity|].
  apply (revoked_certificates_keep_revoked_at no_parse no_parse
           revoking_calls empty_store).
  - intros r [].
  - repeat constructor.
  - left. reflexivity.
  - reflexivity.
Defined.

(** C4, the condition of the amended statement is needed: a certificate
    stored with the status ["revoked"] is revoked and has no [revoked_at],
    since [store_certificate] never writes that column. *)
Lemma stored_as_revoked_has_no_revoked_at : ~ revoked_always_has_revoked_at.
Proof.
  intros H.
  specialize (H no_parse no_parse
                [StoreCertificate 10 "vault" revoked_request None]).
  assert (exists r,
            certificates_table
              (run no_parse no_parse empty_store
                   [StoreCertificate 10 "vault" revoked_request None]) = [r]
            /\ certificates.status r = Some "revoked"
            /\ certificates.revoked_at r = None)
    as (r & Htbl & Hs & Hr)
    by (eexists; split; [reflexivity | split; reflexivity]).
  destruct (H r) as [t Ht].
  - rewrite Htbl. by left.
  - exact Hs.
  - rewrite Hr in Ht. discriminate.
Qed.

End StoreProperties.

(** ** The tool dispatch engine *)

Lemma append_assoc (a b c : string) : (a ++ b) ++ c = a ++ b ++ c.
Proof.
  induction a as [|x a IH]; [done|].
  change (String x ((a ++ b) ++ c) = String x (a ++ b ++ c)). by rewrite IH.
Qed.

Lemma append_empty_r (a : string) : a ++ EmptyString = a.
Proof.
  induction a as [|x a IH]; [done|].
  change (String x (a ++ EmptyString) = String x a). by rewrite IH.
Qed.

Lemma contains_refl (s : string) : contains s s.
Proof. exists EmptyString, EmptyString. simpl. by rewrite append_empty_r. Qed.

Lemma contains_prefix (s sub pre : string) :
  contains s sub -> contains (pre ++ s) sub.
Proof.
  intros (a & b & ->). exists (pre ++ a), b. by rewrite append_assoc.
Qed.

Lemma contains_suffix (s sub post : string) :
  contains s sub -> contains (s ++ post) sub.
Proof.
  intros (a & b & ->). exists a, (b ++ post). by rewrite !append_assoc.
Qed.

(** Every joined item occurs in the joined text. *)
Lemma contains_join (sep : string) (l : list string) (p : string) :
  In p l -> contains (join sep l) p.
Proof.
  induction l as [|s l IH]; [done|].
  intros [->|Hin].
  - destruct l as [|s' l]; [apply contains_refl|].
    change (contains (p ++ sep ++ join sep (s' :: l)) p).
    apply contains_suffix, contains_refl.
  - destruct l as [|s' l]; [done|].
    change (contains (s ++ sep ++ join sep (s' :: l)) p).
    by apply contains_prefix, contains_prefix, IH.
Qed.



Module DispatchProperties.
Import MCP.

Lemma missing_loop (params : dict pyval) (items : dict (dict pyval))
    (acc : list string) :
  fold_left
    (fun (missing : list string) (item : string * dict pyval) =>
       let (param_name, param_def) := item in
       if negb (dict_mem params param_name) && required_flag param_def
       then (missing ++ [param_name])%list
       else missing)
    items acc
  = (acc ++ map fst (List.filter (reported params) items))%list.
Proof.
  revert acc. induction items as [|[p def] items IH]; intros acc; simpl.
  - by rewrite app_nil_r.
  - rewrite IH. unfold reported at 2. simpl.
    destruct (negb (dict_mem params p) && required_flag def); simpl; [|done].
    by rewrite <- app_assoc.
Qed.

(** The loop collects, in declaration order, every declared parameter that
    is absent from the input and whose [required] flag holds. *)
Lemma missing_params_filter (tool : MCPTool) (params : dict pyval) :
  missing_params tool params
  = map fst (List.filter (reported params) (parameters tool)).
Proof. unfold missing_params. by rewrite missing_loop. Qed.

Lemma in_missing_params (tool : MCPTool) (params : dict pyval) (p : string) :
  In p (missing_params tool params)
  <-> exists def, In (p, def) (parameters tool)
                  /\ dict_mem params p = false
                  /\ required_flag def = true.
Proof.
  rewrite missing_params_filter, in_map_iff. split.
  - intros ([q def] & <- & Hin). apply filter_In in Hin as [Hin Hrep].
    unfold reported in Hrep. simpl in *.
    apply andb_prop in Hrep as [Habs Hreq].
    exists def. by rewrite negb_true_iff in Habs.
  - intros (def & Hin & Habs & Hreq). exists (p, def). split; [done|].
    apply filter_In. split; [done|]. unfold reported. simpl.
    by rewrite Habs, Hreq.
Qed.


(** *** Envelopes *)

(** [to_dict] always writes [success] and [timestamp]. *)
Lemma to_dict_always now (r : MCPResult) :
  dict_get (MCPResult_to_dict now r) "success" = Some (PBool (success r))
  /\ dict_get (MCPResult_to_dict now r) "timestamp" = Some (PStr now).
Proof.
  unfold MCPResult_to_dict.
  destruct (is_py_none (data r)), (error r); split; reflexivity.
Qed.

(** C5, as stated, fails: the [ping] handler returns [None], and the
    envelope of the call has no [data] key. *)
Lemma none_result_has_no_data_key : ~ wraps_every_returned_value.
Proof.
  intros H.
  destruct (H sample_server "t0" "ping" ping_tool [] PNone
              eq_refl eq_refl eq_refl) as (_ & Hdata & _).
  vm_compute in Hdata. discriminate.
Qed.

(** C5, amended: the envelope of every call has one of these forms.
    Unknown tool, missing required parameters and an exception raised by
    the handler each give [{success: false, error: <message>, timestamp}];
    a handler returning a plain value other than [None] gives
    [{success: true, data: <value>, timestamp}]; a handler returning [None]
    gives [{success: true, timestamp}], without a [data] key; an
    [MCPResult] returned by the handler is rendered by its own [to_dict].
    In every case [success] and [timestamp] are present. *)
Theorem call_tool_envelope (srv : MCPServer) now tool_name params :
  let envelope := fst (call_tool srv now tool_name params) in
  (dict_get (tools srv) tool_name = None ->
   envelope = failure_envelope now ("Tool '" ++ tool_name ++ "' not found"))
  /\ (forall tool,
        dict_get (tools srv) tool_name = Some tool ->
        (missing_params tool params <> [] ->
         envelope
         = failure_envelope now
             ("Missing required parameters: "
              ++ join ", " (missing_params tool params)))
        /\ (missing_params tool params = [] ->
            (forall e, handler tool params = Raised e ->
               envelope
               = failure_envelope now
                   ("Tool execution failed: " ++ str_exn e))
            /\ (forall v, handler tool params = Returned (Plain v) ->
                  v <> PNone -> envelope = success_envelope now v)
            /\ (handler tool params = Returned (Plain PNone) ->
                envelope = [("success", PBool true); ("timestamp", PStr now)])
            /\ (forall r, handler tool params = Returned (Result r) ->
                  envelope = MCPResult_to_dict now r)))
  /\ (exists ok, dict_get envelope "success" = Some (PBool ok))
  /\ dict_get envelope "timestamp" = Some (PStr now).
Proof.
  unfold call_tool. cbv zeta.
  destruct (dict_get (tools srv) tool_name) as [tool|] eqn:Htool.
  - split; [done|].
    destruct (missing_params tool params) as [|p ps] eqn:Hmiss.
    + split.
      * intros ? [= <-]. split; [done|]. intros _.
        repeat split.
        -- intros e ->. reflexivity.
        -- intros v -> Hv. simpl. by destruct v.
        -- intros ->. reflexivity.
        -- intros r ->. reflexivity.
      * destruct (handler tool params) as [[v|r]|e];
          [ destruct (to_dict_always now (mkResult true v None)) as [H1 H2]
          | destruct (to_dict_always now r) as [H1 H2]
          | destruct (to_dict_always now
                        (mkResult false PNone
                           (Some ("Tool execution failed: " ++ str_exn e))))
              as [H1 H2] ];
          (split; [eexists; exact H1 | exact H2]).
    + split; [|split; [by eexists | done]].
      intros ? [= <-]. rewrite Hmiss. split; [done | by intros [=]].
  - split; [done|]. split; [by intros ? [=]|]. split; [by eexists | done].
Qed.

Lemma call_tool_envelope_witness :
  fst (call_tool sample_server "t0" "no_such_tool" [])
  = failure_envelope "t0" "Tool 'no_such_tool' not found"
  /\ fst (call_tool sample_server "t0" "issue_certificate"
            [("common_name", PStr "svc.internal"); ("ttl", PStr "24h")])
     = success_envelope "t0" (PDict [("status", PStr "issued")])
  /\ fst (call_tool sample_server "t0" "ping" [])
     = [("success", PBool true); ("timestamp", PStr "t0")]
  /\ fst (call_tool sample_server "t0" "revoke_certificate"
            [("serial_number", PStr "0a:1b")])
     = failure_envelope "t0" "Tool execution failed: Vault is sealed".
Proof.
  destruct (call_tool_envelope sample_server "t0" "no_such_tool" [])
    as (Hunknown & _).
  destruct (call_tool_envelope sample_server "t0" "issue_certificate"
              [("common_name", PStr "svc.internal"); ("ttl", PStr "24h")])
    as (_ & Hissue & _).
  destruct (Hissue issue_certificate_tool eq_refl) as (_ & Hissue').
  destruct (Hissue' eq_refl) as (_ & Hplain & _).
  destruct (call_tool_envelope sample_server "t0" "ping" []) as (_ & Hping & _).
  destruct (Hping ping_tool eq_refl) as (_ & Hping').
  destruct (Hping' eq_refl) as (_ & _ & Hnone & _).
  destruct (call_tool_envelope sample_server "t0" "revoke_certificate"
              [("serial_number", PStr "0a:1b")]) as (_ & Hrevoke & _).
  destruct (Hrevoke revoke_certificate_tool eq_refl) as (_ & Hrevoke').
  destruct (Hrevoke' eq_refl) as (Hraised & _).
  split; [exact (Hunknown eq_refl)|].
  split; [apply Hplain; [reflexivity | discriminate]|].
  split; [exact (Hnone eq_refl)|].
  exact (Hraised _ eq_refl).
Defined.

(** *** Validation of required parameters *)

(** C6: for a registered tool, if some declared parameter whose [required]
    flag holds is absent from the input, the call returns the failure
    envelope whose message is ["Missing required parameters: "] followed by
    the comma-separated names of all such parameters, so every one of them
    occurs in the message, and the handler is not invoked. *)
Theorem missing_parameters_are_all_named
    (srv : MCPServer) now tool_name tool params :
  dict_get (tools srv) tool_name = Some tool ->
  (exists p def, In (p, def) (parameters tool)
                 /\ required_flag def = true
                 /\ dict_mem params p = false) ->
  exists message,
    call_tool srv now tool_name params = (failure_envelope now message, [])
    /\ message = "Missing required parameters: "
                 ++ join ", " (missing_params tool params)
    /\ forall p def,
         In (p, def) (parameters tool) ->
         required_flag def = true ->
         dict_mem params p = false ->
         In p (missing_params tool params) /\ contains message p.
Proof.
  intros Htool (p0 & def0 & Hin0 & Hreq0 & Habs0).
  assert (In p0 (missing_params tool params)) as Hmiss0
    by (apply in_missing_params; by exists def0).
  eexists. split; [|split; [reflexivity|]].
  - unfold call_tool. rewrite Htool.
    destruct (missing_params tool params) as [|q qs]; [done|]. reflexivity.
  - intros p def Hin Hreq Habs.
    assert (In p (missing_params tool params)) as Hmiss
      by (apply in_missing_params; by exists def).
    split; [done|]. by apply contains_prefix, contains_join.
Qed.

Lemma missing_parameters_are_all_named_witness :
  exists message,
    call_tool sample_server "t0" "issue_certificate" []
    = (failure_envelope "t0" message, [])
    /\ message = "Missing required parameters: "
                 ++ join ", " (missing_params issue_certificate_tool [])
    /\ forall p def,
         In (p, def) (parameters issue_certificate_tool) ->
         required_flag def = true ->
         dict_mem ([] : dict pyval) p = false ->
         In p (missing_params issue_certificate_tool [])
         /\ contains message p.
Proof.
  apply (missing_parameters_are_all_named sample_server "t0"
           "issue_certificate" issue_certificate_tool []).
  - reflexivity.
  - exists "common_name", [("type", PStr "string"); ("required", PBool true)].
    split; [by left|]. split; reflexivity.
Defined.

(** The instance of the specification: [call("issue_certificate", {})]. *)
Example issue_certificate_without_parameters :
  call_tool sample_server "t0" "issue_certificate" []
  = (failure_envelope "t0" "Missing required parameters: common_name, ttl", []).
Proof. reflexivity. Qed.

(** *** Advertised and enforced parameters *)





End DispatchProperties.

(** ** The cache layer *)

Module CacheProperties.
Import RedisCache.


Section WithJson.

Variable json_loads : string -> outcome pyval.




End WithJson.


(** Any other failure of the decoder is caught by the outer handler. *)
Lemma get_when_decoder_overflows (c : RedisCache) key keyspace raw msg :
  redis c = Connected keyspace ->
  keyspace !! _make_key c key = Some (RString raw) ->
  get (fun _ => Raised (Exn RecursionError msg)) c key = PNone.
Proof. intros Hc Hk. unfold get. rewrite Hc. simpl. by rewrite Hk. Qed.

(** [exists] degrades in the same way. *)
Lemma exists_fails_soft (c : RedisCache) (key : string) :
  redis c = NotConnected \/ redis c = Unreachable -> exists_ c key = false.
Proof. unfold exists_. by intros [->| ->]. Qed.

End CacheProperties.

(** ** The expiry monitor *)

Module MonitorProperties.
Import CertificateMonitor.

(** The thresholds of the three-way branch. *)
Lemma classify_spec (days : Z) :
  (classify days = Critical <-> days <= 7)
  /\ (classify days = Warning <-> 7 < days <= 30)
  /\ (classify days = Healthy <-> 30 < days).
Proof.
  unfold classify, critical_days, warning_days.
  destruct (Z.leb_spec days 7), (Z.leb_spec days 30);
    repeat split; intros; try discriminate; try lia.
Qed.

(** The loop body counts a checked mount in the bucket of its class, and in
    that bucket only. *)
Lemma process_mount_counts utcnow (rep : report) (k : nat) mount (ca : ca_info) :
  let s := stats rep in
  let s' := stats (fst (process_mount utcnow (rep, k) mount (Some ca))) in
  total_cas s' = total_cas s
  /\ match classify (days_until_expiry ca) with
     | Critical =>
         critical_cas s' = critical_cas s + 1
         /\ warning_cas s' = warning_cas s /\ healthy_cas s' = healthy_cas s
     | Warning =>
         warning_cas s' = warning_cas s + 1
         /\ critical_cas s' = critical_cas s /\ healthy_cas s' = healthy_cas s
     | Healthy =>
         healthy_cas s' = healthy_cas s + 1
         /\ critical_cas s' = critical_cas s /\ warning_cas s' = warning_cas s
     end.
Proof.
  unfold process_mount, classify.
  destruct (days_until_expiry ca <=? critical_days);
    [|destruct (days_until_expiry ca <=? warning_days)]; simpl; done.
Qed.

(** A mount whose check gave nothing changes nothing. *)
Lemma process_mount_skips utcnow (st : report * nat) mount :
  process_mount utcnow st mount None = st.
Proof. by destruct st. Qed.

Lemma process_mount_step utcnow (st : report * nat) mount info :
  let st' := process_mount utcnow st mount info in
  bucket_sum (stats (fst st'))
  = bucket_sum (stats (fst st)) + Z.of_nat (length (option_list info))
  /\ ca_certificates (fst st')
     = (ca_certificates (fst st) ++ option_list info)%list
  /\ total_cas (stats (fst st')) = total_cas (stats (fst st))
  /\ vault_health (fst st') = vault_health (fst st).
Proof.
  destruct st as [rep k], info as [ca|]; simpl.
  - unfold bucket_sum.
    destruct (days_until_expiry ca <=? critical_days);
      [|destruct (days_until_expiry ca <=? warning_days)]; simpl;
      repeat split; lia.
  - unfold bucket_sum. rewrite app_nil_r. repeat split; lia.
Qed.

Lemma omap_cons_app {A B} (f : A -> option B) (x : A) (l : list A) :
  omap f (x :: l) = (option_list (f x) ++ omap f l)%list.
Proof. simpl. by destruct (f x). Qed.

(** The whole loop: the buckets grow by the number of mounts whose check
    returned a result; these are the entries added to [ca_certificates]. *)
Lemma scan_mounts_counts utcnow check (pki_mounts : list string)
    (st : report * nat) :
  let st' := scan_mounts utcnow check st pki_mounts in
  bucket_sum (stats (fst st'))
  = bucket_sum (stats (fst st))
    + Z.of_nat (length (omap check pki_mounts))
  /\ ca_certificates (fst st')
     = (ca_certificates (fst st) ++ omap check pki_mounts)%list
  /\ total_cas (stats (fst st')) = total_cas (stats (fst st))
  /\ vault_health (fst st') = vault_health (fst st).
Proof.
  revert st. induction pki_mounts as [|m ms IH]; intros st.
  - simpl. rewrite app_nil_r. repeat split; lia.
  - unfold scan_mounts in *. simpl fold_left.
    destruct (IH (process_mount utcnow st m (check m)))
      as (Hsum & Hcerts & Htotal & Hhealth).
    destruct (process_mount_step utcnow st m (check m))
      as (Hsum1 & Hcerts1 & Htotal1 & Hhealth1).
    cbv zeta in *.
    rewrite Hsum, Hcerts, Htotal, Hhealth, Hsum1, Hcerts1, Htotal1, Hhealth1.
    rewrite (omap_cons_app check m ms), length_app, Nat2Z.inj_add.
    rewrite <- app_assoc. repeat split; try done; lia.
Qed.

Lemma length_omap_le {A B} (f : A -> option B) (l : list A) :
  (length (omap f l) <= length l)%nat.
Proof.
  induction l as [|x l IH]; [done|].
  rewrite omap_cons_app, length_app. simpl length at 2.
  destruct (f x); simpl; lia.
Qed.

(** C7, as stated, fails in its last part: in the scan of [sample_vault]
    two PKI mounts are walked, the CA of [pki_int] cannot be fetched, and
    that mount is counted in [total_cas] but in none of the three buckets. *)
Lemma failed_check_is_in_no_bucket : ~ every_scanned_mount_is_counted.
Proof.
  intros H. specialize (H sample_vault sample_clock).
  vm_compute in H. specialize (H eq_refl). discriminate.
Qed.

(** C7, amended: the classification is [days <= 7] critical,
    [7 < days <= 30] warning, otherwise healthy; so 5 and 7 are critical,
    8, 15 and 30 are warning, 31 and 60 are healthy.  A mount whose CA
    check returned a result is counted in the bucket of its class and in no
    other; a mount whose check returned nothing is skipped.  Hence in a
    report of a reachable Vault the three buckets add up to the number of
    entries of [ca_certificates], which is at most [total_cas], the number
    of mounts walked. *)
Theorem expiry_classification :
  (forall days,
     (classify days = Critical <-> days <= 7)
     /\ (classify days = Warning <-> 7 < days <= 30)
     /\ (classify days = Healthy <-> 30 < days))
  /\ (classify 5 = Critical /\ classify 15 = Warning /\ classify 60 = Healthy
      /\ classify 7 = Critical /\ classify 8 = Warning
      /\ classify 30 = Warning /\ classify 31 = Healthy)
  /\ (forall utcnow (rep : report) (k : nat) mount (ca : ca_info),
        let s := stats rep in
        let s' := stats (fst (process_mount utcnow (rep, k) mount (Some ca))) in
        total_cas s' = total_cas s
        /\ match classify (days_until_expiry ca) with
           | Critical =>
               critical_cas s' = critical_cas s + 1
               /\ warning_cas s' = warning_cas s
               /\ healthy_cas s' = healthy_cas s
           | Warning =>
               warning_cas s' = warning_cas s + 1
               /\ critical_cas s' = critical_cas s
               /\ healthy_cas s' = healthy_cas s
           | Healthy =>
               healthy_cas s' = healthy_cas s + 1
               /\ critical_cas s' = critical_cas s
               /\ warning_cas s' = warning_cas s
           end)
  /\ (forall utcnow (st : report * nat) mount,
        process_mount utcnow st mount None = st)
  /\ (forall check (v : vault) utcnow,
        let rep := generate_report_with check v utcnow in
        vault_health rep = true ->
        ca_certificates rep = omap check (get_pki_mounts v)
        /\ bucket_sum (stats rep) = Z.of_nat (length (ca_certificates rep))
        /\ total_cas (stats rep) = Z.of_nat (length (get_pki_mounts v))
        /\ bucket_sum (stats rep) <= total_cas (stats rep)).
Proof.
  split; [apply classify_spec|].
  split; [by vm_compute|].
  split; [apply process_mount_counts|].
  split; [apply process_mount_skips|].
  intros check v utcnow. unfold generate_report_with.
  destruct (check_vault_health v) eqn:Hh; simpl negb; cbv iota;
    [|simpl; discriminate].
  match goal with
  | |- context [scan_mounts ?u ?c ?st ?ms] =>
      pose proof (scan_mounts_counts u c ms st) as Hscan;
      remember (scan_mounts u c st ms) as res
  end.
  cbv zeta in Hscan. destruct Hscan as (Hsum & Hcerts & Htotal & _).
  simpl in Hsum, Hcerts, Htotal. intros _.
  rewrite Hsum, Hcerts, Htotal. unfold bucket_sum. simpl.
  pose proof (length_omap_le check (get_pki_mounts v)).
  repeat split; lia.
Qed.

Lemma expiry_classification_witness :
  let rep := generate_report sample_vault sample_clock in
  map mount (ca_certificates rep) = ["pki"]
  /\ bucket_sum (stats rep) = 1
  /\ total_cas (stats rep) = 2.
Proof.
  destruct expiry_classification as (_ & _ & _ & _ & Hreport).
  destruct (Hreport (check_ca_expiry sample_vault) sample_vault sample_clock
              eq_refl) as (Hcerts & Hsum & Htotal & _).
  cbv zeta. unfold generate_report.
  rewrite Hsum, Htotal, Hcerts. by vm_compute.
Defined.

End MonitorProperties.

(** * Further properties of the embedded code *)

(** ** Sorting *)

Lemma insert_desc_perm {A} (key : A -> Z) (x : A) (l : list A) :
  insert_desc key x l ≡ₚ x :: l.
Proof.
  induction l as [|y l IH]; simpl; [done|].
  destruct (key x <? key y); [|done].
  rewrite IH. apply Permutation_swap.
Qed.

Lemma sort_desc_perm {A} (key : A -> Z) (l : list A) :
  sort_desc key l ≡ₚ l.
Proof.
  induction l as [|x l IH]; simpl; [done|].
  unfold sort_desc in *. simpl. by rewrite insert_desc_perm, IH.
Qed.

Lemma insert_desc_sorted {A} (key : A -> Z) (x : A) (l : list A) :
  descending key l -> descending key (insert_desc key x l).
Proof.
  induction 1 as [|y l Hl IH Hy]; simpl.
  - repeat constructor.
  - destruct (Z.ltb_spec (key x) (key y)).
    + constructor; [done|].
      rewrite insert_desc_perm. constructor; [lia | done].
    + constructor; [by constructor|].
      constructor; [done|].
      eapply Forall_impl; [exact Hy|]. simpl. intros z Hz. lia.
Qed.

Lemma sort_desc_sorted {A} (key : A -> Z) (l : list A) :
  descending key (sort_desc key l).
Proof.
  induction l as [|x l IH]; [constructor|].
  by apply insert_desc_sorted.
Qed.

Lemma descending_take_drop {A} (key : A -> Z) (n m : nat) (l : list A) :
  descending key l -> descending key (take n (drop m l)).
Proof.
  intros Hl.
  apply (StronglySorted_app_1_l _ _ (drop n (drop m l))).
  rewrite take_drop.
  apply (StronglySorted_app_1_r _ (take m l)). by rewrite take_drop.
Qed.

Lemma elem_of_take_drop {A} (n m : nat) (l : list A) (x : A) :
  x ∈ take n (drop m l) -> x ∈ l.
Proof.
  intros H. rewrite <- (take_drop m l). apply elem_of_app. right.
  rewrite <- (take_drop n (drop m l)). apply elem_of_app. by left.
Qed.

(** ** The certificate store: queries and table invariants *)

Module StoreQueries.
Import Database.

Lemma table_after_update (db : Database) now cid sn st reason :
  certificates_table (snd (update_certificate_status db now cid sn st reason))
  = certificates_table db
  \/ exists w,
       certificates_table
         (snd (update_certificate_status db now cid sn st reason))
       = updated now w st reason (certificates_table db).
Proof.
  destruct (pool db) eqn:Hp;
    [|left; by unfold update_certificate_status, acquire; rewrite Hp].
  destruct (choose_where cid sn) as [w|e] eqn:Hw;
    [|left; by unfold update_certificate_status, acquire; rewrite Hp, Hw].
  right. exists w. by apply StoreProperties.update_table.
Qed.

(** An update leaves the number of certificates and, row by row, every
    column other than [status], [revoked_at], [revocation_reason] and
    [updated_at] as they were; unless the requested status is ["revoked"]
    it leaves [revoked_at] and [revocation_reason] alone as well. *)
Theorem update_keeps_other_columns (db : Database) now cid sn st reason :
  let db' := snd (update_certificate_status db now cid sn st reason) in
  length (certificates_table db') = length (certificates_table db)
  /\ forall (i : nat) r r',
       certificates_table db !! i = Some r ->
       certificates_table db' !! i = Some r' ->
       frozen_columns r' = frozen_columns r
       /\ (st <> Some "revoked" ->
           certificates.revoked_at r' = certificates.revoked_at r
           /\ certificates.revocation_reason r'
              = certificates.revocation_reason r).
Proof.
  cbv zeta.
  destruct (table_after_update db now cid sn st reason) as [->|[w ->]].
  - split; [done|]. intros i r r' Hr Hr'. rewrite Hr in Hr'. by injection Hr' as <-.
  - split; [by rewrite length_map|].
    intros i r r' Hr Hr'. rewrite StoreProperties.updated_lookup, Hr in Hr'.
    simpl in Hr'. injection Hr' as <-.
    destruct (matches w r); [|done].
    split; [done|]. intros Hst. unfold apply_set. simpl.
    destruct (opt_str_eqb st (Some "revoked")) eqn:Heq; [|done].
    by apply opt_str_eqb_eq in Heq.
Qed.

Lemma update_keeps_other_columns_witness :
  let db' := snd (update_certificate_status svc_store 20 (Some "cert-1") None
                    (Some "suspended") None) in
  length (certificates_table db') = 1%nat
  /\ map certificates.revoked_at (certificates_table db') = [None].
Proof.
  cbv zeta.
  pose proof (update_keeps_other_columns svc_store 20 (Some "cert-1") None
                (Some "suspended") None) as H.
  cbv zeta in H. destruct H as [Hlen Hcols]. split; [exact Hlen|].
  destruct (certificates_table
              (snd (update_certificate_status svc_store 20 (Some "cert-1")
                      None (Some "suspended") None)))
    as [|r' [|r'' rest]] eqn:Htbl; [discriminate Hlen | | discriminate Hlen].
  destruct (certificates_table svc_store) as [|r0 rest0] eqn:H0;
    [discriminate H0|].
  destruct (Hcols 0%nat r0 r' eq_refl eq_refl) as [_ Hkeep].
  destruct (Hkeep ltac:(discriminate)) as [Hrev _].
  simpl. rewrite Hrev. injection H0 as <- _. reflexivity.
Defined.

Lemma no_row_with_id (rows : list certificates.row) (c : string) :
  existsb (fun r => opt_str_eqb (certificates.certificate_id r) (Some c)) rows
  = false ->
  matching (ByCertificateId c) rows = [].
Proof.
  intros H. apply StoreProperties.matching_nil_iff. intros r Hin.
  destruct (matches (ByCertificateId c) r) eqn:Hm; [|done].
  assert (existsb (fun r => opt_str_eqb (certificates.certificate_id r) (Some c))
                  rows = true) as Ht
    by (apply existsb_exists; by exists r).
  congruence.
Qed.

Section WithDatetime.

Variable fromisoformat : string -> outcome timestamp.
Variable strptime_ymd_hms : string -> outcome timestamp.

Abbreviation store_certificate' := (store_certificate fromisoformat strptime_ymd_hms).
Abbreviation run' := (run fromisoformat strptime_ymd_hms).
Abbreviation step' := (step fromisoformat strptime_ymd_hms).

(** What a successful [store_certificate] has done. *)
Lemma store_success_inv (db db' : Database) now provider cd metadata rid :
  store_certificate' db now provider cd metadata = (Returned rid, db') ->
  pool db = true
  /\ rid = certificates_seq db
  /\ (forall c, cd_certificate_id cd = Some c ->
        matching (ByCertificateId c) (certificates_table db) = [])
  /\ exists r op,
       certificates_table db' = (certificates_table db ++ [r])%list
       /\ certificates_seq db' = certificates_seq db + 1
       /\ operations_table db' = (operations_table db ++ [op])%list
       /\ operations_seq db' = operations_seq db + 1
       /\ pool db' = true
       /\ certificates.id r = rid
       /\ certificates.certificate_id r = cd_certificate_id cd
       /\ certificates.serial_number r = cd_serial_number cd
       /\ Some (certificates.common_name r) = cd_common_name cd
       /\ certificates.ca_provider r = provider
       /\ certificates.status r = default (Some "issued") (cd_status cd)
       /\ certificates.revoked_at r = None
       /\ certificates.created_at r = now
       /\ certificate_operations.id op = operations_seq db
       /\ certificate_operations.certificate_id op = cd_certificate_id cd
       /\ certificate_operations.operation_type op = "issue"
       /\ certificate_operations.operation_data op = IssueData cd
       /\ certificate_operations.performed_at op = now
       /\ certificate_operations.result op = PDict [("success", PBool true)].
Proof.
  unfold store_certificate, acquire, sql_insert.
  destruct (pool db) eqn:Hp; [|discriminate].
  destruct (cd_common_name cd) as [cn|] eqn:Hcn; [|discriminate].
  match goal with |- context [if ?c then _ else _] => destruct c eqn:Hdup end;
    [discriminate|].
  intros [= <- <-]. split; [done|]. split; [done|]. split.
  { intros c Hc. rewrite Hc in Hdup. by apply no_row_with_id. }
  unfold _log_operation.
  match goal with
  | |- context [references_certificate ?d ?c] =>
      assert (references_certificate d c = true) as ->
  end.
  { unfold references_certificate. destruct (cd_certificate_id cd) as [c|]; [|done].
    apply existsb_exists. eexists. split.
    - simpl. apply in_app_iff. right. by left.
    - exact (opt_str_eqb_refl (Some c)). }
  simpl. eexists _, _. repeat split; reflexivity.
Qed.

(** A failed [store_certificate] has done nothing. *)
Lemma store_failure_inv (db db' : Database) now provider cd metadata e :
  store_certificate' db now provider cd metadata = (Raised e, db') ->
  db' = db.
Proof.
  unfold store_certificate, acquire.
  destruct (pool db); [|by intros [= _ <-]].
  destruct (sql_insert _ _ db now provider cd metadata) as [[rid db1]|e1];
    [discriminate | by intros [= _ <-]].
Qed.



End WithDatetime.

Lemma updated_certificate_ids now w st reason (rows : list certificates.row) :
  map certificates.certificate_id (updated now w st reason rows)
  = map certificates.certificate_id rows.
Proof.
  induction rows as [|r rows IH]; [done|].
  simpl. rewrite IH. by destruct (matches w r).
Qed.

Lemma updated_ids now w st reason (rows : list certificates.row) :
  map certificates.id (updated now w st reason rows)
  = map certificates.id rows.
Proof.
  induction rows as [|r rows IH]; [done|].
  simpl. rewrite IH. by destruct (matches w r).
Qed.

Lemma references_spec (db : Database) (cid : option string) :
  references_certificate db cid = true
  <-> match cid with
      | None => True
      | Some _ =>
          In cid (map certificates.certificate_id (certificates_table db))
      end.
Proof.
  unfold references_certificate. destruct cid as [c|]; [|done].
  rewrite existsb_exists, in_map_iff. split.
  - intros (r & Hin & Heq). exists r. by apply opt_str_eqb_eq in Heq.
  - intros (r & Heq & Hin). exists r. split; [done|].
    rewrite Heq. exact (opt_str_eqb_refl (Some c)).
Qed.

Lemma omap_id_map {A B} (f : A -> option B) (l : list A) :
  omap f l = omap id (map f l).
Proof.
  induction l as [|x l IH]; [done|]. csimpl. rewrite IH. by destruct (f x).
Qed.

Section WithDatetime.

Variable fromisoformat : string -> outcome timestamp.
Variable strptime_ymd_hms : string -> outcome timestamp.

Abbreviation run' := (run fromisoformat strptime_ymd_hms).
Abbreviation step' := (step fromisoformat strptime_ymd_hms).

(** What one call does to the two tables and their sequences: it appends
    at most one certificate and at most one operation, each under the next
    key of its sequence, and removes nothing. *)
Lemma step_effect (db : Database) (o : store_op) :
  exists new_rows new_ops,
    map certificates.certificate_id (certificates_table (step' db o))
    = (map certificates.certificate_id (certificates_table db)
       ++ map certificates.certificate_id new_rows)%list
    /\ map certificates.id (certificates_table (step' db o))
       = (map certificates.id (certificates_table db)
          ++ map certificates.id new_rows)%list
    /\ operations_table (step' db o) = (operations_table db ++ new_ops)%list
    /\ (length new_rows <= 1)%nat
    /\ (length new_ops <= 1)%nat
    /\ certificates_seq (step' db o)
       = certificates_seq db + Z.of_nat (length new_rows)
    /\ operations_seq (step' db o)
       = operations_seq db + Z.of_nat (length new_ops)
    /\ Forall (fun r =>
                 certificates.id r = certificates_seq db
                 /\ forall c, certificates.certificate_id r = Some c ->
                      ~ In (Some c) (map certificates.certificate_id
                                         (certificates_table db)))
              new_rows
    /\ Forall (fun op =>
                 certificate_operations.id op = operations_seq db
                 /\ references_certificate (step' db o)
                      (certificate_operations.certificate_id op) = true)
              new_ops.
Proof.
  assert (forall d : Database,
            exists new_rows new_ops : list _,
              map certificates.certificate_id (certificates_table d)
              = (map certificates.certificate_id (certificates_table d)
                 ++ map certificates.certificate_id new_rows)%list
              /\ map certificates.id (certificates_table d)
                 = (map certificates.id (certificates_table d)
                    ++ map certificates.id new_rows)%list
              /\ operations_table d = (operations_table d ++ new_ops)%list
              /\ (length new_rows <= 1)%nat
              /\ (length new_ops <= 1)%nat
              /\ certificates_seq d
                 = certificates_seq d + Z.of_nat (length new_rows)
              /\ operations_seq d
                 = operations_seq d + Z.of_nat (length new_ops)
              /\ Forall (fun r =>
                   certificates.id r = certificates_seq d
                   /\ forall c, certificates.certificate_id r = Some c ->
                        ~ In (Some c) (map certificates.certificate_id
                                           (certificates_table d)))
                   new_rows
              /\ Forall (fun op =>
                   certificate_operations.id op = operations_seq d
                   /\ references_certificate d
                        (certificate_operations.certificate_id op) = true)
                   new_ops) as Hsame.
  { intros d. exists [], []. simpl. rewrite !app_nil_r.
    repeat split; try done; lia. }
  destruct o as [now provider cd metadata | now cid sn st reason]; simpl step.
  - destruct (store_certificate fromisoformat strptime_ymd_hms db now provider
                cd metadata) as [[rid|e] db'] eqn:Hstore.
    + destruct (store_success_inv _ _ _ _ _ _ _ _ _ Hstore)
        as (_ & -> & Hfresh & r & op & Htbl & Hseq & Hops & Hoseq & _ & Hid
            & Hcid & _ & _ & _ & _ & _ & _ & Hoid & Hocid & _).
      exists [r], [op]. simpl snd. rewrite Htbl, Hops, Hseq, Hoseq, !map_app.
      repeat split; try done.
      * constructor; [|done]. split; [done|]. intros c Hc.
        rewrite Hcid in Hc. specialize (Hfresh c Hc). intros Hin.
        apply in_map_iff in Hin as (r0 & Hr0 & Hin0).
        apply StoreProperties.matching_nil_iff with (r := r0) in Hfresh;
          [|done].
        simpl in Hfresh. rewrite Hr0 in Hfresh.
        by rewrite (opt_str_eqb_refl (Some c)) in Hfresh.
      * constructor; [|done]. split; [done|].
        apply references_spec. rewrite Hocid, <- Hcid.
        destruct (certificates.certificate_id r) eqn:Hr; [|done].
        rewrite Htbl, map_app, in_app_iff. right. left. done.
    + rewrite (store_failure_inv _ _ _ _ _ _ _ _ _ Hstore). apply Hsame.
  - destruct (pool db) eqn:Hp;
      [|unfold update_certificate_status, acquire; rewrite Hp; apply Hsame].
    destruct (choose_where cid sn) as [w|e] eqn:Hw;
      [|unfold update_certificate_status, acquire; rewrite Hp, Hw;
        apply Hsame].
    destruct (matching w (certificates_table db)) as [|r rest] eqn:Hf.
    + rewrite (StoreProperties.update_when_no_match db now cid sn st reason w)
        by done.
      apply Hsame.
    + rewrite (StoreProperties.update_when_match db now cid sn st reason w
                 r rest) by done.
      eexists [], [_]. simpl.
      rewrite updated_certificate_ids, updated_ids, !app_nil_r.
      repeat split; try done; try lia.
      constructor; [|done]. split; [done|].
      pose proof (StoreProperties.returned_row_referenced db now w st reason
                    r rest Hf) as Href.
      apply references_spec. apply references_spec in Href. simpl in *.
      destruct (certificates.certificate_id r); [|done].
      by rewrite updated_certificate_ids in *.
Qed.

Lemma step_keeps_unique_ids (db : Database) (o : store_op) :
  unique_certificate_ids db -> unique_certificate_ids (step' db o).
Proof.
  unfold unique_certificate_ids.
  destruct (step_effect db o)
    as (rows & ops & Hcid & _ & _ & Hlen & _ & _ & _ & Hfresh & _).
  rewrite (omap_id_map _ (certificates_table (step' db o))),
    (omap_id_map _ (certificates_table db)), Hcid, omap_app.
  intros Hnodup.
  apply NoDup_app. split; [done|]. split.
  - intros c Hc Hc'.
    apply list_elem_of_omap in Hc as (oc & Hin & Hoc).
    apply list_elem_of_omap in Hc' as (oc' & Hin' & Hoc').
    simpl in *. subst oc oc'.
    apply list_elem_of_fmap in Hin' as (r & Hr & Hin').
    rewrite Forall_forall in Hfresh. destruct (Hfresh r Hin') as [_ Hr'].
    apply (Hr' c); [done|]. by apply list_elem_of_In.
  - destruct rows as [|r [|r' rows]]; simpl in *; [constructor| |lia].
    destruct (certificates.certificate_id r); simpl;
      [apply NoDup_singleton | constructor].
Qed.

Lemma step_keeps_serial_keys (db : Database) (o : store_op) :
  serial_keys_fresh db -> serial_keys_fresh (step' db o).
Proof.
  unfold serial_keys_fresh.
  destruct (step_effect db o)
    as (rows & ops & _ & Hid & Hops & Hlen & Hlen' & Hseq & Hoseq & Hfresh
        & Hofresh).
  intros (Hnd & Hlt & Hond & Holt).
  rewrite List.Forall_forall in Hlt, Holt, Hfresh, Hofresh.
  rewrite Hid, Hops, Hseq, Hoseq, map_app.
  split; [|split; [|split]].
  - apply NoDup_app. split; [done|]. split.
    + intros k Hk Hk'.
      apply list_elem_of_In, in_map_iff in Hk as (r & <- & Hr).
      apply list_elem_of_In, in_map_iff in Hk' as (r' & Heq & Hr').
      specialize (Hlt r Hr). destruct (Hfresh r' Hr') as [Heq' _]. lia.
    + destruct rows as [|r [|r' rows]]; simpl in *;
        [constructor | apply NoDup_singleton | lia].
  - apply List.Forall_forall. intros r Hr.
    assert (In (certificates.id r)
               (map certificates.id (certificates_table (step' db o))))
      as Hin by (by apply in_map).
    rewrite Hid in Hin. apply in_app_iff in Hin as [Hin|Hin];
      apply in_map_iff in Hin as (r0 & Heq & Hr0).
    + specialize (Hlt r0 Hr0). lia.
    + destruct (Hfresh r0 Hr0) as [Heq' _].
      destruct rows; simpl in *; [done|lia].
  - apply NoDup_app. split; [done|]. split.
    + intros k Hk Hk'.
      apply list_elem_of_In, in_map_iff in Hk as (op & <- & Hop).
      apply list_elem_of_In, in_map_iff in Hk' as (op' & Heq & Hop').
      specialize (Holt op Hop). destruct (Hofresh op' Hop') as [Heq' _]. lia.
    + destruct ops as [|op [|op' ops]]; simpl in *;
        [constructor | apply NoDup_singleton | lia].
  - apply List.Forall_forall. intros op Hop.
    apply in_app_iff in Hop as [Hop|Hop].
    + specialize (Holt op Hop). simpl in Holt. lia.
    + destruct (Hofresh op Hop) as [Heq' _].
      destruct ops; simpl in *; [done|lia].
Qed.

(** Keys stay unique: if the non-null [certificate_id]s of a store are
    pairwise distinct and the serial keys of both tables are pairwise
    distinct and below their sequences, the same holds after any sequence
    of [store_certificate] and [update_certificate_status] calls. *)
Theorem keys_stay_unique (ops : list store_op) (db : Database) :
  unique_certificate_ids db ->
  serial_keys_fresh db ->
  unique_certificate_ids (run' db ops) /\ serial_keys_fresh (run' db ops).
Proof.
  revert db. induction ops as [|o ops IH]; intros db Hu Hs; [done|].
  simpl. apply IH.
  - by apply step_keeps_unique_ids.
  - by apply step_keeps_serial_keys.
Qed.

End WithDatetime.

Section WithDatetimeLog.

Variable fromisoformat : string -> outcome timestamp.
Variable strptime_ymd_hms : string -> outcome timestamp.

Abbreviation run' := (run fromisoformat strptime_ymd_hms).
Abbreviation step' := (step fromisoformat strptime_ymd_hms).

Lemma step_keeps_references (db : Database) (o : store_op) :
  operations_reference_certificates db ->
  operations_reference_certificates (step' db o).
Proof.
  unfold operations_reference_certificates.
  destruct (step_effect fromisoformat strptime_ymd_hms db o)
    as (rows & ops & Hcid & _ & Hops & _ & _ & _ & _ & _ & Hofresh).
  intros Hold. rewrite Hops. apply Forall_app. split.
  - eapply Forall_impl; [exact Hold|]. simpl. intros op Hop.
    apply references_spec. apply references_spec in Hop.
    destruct (certificate_operations.certificate_id op); [|done].
    rewrite Hcid. apply in_app_iff. by left.
  - eapply Forall_impl; [exact Hofresh|]. simpl. by intros op [_ ?].
Qed.

(** The operation log only grows: any sequence of [store_certificate] and
    [update_certificate_status] calls keeps the rows already logged, in
    place and unchanged, and adds at most one row per call; and if every
    logged row named an existing certificate (or none) before, every
    logged row does so afterwards. *)
Theorem operation_log_only_grows (ops : list store_op) (db : Database) :
  operations_reference_certificates db ->
  exists added,
    operations_table (run' db ops) = (operations_table db ++ added)%list
    /\ (length added <= length ops)%nat
    /\ operations_reference_certificates (run' db ops).
Proof.
  revert db. induction ops as [|o ops IH]; intros db Hrefs.
  - exists []. simpl. by rewrite app_nil_r.
  - destruct (step_effect fromisoformat strptime_ymd_hms db o)
      as (rows & new & _ & _ & Hops & _ & Hlen & _).
    destruct (IH (step' db o) (step_keeps_references db o Hrefs))
      as (added & Htbl & Hlen' & Hrefs').
    exists (new ++ added)%list. simpl run.
    unfold run in *. simpl fold_left.
    rewrite Htbl, Hops, <- app_assoc, length_app.
    repeat split; [simpl; lia | done].
Qed.

End WithDatetimeLog.

(** *** The inventory query *)

Lemma int64_in_range (x : Z) :
  0 <= x <= INT64_MAX ->
  (x <? - INT64_MAX - 1) || (INT64_MAX <? x) = false.
Proof.
  assert (INT64_MAX = 9223372036854775807) as -> by reflexivity.
  intros [H0 H1]. apply orb_false_iff. split; apply Z.ltb_ge; lia.
Qed.

(** On a connected store, for a limit and an offset that are not negative
    and fit a [bigint], and for filter values the server accepts as text,
    the rows behind the list returned by [get_certificate_inventory] are
    stored certificates that pass both filters (a filter that is [None] or
    empty passes everything), are at most [limit] many, and come with
    [created_at] descending; with offset 0 and a limit not below the
    number of stored certificates they are all the certificates that pass
    the filters. *)
Theorem inventory_is_filtered_sorted_and_bounded
    (isoformat : timestamp -> string) (db : Database)
    (ca_provider status : option string) (limit offset : Z) :
  pool db = true ->
  0 <= limit <= INT64_MAX -> 0 <= offset <= INT64_MAX ->
  sql_text ca_provider = true -> sql_text status = true ->
  exists rows,
    get_certificate_inventory isoformat db ca_provider status limit offset
    = Returned (map (inventory_entry_of isoformat) rows)
    /\ (Z.of_nat (length rows) <= limit)
    /\ Forall (fun r =>
                 In r (certificates_table db)
                 /\ (forall p, ca_provider = Some p -> p <> EmptyString ->
                       certificates.ca_provider r = p)
                 /\ (forall s, status = Some s -> s <> EmptyString ->
                       certificates.status r = Some s))
              rows
    /\ descending certificates.created_at rows
    /\ (offset = 0 ->
        Z.of_nat (length (certificates_table db)) <= limit ->
        rows ≡ₚ filter (fun r => inventory_filter ca_provider status r = true)
                       (certificates_table db)).
Proof.
  intros Hp Hlimit Hoffset _ _.
  unfold get_certificate_inventory, acquire, select_inventory.
  rewrite Hp. unfold bind.
  rewrite (int64_in_range limit Hlimit). simpl orb.
  rewrite (int64_in_range offset Hoffset).
  destruct (Z.ltb_spec offset 0); [lia|].
  destruct (Z.ltb_spec limit 0); [lia|].
  eexists. split; [reflexivity|].
  set (selected := filter _ (certificates_table db)).
  set (sorted := sort_desc certificates.created_at selected).
  split; [|split; [|split]].
  - rewrite length_take. lia.
  - apply List.Forall_forall. intros r Hr.
    apply (proj2 (list_elem_of_In _ _)), elem_of_take_drop in Hr.
    unfold sorted in Hr. rewrite sort_desc_perm in Hr.
    apply list_elem_of_filter in Hr as [Hf Hin].
    split; [by apply list_elem_of_In|].
    unfold inventory_filter in Hf. apply andb_prop in Hf as [Hprov Hstat].
    split.
    + intros p -> Hne. simpl in Hprov.
      destruct (String.eqb_spec p EmptyString); [done|]. simpl in Hprov.
      by apply String.eqb_eq in Hprov.
    + intros st -> Hne. simpl in Hstat.
      destruct (String.eqb_spec st EmptyString); [done|]. simpl in Hstat.
      by apply opt_str_eqb_eq in Hstat.
  - apply descending_take_drop, sort_desc_sorted.
  - intros -> Hall. change (Z.to_nat 0) with 0%nat. rewrite drop_0.
    rewrite take_ge; [apply sort_desc_perm|].
    pose proof (Permutation_length (sort_desc_perm certificates.created_at
                                      selected)) as Hlen.
    pose proof (length_filter
                  (fun r => inventory_filter ca_provider status r = true)
                  (certificates_table db)) as Hfl.
    subst sorted selected. lia.
Qed.

(** *** The operation history query *)

Lemma select_operations_spec (db : Database) (c : string) (limit : Z) :
  0 <= limit <= INT64_MAX ->
  exists rows,
    select_operations db c limit = Returned rows
    /\ Z.of_nat (length rows) <= limit
    /\ (forall o, In o rows ->
          In o (operations_table db)
          /\ certificate_operations.certificate_id o = Some c)
    /\ descending certificate_operations.performed_at rows
    /\ (Z.of_nat (length (operations_table db)) <= limit ->
        rows ≡ₚ logged_for c (operations_table db)).
Proof.
  intros Hlimit. unfold select_operations.
  rewrite (int64_in_range limit Hlimit).
  destruct (Z.ltb_spec limit 0); [lia|].
  eexists. split; [reflexivity|]. split; [|split; [|split]].
  - rewrite length_take. lia.
  - intros o Ho.
    apply (proj2 (list_elem_of_In _ _)) in Ho.
    apply (elem_of_take_drop _ 0%nat) in Ho.
    rewrite sort_desc_perm in Ho.
    apply list_elem_of_filter in Ho as [Hf Hin].
    split; [by apply list_elem_of_In | by apply opt_str_eqb_eq in Hf].
  - apply (descending_take_drop _ _ 0%nat), sort_desc_sorted.
  - intros Hall. rewrite take_ge; [apply sort_desc_perm|].
    pose proof (Permutation_length
                  (sort_desc_perm certificate_operations.performed_at
                     (logged_for c (operations_table db)))) as Hlen.
    pose proof (length_filter
                  (fun o => opt_str_eqb
                              (certificate_operations.certificate_id o)
                              (Some c) = true)
                  (operations_table db)) as Hfl.
    lia.
Qed.

(** On a connected store, for a limit that is not negative and fits a
    [bigint], and for an identifier the server accepts as text, the rows
    behind the list returned by [get_certificate_operations] are logged
    operations of the requested certificate and of no other, at most
    [limit] many, with [performed_at] descending; with a limit not below
    the length of the log they are all operations logged for that
    certificate.  The entries carry the two [JSONB] columns as JSON text. *)
Theorem history_is_filtered_sorted_and_bounded
    (isoformat : timestamp -> string)
    (jsonb_of_request : operation_data -> string)
    (jsonb_of_value : pyval -> string)
    (db : Database) (c : string) (limit : Z) :
  pool db = true -> 0 <= limit <= INT64_MAX -> nul_free c = true ->
  exists rows,
    get_certificate_operations isoformat jsonb_of_request jsonb_of_value
      db c limit
    = Returned (map (operation_entry_of isoformat jsonb_of_request
                       jsonb_of_value) rows)
    /\ Z.of_nat (length rows) <= limit
    /\ (forall o, In o rows ->
          In o (operations_table db)
          /\ certificate_operations.certificate_id o = Some c)
    /\ descending certificate_operations.performed_at rows
    /\ (Z.of_nat (length (operations_table db)) <= limit ->
        rows ≡ₚ logged_for c (operations_table db)).
Proof.
  intros Hp Hlimit _.
  destruct (select_operations_spec db c limit Hlimit) as (rows & Hsel & H).
  exists rows. split; [|done].
  unfold get_certificate_operations, acquire. rewrite Hp. unfold bind.
  by rewrite Hsel.
Qed.


(** *** Closed instances *)



Lemma empty_store_keys : unique_certificate_ids empty_store
                         /\ serial_keys_fresh empty_store
                         /\ operations_reference_certificates empty_store.
Proof. repeat split; constructor. Qed.

Lemma keys_stay_unique_witness :
  unique_certificate_ids (run no_parse no_parse empty_store reinstating_calls)
  /\ serial_keys_fresh (run no_parse no_parse empty_store reinstating_calls).
Proof.
  apply (keys_stay_unique no_parse no_parse reinstating_calls empty_store);
    apply empty_store_keys.
Defined.

Lemma operation_log_only_grows_witness :
  exists added,
    operations_table (run no_parse no_parse empty_store reinstating_calls)
    = (operations_table empty_store ++ added)%list
    /\ (length added <= length reinstating_calls)%nat
    /\ operations_reference_certificates
         (run no_parse no_parse empty_store reinstating_calls).
Proof.
  apply (operation_log_only_grows no_parse no_parse reinstating_calls
           empty_store).
  apply empty_store_keys.
Defined.

Lemma inventory_is_filtered_sorted_and_bounded_witness :
  exists rows,
    get_certificate_inventory (fun t => "t") svc_store (Some "vault")
      (Some EmptyString) 100 0
    = Returned (map (inventory_entry_of (fun t => "t")) rows)
    /\ length rows = 1%nat.
Proof.
  destruct (inventory_is_filtered_sorted_and_bounded (fun t => "t") svc_store
              (Some "vault") (Some EmptyString) 100 0 eq_refl)
    as (rows & Hget & _ & _ & _ & Hall);
    [by vm_compute | by vm_compute | reflexivity | reflexivity |].
  exists rows. split; [exact Hget|].
  rewrite (Permutation_length (Hall eq_refl ltac:(by vm_compute))).
  reflexivity.
Defined.

Lemma history_is_filtered_sorted_and_bounded_witness :
  exists rows,
    get_certificate_operations (fun t => "t") (fun d => "{}") (fun v => "{}")
      revoked_store "cert-1" 50
    = Returned (map (operation_entry_of (fun t => "t") (fun d => "{}")
                       (fun v => "{}")) rows)
    /\ length rows = 2%nat.
Proof.
  destruct (history_is_filtered_sorted_and_bounded (fun t => "t")
              (fun d => "{}") (fun v => "{}") revoked_store "cert-1" 50
              eq_refl)
    as (rows & Hget & _ & _ & _ & Hall); [by vm_compute | reflexivity |].
  exists rows. split; [exact Hget|].
  rewrite (Permutation_length (Hall ltac:(by vm_compute))).
  reflexivity.
Defined.


End StoreQueries.

(** ** Dictionaries *)

Lemma dict_get_set_eq {V} (d : dict V) (k : string) (v : V) :
  dict_get (dict_set d k v) k = Some v.
Proof.
  induction d as [|[k' v'] d IH]; simpl.
  - by rewrite String.eqb_refl.
  - destruct (String.eqb k' k) eqn:Hk; simpl.
    + by rewrite String.eqb_refl.
    + by rewrite Hk.
Qed.

Lemma dict_get_set_ne {V} (d : dict V) (k k0 : string) (v : V) :
  k0 <> k -> dict_get (dict_set d k v) k0 = dict_get d k0.
Proof.
  intros Hne. induction d as [|[k' v'] d IH]; simpl.
  - destruct (String.eqb_spec k k0); [congruence | done].
  - destruct (String.eqb_spec k' k) as [->|Hk]; simpl.
    + destruct (String.eqb_spec k k0); [congruence | done].
    + by rewrite IH.
Qed.

Lemma dict_mem_keys {V} (d : dict V) (k : string) :
  dict_mem d k = true <-> In k (dict_keys d).
Proof.
  unfold dict_mem, dict_keys. induction d as [|[k' v'] d IH]; simpl.
  - split; [discriminate | done].
  - destruct (String.eqb_spec k' k) as [->|Hk].
    + split; [by left | done].
    + rewrite IH. split; [by right | by intros [?|?]].
Qed.

(** Assignment keeps the place of a key that is present and appends a key
    that is not. *)
Lemma dict_keys_set {V} (d : dict V) (k : string) (v : V) :
  dict_keys (dict_set d k v)
  = if dict_mem d k then dict_keys d else (dict_keys d ++ [k])%list.
Proof.
  unfold dict_mem, dict_keys. induction d as [|[k' v'] d IH]; simpl; [done|].
  destruct (String.eqb_spec k' k) as [->|Hk]; simpl; [done|].
  rewrite IH. by destruct (dict_get d k).
Qed.

Lemma dict_set_nodup {V} (d : dict V) (k : string) (v : V) :
  NoDup (dict_keys d) -> NoDup (dict_keys (dict_set d k v)).
Proof.
  intros Hnd. rewrite dict_keys_set.
  destruct (dict_mem d k) eqn:Hm; [done|].
  apply NoDup_app. split; [done|]. split; [|apply NoDup_singleton].
  intros x Hx Hx'. apply list_elem_of_singleton in Hx' as ->.
  apply list_elem_of_In, dict_mem_keys in Hx. congruence.
Qed.

(** ** The tool dispatch engine: registration and invocation *)

Module DispatchRegistry.
Import MCP.

(** Registration decides dispatch: after [register_tool], a call that
    names the tool behaves as on a server that holds this tool alone, so a
    tool registered later under the same name replaces the earlier one, and
    a call that names any other tool behaves as before the registration. *)
Theorem last_registration_wins (srv : MCPServer) (tool : MCPTool)
    now tool_name params :
  (tool_name = name tool ->
   call_tool (register_tool srv tool) now tool_name params
   = call_tool (register_tool (new_server (server_name srv) (session_id srv))
                  tool) now tool_name params)
  /\ (tool_name <> name tool ->
      call_tool (register_tool srv tool) now tool_name params
      = call_tool srv now tool_name params).
Proof.
  split.
  - intros ->. unfold call_tool. simpl tools.
    rewrite dict_get_set_eq. simpl. by rewrite String.eqb_refl.
  - intros Hne. unfold call_tool. simpl tools.
    by rewrite dict_get_set_ne.
Qed.

Lemma last_registration_wins_witness :
  fst (call_tool
         (register_tool sample_server
            (mkTool "ping" "Liveness probe, second version" []
               (fun _ => Returned (Plain (PStr "pong")))))
         "t0" "ping" [])
  = success_envelope "t0" (PStr "pong")
  /\ call_tool
       (register_tool sample_server
          (mkTool "ping" "Liveness probe, second version" []
             (fun _ => Returned (Plain (PStr "pong")))))
       "t0" "issue_certificate" []
     = call_tool sample_server "t0" "issue_certificate" [].
Proof.
  destruct (last_registration_wins sample_server
              (mkTool "ping" "Liveness probe, second version" []
                 (fun _ => Returned (Plain (PStr "pong"))))
              "t0" "ping" []) as [Hsame _].
  destruct (last_registration_wins sample_server
              (mkTool "ping" "Liveness probe, second version" []
                 (fun _ => Returned (Plain (PStr "pong"))))
              "t0" "issue_certificate" []) as [_ Hother].
  split.
  - rewrite (Hsame eq_refl). reflexivity.
  - apply Hother. discriminate.
Defined.

(** The handler runs exactly when the call is valid: [call_tool] invokes
    the handler once, with the parameters as given, if the tool is
    registered and every declared parameter whose [required] flag holds is
    present; in every other case it invokes nothing. *)
Theorem handler_runs_iff_call_is_valid (srv : MCPServer) now tool_name params :
  let valid :=
    exists tool,
      dict_get (tools srv) tool_name = Some tool
      /\ forall p def, In (p, def) (parameters tool) ->
           required_flag def = true -> dict_mem params p = true in
  (valid -> snd (call_tool srv now tool_name params) = [(tool_name, params)])
  /\ (~ valid -> snd (call_tool srv now tool_name params) = []).
Proof.
  cbv zeta. unfold call_tool.
  destruct (dict_get (tools srv) tool_name) as [tool|] eqn:Htool.
  - destruct (missing_params tool params) as [|p ps] eqn:Hmiss.
    + split; [done|]. intros Hinvalid. exfalso. apply Hinvalid.
      exists tool. split; [done|]. intros p def Hin Hreq.
      destruct (dict_mem params p) eqn:Hmem; [done|].
      assert (In p (missing_params tool params)) as Hp
        by (apply DispatchProperties.in_missing_params; by exists def).
      by rewrite Hmiss in Hp.
    + split; [|done]. intros (tool' & [= <-] & Hall).
      assert (In p (missing_params tool params)) as Hp
        by (rewrite Hmiss; by left).
      apply DispatchProperties.in_missing_params in Hp
        as (def & Hin & Habs & Hreq).
      rewrite (Hall p def Hin Hreq) in Habs. discriminate.
  - split; [by intros (tool & [=] & _) | done].
Qed.

Lemma handler_runs_iff_call_is_valid_witness :
  snd (call_tool sample_server "t0" "issue_certificate"
         [("common_name", PStr "svc.internal"); ("ttl", PStr "24h");
          ("unknown", PInt 1)])
  = [("issue_certificate",
      [("common_name", PStr "svc.internal"); ("ttl", PStr "24h");
       ("unknown", PInt 1)])]
  /\ snd (call_tool sample_server "t0" "issue_certificate" []) = [].
Proof.
  destruct (handler_runs_iff_call_is_valid sample_server "t0"
              "issue_certificate"
              [("common_name", PStr "svc.internal"); ("ttl", PStr "24h");
               ("unknown", PInt 1)]) as [Hvalid _].
  destruct (handler_runs_iff_call_is_valid sample_server "t0"
              "issue_certificate" []) as [_ Hinvalid].
  split.
  - apply Hvalid. exists issue_certificate_tool. split; [reflexivity|].
    intros p def [[= <- <-]|[[= <- <-]|[[= <- <-]|[]]]] Hreq;
      try reflexivity. discriminate.
  - apply Hinvalid. intros (tool & [= <-] & Hall).
    specialize (Hall "common_name" _ (or_introl eq_refl) eq_refl).
    discriminate.
Defined.

Lemma dict_set_in {V} (d : dict V) (k : string) (v : V) k0 v0 :
  In (k0, v0) (dict_set d k v) -> (k0 = k /\ v0 = v) \/ In (k0, v0) d.
Proof.
  induction d as [|[k' v'] d IH]; simpl.
  - intros [[= <- <-]|[]]. by left.
  - destruct (String.eqb_spec k' k) as [->|Hk]; simpl.
    + intros [[= <- <-]|Hin]; [by left | right; by right].
    + intros [[= <- <-]|Hin]; [right; by left|].
      destruct (IH Hin) as [?|?]; [by left | right; by right].
Qed.

Lemma register_all_invariant (l : list MCPTool) (srv : MCPServer) :
  keyed_by_name srv -> NoDup (dict_keys (tools srv)) ->
  keyed_by_name (register_all srv l)
  /\ NoDup (dict_keys (tools (register_all srv l)))
  /\ forall n, In n (dict_keys (tools (register_all srv l)))
               <-> In n (dict_keys (tools srv)) \/ In n (map name l).
Proof.
  revert srv. induction l as [|t l IH]; intros srv Hkey Hnd.
  - simpl. split; [done|]. split; [done|]. intros n. tauto.
  - simpl. destruct (IH (register_tool srv t)) as (Hk & Hn & Hin).
    + intros k t0 H. apply dict_set_in in H as [[-> ->]|H]; [done|].
      by apply Hkey.
    + by apply dict_set_nodup.
    + split; [done|]. split; [done|]. intros n. rewrite Hin.
      simpl tools. rewrite dict_keys_set.
      destruct (dict_mem (tools srv) (name t)) eqn:Hm.
      * apply dict_mem_keys in Hm. split; [tauto|].
        intros [H|[H|H]]; [tauto | subst n; tauto | tauto].
      * rewrite in_app_iff. simpl. tauto.
Qed.

Lemma listed_names_keys (srv : MCPServer) :
  keyed_by_name srv ->
  listed_names srv = map PStr (dict_keys (tools srv)).
Proof.
  unfold listed_names, list_tools, keyed_by_name, dict_keys. simpl.
  induction (tools srv) as [|[k t] d IH]; intros Hkey; [done|].
  simpl. rewrite (Hkey k t (or_introl eq_refl)). f_equal.
  apply IH. intros k' t' H. apply Hkey. by right.
Qed.

Lemma find_over_app {A} (f : A -> bool) (l k : list A) :
  find f (l ++ k)
  = match find f l with Some x => Some x | None => find f k end.
Proof.
  induction l as [|x l IH]; [done|]. simpl. by destruct (f x).
Qed.

Lemma register_all_lookup (l : list MCPTool) (srv : MCPServer) (n : string) :
  dict_get (tools (register_all srv l)) n
  = match find (fun t => String.eqb (name t) n) (rev l) with
    | Some t => Some t
    | None => dict_get (tools srv) n
    end.
Proof.
  revert srv. induction l as [|t l IH]; intros srv; [done|].
  simpl register_all. rewrite IH. simpl rev. rewrite find_over_app.
  destruct (find _ (rev l)); [done|]. simpl.
  destruct (String.eqb_spec (name t) n) as [<-|Hne].
  - apply dict_get_set_eq.
  - apply dict_get_set_ne. congruence.
Qed.

(** [list_tools] mirrors the registrations: on a server built from a new
    one by any sequence of [register_tool] calls, the names listed are
    pairwise distinct and are exactly the names of the tools registered,
    and the tool a name is dispatched to is the last one registered under
    that name. *)
Theorem list_tools_mirrors_registrations
    (server_name session_id : string) (l : list MCPTool) :
  let srv := register_all (new_server server_name session_id) l in
  NoDup (listed_names srv)
  /\ (forall n, In (PStr n) (listed_names srv) <-> In n (map name l))
  /\ forall n,
       dict_get (tools srv) n
       = find (fun t => String.eqb (name t) n) (rev l).
Proof.
  cbv zeta.
  destruct (register_all_invariant l (new_server server_name session_id))
    as (Hkey & Hnd & Hin); [by intros k t [] | constructor |].
  rewrite (listed_names_keys _ Hkey).
  split; [|split].
  - assert (Inj eq eq PStr) by (by intros a b [=]).
    by apply (NoDup_fmap_2 PStr).
  - intros n. rewrite in_map_iff. split.
    + intros (m & [= ->] & Hm). apply Hin in Hm as [[]|Hm]. done.
    + intros Hn. exists n. split; [done|]. apply Hin. by right.
  - intros n. rewrite register_all_lookup.
    by destruct (find _ (rev l)).
Qed.

Lemma list_tools_mirrors_registrations_witness :
  listed_names
    (register_all (new_server "pki" "s-1")
       [mkTool "ping" "Liveness probe" [] (fun _ => Returned (Plain PNone));
        mkTool "echo" "Echo" [] (fun _ => Returned (Plain PNone));
        mkTool "ping" "Liveness probe, second version" []
          (fun _ => Returned (Plain (PStr "pong")))])
  = [PStr "ping"; PStr "echo"]
  /\ In (PStr "echo")
        (listed_names
           (register_all (new_server "pki" "s-1")
              [mkTool "ping" "Liveness probe" []
                 (fun _ => Returned (Plain PNone));
               mkTool "echo" "Echo" [] (fun _ => Returned (Plain PNone));
               mkTool "ping" "Liveness probe, second version" []
                 (fun _ => Returned (Plain (PStr "pong")))])).
Proof.
  split; [reflexivity|].
  pose proof (list_tools_mirrors_registrations "pki" "s-1"
                [mkTool "ping" "Liveness probe" []
                   (fun _ => Returned (Plain PNone));
                 mkTool "echo" "Echo" [] (fun _ => Returned (Plain PNone));
                 mkTool "ping" "Liveness probe, second version" []
                   (fun _ => Returned (Plain (PStr "pong")))]) as H.
  cbv zeta in H. destruct H as (_ & Hnames & _).
  apply Hnames. right. by left.
Defined.

End DispatchRegistry.

(** ** The cache layer: writing, reading back, deleting *)

Lemma append_inj_l (p a b : string) : p ++ a = p ++ b -> a = b.
Proof.
  induction p as [|x p IH]; [done|].
  intros H. apply IH.
  change (String x (p ++ a) = String x (p ++ b)) in H. congruence.
Qed.

Module CacheWrites.
Import RedisCache.

Lemma make_key_inj (c : RedisCache) (k k' : string) :
  _make_key c k = _make_key c k' -> k = k'.
Proof.
  unfold _make_key. intros H.
  apply append_inj_l in H. by apply (append_inj_l ":") in H.
Qed.

Lemma make_key_with_client (c : RedisCache) cl k :
  _make_key (with_client c cl) k = _make_key c k.
Proof. reflexivity. Qed.

Section WithJson.

Variable json_loads : string -> outcome pyval.
Variable json_dumps : pyval -> outcome string.

(** What [get] returns for a key that holds a given text. *)
Lemma get_stored_text (c : RedisCache) keyspace key text :
  redis c = Connected keyspace ->
  keyspace !! _make_key c key = Some (RString text) ->
  get json_loads c key
  = match json_loads text with
    | Returned v => v
    | Raised (Exn JSONDecodeError _) => PStr text
    | Raised _ => PNone
    end.
Proof.
  intros Hc Hk. unfold get. rewrite Hc. simpl. rewrite Hk. simpl.
  destruct (json_loads text) as [v|[[] msg]]; reflexivity.
Qed.

(** The keyspace seen by [get] through another key is what decides its
    result. *)
Lemma get_same_entry (c c' : RedisCache) ks ks' key :
  key_prefix c' = key_prefix c ->
  redis c = Connected ks -> redis c' = Connected ks' ->
  ks' !! _make_key c key = ks !! _make_key c key ->
  get json_loads c' key = get json_loads c key.
Proof.
  intros Hpre Hc Hc' Hk. unfold get, _make_key in *.
  rewrite Hpre, Hc, Hc'. simpl. by rewrite Hk.
Qed.

(** What a successful, non-expiring [set] does to a connected cache. *)
Lemma set_connected (c : RedisCache) keyspace key value text ttl :
  redis c = Connected keyspace ->
  ttl = None \/ ttl = Some 0 ->
  match value with PStr s => Returned s | _ => json_dumps value end
    = Returned text ->
  set_ json_dumps c key value ttl
  = (true,
     with_client c (Connected (<[_make_key c key := RString text]> keyspace))).
Proof.
  intros Hc Httl Htext. unfold set_. rewrite Htext, Hc.
  by destruct Httl as [-> | ->].
Qed.

(** Reading back a structured value: on a connected cache, a [set]
    without expiry of a value that is not a string returns [True], and a
    following [get] of the same key returns the value again, provided the
    decoder inverts the encoder on it; every other key reads as before. *)
Theorem set_then_get_returns_value
    (c : RedisCache) keyspace key value text ttl :
  redis c = Connected keyspace ->
  ttl = None \/ ttl = Some 0 ->
  (forall s, value <> PStr s) ->
  json_dumps value = Returned text ->
  json_loads text = Returned value ->
  exists c',
    set_ json_dumps c key value ttl = (true, c')
    /\ get json_loads c' key = value
    /\ forall key', key' <> key ->
         get json_loads c' key' = get json_loads c key'.
Proof.
  intros Hc Httl Hns Hd Hl.
  eexists. split; [|split].
  - apply (set_connected c keyspace key value text ttl Hc Httl).
    destruct value; try done. by destruct (Hns s).
  - erewrite (get_stored_text _ _ key text); [by rewrite Hl | reflexivity |].
    rewrite make_key_with_client. apply lookup_insert_eq.
  - intros key' Hne.
    eapply (get_same_entry c _ keyspace _ key'); [done | done | reflexivity |].
    apply lookup_insert_ne. intros Heq. by apply make_key_inj in Heq.
Qed.

(** Strings are decoded on the way back: after a [set] without expiry of
    a string, [get] returns what the decoder makes of that string; only a
    string the decoder rejects with [JSONDecodeError] comes back as the
    string itself. *)
Theorem stored_string_is_decoded_on_read (c : RedisCache) keyspace key s ttl :
  redis c = Connected keyspace ->
  ttl = None \/ ttl = Some 0 ->
  exists c',
    set_ json_dumps c key (PStr s) ttl = (true, c')
    /\ (forall v, json_loads s = Returned v -> get json_loads c' key = v)
    /\ (forall msg, json_loads s = Raised (Exn JSONDecodeError msg) ->
          get json_loads c' key = PStr s).
Proof.
  intros Hc Httl. eexists. split; [|split].
  - by apply (set_connected c keyspace key (PStr s) s ttl Hc Httl).
  - intros v Hv.
    erewrite (get_stored_text _ _ key s); [by rewrite Hv | reflexivity |].
    rewrite make_key_with_client. apply lookup_insert_eq.
  - intros msg Hv.
    erewrite (get_stored_text _ _ key s); [by rewrite Hv | reflexivity |].
    rewrite make_key_with_client. apply lookup_insert_eq.
Qed.

(** A [set] that fails changes nothing: when there is no reachable server,
    when the time to live is negative, or when the encoder raises, [set]
    returns [False] and the cache is as before. *)
Theorem failed_set_changes_nothing (c : RedisCache) key value ttl :
  (redis c = NotConnected \/ redis c = Unreachable
   \/ (exists t, ttl = Some t /\ t < 0)
   \/ (exists e, (forall s, value <> PStr s) /\ json_dumps value = Raised e)) ->
  set_ json_dumps c key value ttl = (false, c).
Proof.
  unfold set_.
  intros [Hc|[Hc|[(t & -> & Ht)|(e & Hns & He)]]].
  - rewrite Hc.
    destruct (match value with PStr s => Returned s | _ => json_dumps value end);
      [|done].
    simpl. by destruct ttl as [t|]; [destruct (t =? 0)|].
  - rewrite Hc.
    destruct (match value with PStr s => Returned s | _ => json_dumps value end);
      [|done].
    simpl. by destruct ttl as [t|]; [destruct (t =? 0)|].
  - destruct (match value with PStr s => Returned s | _ => json_dumps value end);
      [|done].
    simpl. destruct (Z.eqb_spec t 0); [lia|].
    destruct (redis c); try done. simpl.
    destruct (Z.leb_spec t 0); [done | lia].
  - destruct value; try (by rewrite He). by destruct (Hns s).
Qed.

End WithJson.

(** Deleting: on a connected cache [delete] returns [True] exactly when
    the key held something; afterwards [get] returns [None] for it and
    [exists] returns [False], and every other key reads as before. *)
Theorem delete_then_get_returns_none
    (json_loads : string -> outcome pyval) (c : RedisCache) keyspace key :
  redis c = Connected keyspace ->
  exists c',
    delete_ c key = (bool_decide (is_Some (keyspace !! _make_key c key)), c')
    /\ get json_loads c' key = PNone
    /\ exists_ c' key = false
    /\ forall key', key' <> key ->
         get json_loads c' key' = get json_loads c key'.
Proof.
  intros Hc. eexists. split; [|split; [|split]].
  - unfold delete_. rewrite Hc. simpl.
    destruct (keyspace !! _make_key c key) as [v|]; reflexivity.
  - unfold get. simpl. by rewrite lookup_delete_eq.
  - unfold exists_. simpl. by rewrite lookup_delete_eq.
  - intros key' Hne.
    eapply (get_same_entry json_loads c _ keyspace _ key');
      [done | done | reflexivity |].
    apply lookup_delete_ne. intros Heq. by apply make_key_inj in Heq.
Qed.

Lemma set_then_get_returns_value_witness :
  exists c',
    set_ tiny_dumps sample_cache "ready" (PBool true) None = (true, c')
    /\ get tiny_loads c' "ready" = PBool true
    /\ forall key', key' <> "ready" ->
         get tiny_loads c' key' = get tiny_loads sample_cache key'.
Proof.
  eapply (set_then_get_returns_value tiny_loads tiny_dumps sample_cache _
            "ready" (PBool true) "true" None).
  - reflexivity.
  - by left.
  - discriminate.
  - reflexivity.
  - reflexivity.
Defined.

Lemma stored_string_is_decoded_on_read_witness :
  exists c',
    set_ tiny_dumps sample_cache "answer" (PStr "true") None = (true, c')
    /\ get tiny_loads c' "answer" = PBool true.
Proof.
  destruct (stored_string_is_decoded_on_read tiny_loads tiny_dumps
              sample_cache _ "answer" "true" None eq_refl (or_introl eq_refl))
    as (c' & Hset & Hdec & _).
  exists c'. split; [exact Hset|]. by apply Hdec.
Defined.

Lemma failed_set_changes_nothing_witness :
  set_ tiny_dumps sample_cache "flag" (PBool false) (Some (-5))
  = (false, sample_cache)
  /\ set_ tiny_dumps down_cache "flag" (PBool false) None
     = (false, down_cache).
Proof.
  split.
  - apply failed_set_changes_nothing. right. right. left.
    exists (-5). split; [reflexivity | lia].
  - apply failed_set_changes_nothing. right. by left.
Defined.

Lemma delete_then_get_returns_none_witness :
  exists c',
    fst (delete_ sample_cache "legacy") = true
    /\ delete_ sample_cache "legacy" = (true, c')
    /\ get tiny_loads c' "legacy" = PNone
    /\ get tiny_loads c' "flag" = PBool true.
Proof.
  destruct (delete_then_get_returns_none tiny_loads sample_cache _ "legacy"
              eq_refl) as (c' & Hdel & Hget & _ & Hother).
  exists c'. rewrite Hdel. split; [reflexivity|]. split; [reflexivity|].
  split; [exact Hget|]. rewrite Hother; [reflexivity | discriminate].
Defined.

End CacheWrites.

(** ** The expiry monitor: mounts, alerts and the webhook *)

Module MonitorAlerts.
Import CertificateMonitor.

(** *** Mount names *)

Lemma rstrip_slash_decompose (s : string) :
  exists k, s = rstrip_slash s ++ slashes k.
Proof.
  induction s as [|c s [k IH]]; [by exists 0%nat|].
  simpl. destruct (Ascii.eqb_spec c "/"%char) as [->|Hc]; simpl.
  - destruct (String.eqb_spec (rstrip_slash s) EmptyString) as [He|He].
    + exists (S k). rewrite He in IH.
      change (EmptyString ++ slashes k) with (slashes k) in IH.
      change (String "/" s = String "/" (slashes k)). by rewrite <- IH.
    + exists k. change (String "/" s = String "/" (rstrip_slash s ++ slashes k)).
      by rewrite <- IH.
  - exists k. change (String c s = String c (rstrip_slash s ++ slashes k)).
    by rewrite <- IH.
Qed.

Lemma rstrip_slash_no_trailing (s : string) :
  ends_with_slash (rstrip_slash s) = false.
Proof.
  induction s as [|c s IH]; [done|]. simpl.
  destruct (Ascii.eqb_spec c "/"%char) as [->|Hc]; simpl.
  - destruct (String.eqb_spec (rstrip_slash s) EmptyString) as [He|He];
      [done|].
    simpl. destruct (rstrip_slash s); [done | exact IH].
  - destruct (rstrip_slash s) eqn:Hr; simpl.
    + by apply Ascii.eqb_neq.
    + exact IH.
Qed.

Lemma pki_mounts_loop (items : dict (dict pyval)) (acc : list string) :
  fold_left
    (fun (pki_mounts : list string) (item : string * dict pyval) =>
       let (mount, config) := item in
       if is_pki config then (pki_mounts ++ [rstrip_slash mount])%list
       else pki_mounts)
    items acc
  = (acc ++ map (fun item => rstrip_slash (fst item))
              (List.filter (fun item => is_pki (snd item)) items))%list.
Proof.
  revert acc. induction items as [|[m cfg] items IH]; intros acc; simpl.
  - by rewrite app_nil_r.
  - rewrite IH. destruct (is_pki cfg); simpl; [|done].
    by rewrite <- app_assoc.
Qed.

(** [get_pki_mounts] returns, in the order of the answer, the names of
    the mounts whose [type] is ["pki"] and of no other mount, each without
    its trailing slashes (the listed name followed by slashes is the mount
    key), so no returned name ends in a slash; when the request fails it
    returns the empty list. *)
Theorem pki_mounts_are_stripped (v : vault) :
  (forall data, sys_mounts v = Returned data ->
     get_pki_mounts v
     = map (fun item => rstrip_slash (fst item))
           (List.filter (fun item => is_pki (snd item)) (default [] data))
     /\ forall m, In m (get_pki_mounts v) ->
          ends_with_slash m = false
          /\ exists k config,
               In ((m ++ slashes k)%string, config) (default [] data)
               /\ dict_get config "type" = Some (PStr "pki"))
  /\ (forall e, sys_mounts v = Raised e -> get_pki_mounts v = []).
Proof.
  split.
  - intros data Hdata.
    assert (get_pki_mounts v
            = map (fun item => rstrip_slash (fst item))
                  (List.filter (fun item => is_pki (snd item))
                               (default [] data))) as Heq.
    { unfold get_pki_mounts. rewrite Hdata. simpl.
      by rewrite pki_mounts_loop. }
    split; [done|]. rewrite Heq. intros m Hm.
    apply in_map_iff in Hm as ([key config] & <- & Hin).
    apply filter_In in Hin as [Hin Hpki]. simpl in *.
    split; [apply rstrip_slash_no_trailing|].
    destruct (rstrip_slash_decompose key) as [k Hk].
    exists k, config. rewrite <- Hk. split; [done|].
    unfold is_pki in Hpki.
    destruct (dict_get config "type") as [[]|]; try discriminate.
    by apply String.eqb_eq in Hpki as ->.
  - intros e He. unfold get_pki_mounts. by rewrite He.
Qed.

Lemma pki_mounts_are_stripped_witness :
  get_pki_mounts sample_vault = ["pki"; "pki_int"]
  /\ forall m, In m (get_pki_mounts sample_vault) -> ends_with_slash m = false.
Proof.
  destruct (pki_mounts_are_stripped sample_vault) as [Hok _].
  destruct (Hok _ eq_refl) as [Heq Hall].
  split; [rewrite Heq; reflexivity|].
  intros m Hm. by destruct (Hall m Hm).
Defined.

(** *** Alerts and counters *)

Abbreviation leveled :=
  (fun a : dict pyval => exists s, dict_get a "level" = Some (PStr s)).

Lemma filter_app_length {A} (f : A -> bool) (l : list A) (x : A) :
  length (List.filter f (l ++ [x]))
  = (length (List.filter f l) + (if f x then 1 else 0))%nat.
Proof.
  rewrite List.filter_app, length_app. simpl. by destruct (f x).
Qed.

Lemma process_mount_alerts utcnow (st : report * nat) mount info :
  Forall leveled (alerts (fst st)) ->
  alerts_track_counters (fst st) (fst (process_mount utcnow st mount info))
  /\ Forall leveled (alerts (fst (process_mount utcnow st mount info))).
Proof.
  destruct st as [rep k]. intros Hlev. unfold alerts_track_counters.
  destruct info as [ca|]; simpl; [|done].
  destruct (days_until_expiry ca <=? critical_days);
    [|destruct (days_until_expiry ca <=? warning_days)]; simpl.
  - rewrite !filter_app_length, length_app. simpl.
    split; [lia|]. apply Forall_app. split; [done|].
    constructor; [by eexists | done].
  - rewrite !filter_app_length, length_app. simpl.
    split; [lia|]. apply Forall_app. split; [done|].
    constructor; [by eexists | done].
  - done.
Qed.

Lemma scan_mounts_alerts utcnow check (pki_mounts : list string)
    (st : report * nat) :
  Forall leveled (alerts (fst st)) ->
  alerts_track_counters (fst st)
    (fst (scan_mounts utcnow check st pki_mounts))
  /\ Forall leveled (alerts (fst (scan_mounts utcnow check st pki_mounts))).
Proof.
  revert st. induction pki_mounts as [|m ms IH]; intros st Hlev.
  - split; [by unfold alerts_track_counters | done].
  - unfold scan_mounts in *. simpl fold_left.
    destruct (process_mount_alerts utcnow st m (check m) Hlev)
      as [Htrack Hlev'].
    destruct (IH _ Hlev') as [Htrack' Hlev''].
    split; [|done]. unfold alerts_track_counters in *. lia.
Qed.

Lemma alerts_of_level_filter (level : string) (l : list (dict pyval)) :
  Forall leveled l ->
  alerts_of_level level l = Returned (List.filter (has_level level) l).
Proof.
  induction 1 as [|a l [s Hs] Hl IH]; [done|].
  simpl. unfold level_is, has_level. rewrite Hs, IH. simpl.
  by destruct (String.eqb s level).
Qed.

(** What [send_alerts] posts for a report whose alerts all carry a level:
    one request with the two counts when the webhook is configured and an
    alert of level critical or warning exists, nothing otherwise. *)
Lemma send_alerts_leveled (alert_webhook : option string) (rep : report) :
  Forall leveled (alerts rep) ->
  send_alerts alert_webhook rep
  = if truthy_str alert_webhook
       && (0 <? length (List.filter (has_level "critical") (alerts rep))
                + length (List.filter (has_level "warning") (alerts rep)))%nat
    then [{| post_url := default EmptyString alert_webhook;
             post_text :=
               alert_text
                 (length (List.filter (has_level "critical") (alerts rep)))
                 (length (List.filter (has_level "warning") (alerts rep)));
             post_report := rep |}]
    else [].
Proof.
  intros Hlev. unfold send_alerts.
  destruct (truthy_str alert_webhook); simpl; [|done].
  destruct (alerts rep) as [|a l] eqn:Ha; [done|].
  rewrite <- Ha in *. rewrite !alerts_of_level_filter by done. simpl.
  destruct (List.filter (has_level "critical") (alerts rep)) as [|c cs];
    destruct (List.filter (has_level "warning") (alerts rep)) as [|w ws];
    simpl; done.
Qed.

(** In the report of a reachable Vault, for any way of checking a mount,
    the alerts of level critical and warning are as many as [critical_cas]
    and [warning_cas], and there are no other alerts; [send_alerts] posts
    one request that states the two counts when a webhook is configured and
    at least one CA is critical or warning, and posts nothing otherwise. *)
Theorem alerts_match_counters
    (check : string -> option ca_info) (v : vault) (utcnow : nat -> string)
    (alert_webhook : option string) :
  check_vault_health v = true ->
  let rep := generate_report_with check v utcnow in
  let critical := length (List.filter (has_level "critical") (alerts rep)) in
  let warning := length (List.filter (has_level "warning") (alerts rep)) in
  Z.of_nat critical = critical_cas (stats rep)
  /\ Z.of_nat warning = warning_cas (stats rep)
  /\ length (alerts rep) = (critical + warning)%nat
  /\ send_alerts alert_webhook rep
     = if truthy_str alert_webhook && (0 <? critical + warning)%nat
       then [{| post_url := default EmptyString alert_webhook;
                post_text := alert_text critical warning;
                post_report := rep |}]
       else [].
Proof.
  intros Hh. cbv zeta.
  assert (alerts_track_counters
            {| timestamp := utcnow 0%nat; vault_health := true;
               ca_certificates := []; alerts := [];
               stats := {| total_cas := Z.of_nat (length (get_pki_mounts v));
                           healthy_cas := 0; warning_cas := 0;
                           critical_cas := 0 |} |}
            (generate_report_with check v utcnow)
          /\ Forall leveled (alerts (generate_report_with check v utcnow)))
    as [Htrack Hlev].
  { unfold generate_report_with. rewrite Hh. simpl negb. cbv iota.
    match goal with
    | |- context [scan_mounts ?u ?c ?st ?ms] =>
        apply (scan_mounts_alerts u c ms st)
    end.
    constructor. }
  unfold alerts_track_counters in Htrack. simpl in Htrack.
  split; [lia|]. split; [lia|]. split; [lia|].
  by apply send_alerts_leveled.
Qed.

Lemma alerts_match_counters_witness :
  let rep := generate_report_with
               (fun m => Some {| mount := m; expires_at := "2025-01-20";
                                 days_until_expiry := 5; status := "critical" |})
               sample_vault sample_clock in
  critical_cas (stats rep) = 2
  /\ List.map post_text (send_alerts (Some "https://hooks.example/pki") rep)
     = ["PKI Certificate Alert - 2 critical, 0 warning"].
Proof.
  cbv zeta.
  destruct (alerts_match_counters
              (fun m => Some {| mount := m; expires_at := "2025-01-20";
                                days_until_expiry := 5; status := "critical" |})
              sample_vault sample_clock (Some "https://hooks.example/pki")
              eq_refl) as (Hc & _ & _ & Hsend).
  split; [rewrite <- Hc; reflexivity|].
  rewrite Hsend. reflexivity.
Defined.

(** An unreachable Vault is reported once: whatever the mounts are, the
    report has [vault_health] false, no CA entries, all statistics zero and
    one alert, and [send_alerts] posts one request, with the text for one
    critical alert, if a webhook is configured and none otherwise. *)
Theorem unreachable_vault_is_reported_once
    (check : string -> option ca_info) (v : vault) (utcnow : nat -> string) :
  check_vault_health v = false ->
  let rep := generate_report_with check v utcnow in
  vault_health rep = false
  /\ ca_certificates rep = []
  /\ stats rep = {| total_cas := 0; healthy_cas := 0;
                    warning_cas := 0; critical_cas := 0 |}
  /\ length (alerts rep) = 1%nat
  /\ (forall url, url <> EmptyString ->
        send_alerts (Some url) rep
        = [{| post_url := url;
              post_text := "PKI Certificate Alert - 1 critical, 0 warning";
              post_report := rep |}])
  /\ send_alerts None rep = []
  /\ send_alerts (Some EmptyString) rep = [].
Proof.
  intros Hh. unfold generate_report_with. rewrite Hh. simpl.
  repeat split; try reflexivity.
  intros url Hurl. unfold send_alerts. simpl.
  destruct (String.eqb_spec url EmptyString); [done|]. reflexivity.
Qed.

Lemma unreachable_vault_is_reported_once_witness :
  List.map post_text
    (send_alerts (Some "https://hooks.example/pki")
       (generate_report unreachable_vault sample_clock))
  = ["PKI Certificate Alert - 1 critical, 0 warning"].
Proof.
  destruct (unreachable_vault_is_reported_once
              (check_ca_expiry unreachable_vault) unreachable_vault
              sample_clock eq_refl) as (_ & _ & _ & _ & Hpost & _).
  unfold generate_report. rewrite Hpost; [reflexivity | discriminate].
Defined.

Lemma scan_without_findings utcnow check (pki_mounts : list string)
    (st : report * nat) :
  (forall m ca, check m = Some ca -> 30 < days_until_expiry ca) ->
  let st' := scan_mounts utcnow check st pki_mounts in
  alerts (fst st') = alerts (fst st)
  /\ critical_cas (stats (fst st')) = critical_cas (stats (fst st))
  /\ warning_cas (stats (fst st')) = warning_cas (stats (fst st)).
Proof.
  intros Hlate. revert st. induction pki_mounts as [|m ms IH]; intros st.
  - done.
  - unfold scan_mounts in *. simpl fold_left. cbv zeta in *.
    destruct (IH (process_mount utcnow st m (check m))) as (Ha & Hc & Hw).
    rewrite Ha, Hc, Hw. destruct st as [rep k].
    destruct (check m) as [ca|] eqn:Hm; [|done].
    specialize (Hlate m ca Hm). unfold process_mount.
    unfold critical_days, warning_days.
    destruct (Z.leb_spec (days_until_expiry ca) 7); [lia|].
    destruct (Z.leb_spec (days_until_expiry ca) 30); [lia|]. done.
Qed.

(** With [check_ca_expiry] as the source has it, the monitor never finds
    an expiring CA: in the report of a reachable Vault every CA entry has
    350 days left, there is no alert, [warning_cas] and [critical_cas] are
    0, [healthy_cas] counts the mounts whose CA could be fetched, and
    [send_alerts] posts nothing. *)
Theorem fixed_expiry_figures_never_alert
    (v : vault) (utcnow : nat -> string) (alert_webhook : option string) :
  check_vault_health v = true ->
  let rep := generate_report v utcnow in
  alerts rep = []
  /\ critical_cas (stats rep) = 0
  /\ warning_cas (stats rep) = 0
  /\ healthy_cas (stats rep) = Z.of_nat (length (ca_certificates rep))
  /\ Forall (fun ca => days_until_expiry ca = 350) (ca_certificates rep)
  /\ send_alerts alert_webhook rep = [].
Proof.
  intros Hh. cbv zeta. unfold generate_report.
  assert (forall m ca, check_ca_expiry v m = Some ca ->
            days_until_expiry ca = 350) as Hfixed.
  { intros m ca. unfold check_ca_expiry.
    destruct (ca_pem v m); simpl; [by intros [= <-] | discriminate]. }
  assert (forall m ca, check_ca_expiry v m = Some ca ->
            30 < days_until_expiry ca) as Hlate.
  { intros m ca Hm. rewrite (Hfixed m ca Hm). lia. }
  unfold generate_report_with. rewrite Hh. simpl negb. cbv iota.
  match goal with
  | |- context [scan_mounts ?u ?c ?st ?ms] =>
      pose proof (MonitorProperties.scan_mounts_counts u c ms st) as Hcount;
      pose proof (scan_without_findings u c ms st Hlate) as Hquiet;
      remember (scan_mounts u c st ms) as res
  end.
  cbv zeta in Hcount, Hquiet.
  destruct Hcount as (Hsum & Hcerts & _). destruct Hquiet as (Ha & Hc & Hw).
  simpl in Hsum, Hcerts, Ha, Hc, Hw.
  split; [done|]. split; [done|]. split; [done|]. split; [|split].
  - unfold bucket_sum in Hsum. rewrite Hc, Hw in Hsum. simpl in Hsum.
    rewrite Hcerts. lia.
  - rewrite Hcerts. apply List.Forall_forall. intros ca Hca.
    apply (proj2 (list_elem_of_In _ _)), list_elem_of_omap in Hca
      as (m & _ & Hm).
    by apply (Hfixed m).
  - unfold send_alerts. rewrite Ha.
    by destruct (truthy_str alert_webhook).
Qed.

Lemma fixed_expiry_figures_never_alert_witness :
  alerts (generate_report sample_vault sample_clock) = []
  /\ healthy_cas (stats (generate_report sample_vault sample_clock)) = 1
  /\ send_alerts (Some "https://hooks.example/pki")
       (generate_report sample_vault sample_clock) = [].
Proof.
  destruct (fixed_expiry_figures_never_alert sample_vault sample_clock
              (Some "https://hooks.example/pki") eq_refl)
    as (Ha & _ & _ & _ & _ & Hsend).
  split; [exact Ha|]. split; [reflexivity | exact Hsend].
Defined.

End MonitorAlerts.

(** ** Dictionaries: removal *)

Lemma dict_get_remove_ne {V} (d : dict V) (k k0 : string) :
  k0 <> k -> dict_get (dict_remove d k) k0 = dict_get d k0.
Proof.
  intros Hne. induction d as [|[k' v'] d IH]; simpl; [done|].
  destruct (String.eqb_spec k' k) as [->|Hk]; simpl.
  - destruct (String.eqb_spec k k0); [congruence | done].
  - by rewrite IH.
Qed.

Lemma dict_get_none_keys {V} (d : dict V) (k : string) :
  dict_get d k = None <-> ~ In k (dict_keys d).
Proof.
  rewrite <- dict_mem_keys. unfold dict_mem.
  destruct (dict_get d k); split; try done; intros H; by destruct H.
Qed.

Lemma dict_get_remove_eq {V} (d : dict V) (k : string) :
  NoDup (dict_keys d) -> dict_get (dict_remove d k) k = None.
Proof.
  unfold dict_keys. induction d as [|[k' v'] d IH]; simpl; [done|].
  intros [Hfresh Hnd]%NoDup_cons.
  destruct (String.eqb_spec k' k) as [->|Hk]; simpl.
  - apply dict_get_none_keys. intros Hin. apply Hfresh.
    by apply list_elem_of_In.
  - destruct (String.eqb_spec k' k); [done|]. by apply IH.
Qed.

Lemma dict_keys_remove_in {V} (d : dict V) (k k0 : string) :
  In k0 (dict_keys (dict_remove d k)) -> In k0 (dict_keys d).
Proof.
  unfold dict_keys. induction d as [|[k' v'] d IH]; simpl; [done|].
  destruct (String.eqb_spec k' k) as [->|Hk]; simpl; [by right|].
  intros [?|?]; [by left | right; by apply IH].
Qed.

Lemma dict_remove_nodup {V} (d : dict V) (k : string) :
  NoDup (dict_keys d) -> NoDup (dict_keys (dict_remove d k)).
Proof.
  unfold dict_keys. induction d as [|[k' v'] d IH]; simpl; [done|].
  intros [Hfresh Hnd]%NoDup_cons.
  destruct (String.eqb_spec k' k) as [->|Hk]; simpl; [done|].
  apply NoDup_cons. split; [|by apply IH].
  intros Hin. apply Hfresh.
  apply list_elem_of_In. apply list_elem_of_In in Hin.
  by apply (dict_keys_remove_in d k).
Qed.

(** Dictionaries with the same keys keep the same keys under the same
    assignment or removal. *)
Lemma dict_keys_set_same {V W} (a : dict V) (b : dict W) k (v : V) (w : W) :
  dict_keys a = dict_keys b ->
  dict_keys (dict_set a k v) = dict_keys (dict_set b k w).
Proof.
  intros Hk. rewrite !dict_keys_set, Hk.
  assert (dict_mem a k = dict_mem b k) as ->; [|done].
  apply eq_true_iff_eq. by rewrite !dict_mem_keys, Hk.
Qed.

Lemma dict_keys_remove_same {V W} (a : dict V) (b : dict W) k :
  dict_keys a = dict_keys b ->
  dict_keys (dict_remove a k) = dict_keys (dict_remove b k).
Proof.
  unfold dict_keys. revert b.
  induction a as [|[ka va] a IH]; intros [|[kb vb] b]; simpl; try done.
  intros [= -> Hk]. destruct (String.eqb kb k); simpl; [done|].
  f_equal. by apply IH.
Qed.

Lemma dict_mem_get {V} (d : dict V) (k : string) :
  dict_mem d k = true <-> exists v, dict_get d k = Some v.
Proof.
  unfold dict_mem. destruct (dict_get d k) as [v|].
  - split; [by exists v | done].
  - split; [done | by intros [v ?]].
Qed.

Lemma list_remove_first_in (x : string) (l : list string) :
  In x l -> exists rest, list_remove_first x l = Some rest.
Proof.
  induction l as [|y l IH]; [done|]. simpl.
  destruct (String.eqb_spec y x) as [->|Hy]; [by eexists|].
  intros [?|Hin]; [done|]. destruct (IH Hin) as [rest ->]. by eexists.
Qed.

Lemma list_remove_first_keeps (x n : string) (l rest : list string) :
  list_remove_first x l = Some rest -> In n l -> n <> x -> In n rest.
Proof.
  revert rest. induction l as [|y l IH]; intros rest; [done|]. simpl.
  destruct (String.eqb_spec y x) as [->|Hy].
  - intros [= <-] [?|?] Hne; [congruence | done].
  - destruct (list_remove_first x l) as [r|]; [|done].
    intros [= <-] [->|Hin] Hne; [by left|]. right. by apply IH.
Qed.

(** ** The agents' tool registry *)

Module RegistryProperties.
Import ToolRegistry.

Lemma empty_consistent : consistent empty.
Proof. repeat split; try constructor. intros n m [=]. Qed.

Lemma register_consistent (r r' : ToolRegistry) now t cat level mcp :
  consistent r ->
  register_tool r now (ATool t) cat level mcp = Returned r' ->
  consistent r'.
Proof.
  intros (Hkeys & Hnd & Hcnd & Hcat) [= <-]. unfold consistent. simpl.
  split; [by apply dict_keys_set_same|].
  split; [by apply dict_set_nodup|].
  split.
  { apply dict_set_nodup.
    destruct (dict_mem (categories r) cat); [done | by apply dict_set_nodup]. }
  intros n m. destruct (String.eqb_spec n (name t)) as [->|Hn].
  - rewrite dict_get_set_eq. intros [= <-]. simpl.
    eexists. split; [apply dict_get_set_eq|].
    apply in_app_iff. right. by left.
  - rewrite dict_get_set_ne by done. intros Hm.
    destruct (Hcat n m Hm) as (names & Hnames & Hin).
    destruct (String.eqb_spec (category m) cat) as [Hc|Hc].
    + rewrite Hc in *. rewrite dict_get_set_eq.
      eexists. split; [done|].
      assert (dict_mem (categories r) cat = true) as ->
        by (apply dict_mem_get; by exists names).
      rewrite Hnames. simpl. apply in_app_iff. by left.
    + rewrite dict_get_set_ne by done.
      exists names. split; [|done].
      destruct (dict_mem (categories r) cat); [done|].
      by rewrite dict_get_set_ne.
Qed.

Lemma update_usage_consistent (r : ToolRegistry) now n :
  consistent r -> consistent (update_usage r now n).
Proof.
  intros (Hkeys & Hnd & Hcnd & Hcat). unfold update_usage.
  destruct (dict_get (metadata r) n) as [m|] eqn:Hm; [|done].
  unfold consistent. simpl. split; [|split; [done|split; [done|]]].
  - rewrite dict_keys_set.
    assert (dict_mem (metadata r) n = true) as ->
      by (apply dict_mem_get; by exists m).
    done.
  - intros n' m'. destruct (String.eqb_spec n' n) as [->|Hn].
    + rewrite dict_get_set_eq. intros [= <-]. simpl. by apply Hcat.
    + rewrite dict_get_set_ne by done. apply Hcat.
Qed.

(** On a consistent registry [unregister_tool] goes through. *)
Lemma unregister_consistent (r : ToolRegistry) (n : string) :
  consistent r ->
  exists r',
    unregister_tool r n = (Returned (dict_mem (tools r) n), r')
    /\ consistent r'
    /\ tools r' = (if dict_mem (tools r) n
                   then dict_remove (tools r) n else tools r)
    /\ metadata r' = (if dict_mem (tools r) n
                      then dict_remove (metadata r) n else metadata r).
Proof.
  intros (Hkeys & Hnd & Hcnd & Hcat). unfold unregister_tool.
  destruct (dict_mem (tools r) n) eqn:Hmem; [|by exists r].
  assert (exists m, dict_get (metadata r) n = Some m) as [m Hm].
  { apply dict_mem_get, dict_mem_keys. rewrite <- Hkeys.
    by apply dict_mem_keys. }
  rewrite Hm. destruct (Hcat n m Hm) as (names & Hnames & Hin).
  rewrite Hnames.
  destruct (list_remove_first_in n names Hin) as [rest Hrest].
  rewrite Hrest.
  assert (NoDup (dict_keys (metadata r))) as Hmnd by (by rewrite <- Hkeys).
  assert (forall n' m',
            dict_get (dict_remove (metadata r) n) n' = Some m' ->
            n' <> n /\ dict_get (metadata r) n' = Some m') as Hleft.
  { intros n' m' H. destruct (String.eqb_spec n' n) as [->|Hne].
    - by rewrite dict_get_remove_eq in H.
    - by rewrite dict_get_remove_ne in H. }
  destruct rest as [|x rest]; eexists; (split; [reflexivity|]);
    (split; [|by split]); unfold consistent; simpl.
  - split; [by apply dict_keys_remove_same|].
    split; [by apply dict_remove_nodup|].
    split; [by apply dict_remove_nodup|].
    intros n' m' H. destruct (Hleft n' m' H) as [Hne Hm'].
    destruct (Hcat n' m' Hm') as (names' & Hnames' & Hin').
    destruct (String.eqb_spec (category m') (category m)) as [Hc|Hc].
    + rewrite Hc, Hnames in Hnames'. injection Hnames' as <-.
      by destruct (list_remove_first_keeps n n' names [] Hrest Hin' Hne).
    + exists names'. by rewrite dict_get_remove_ne.
  - split; [by apply dict_keys_remove_same|].
    split; [by apply dict_remove_nodup|].
    split; [by apply dict_set_nodup|].
    intros n' m' H. destruct (Hleft n' m' H) as [Hne Hm'].
    destruct (Hcat n' m' Hm') as (names' & Hnames' & Hin').
    destruct (String.eqb_spec (category m') (category m)) as [Hc|Hc].
    + rewrite Hc, Hnames in Hnames'. injection Hnames' as <-.
      rewrite Hc, dict_get_set_eq. eexists. split; [done|].
      by apply (list_remove_first_keeps n n' names).
    + exists names'. by rewrite dict_get_set_ne.
Qed.

Lemma apply_call_consistent (r : ToolRegistry) (c : call) :
  consistent r -> consistent (apply_call r c).
Proof.
  intros Hr. destruct c as [now [t|] cat level mcp | now n | n]; simpl.
  - by apply (register_consistent r _ now t cat level mcp).
  - done.
  - by apply update_usage_consistent.
  - destruct (unregister_consistent r n Hr) as (r' & -> & Hr' & _). done.
Qed.

Lemma after_calls_snoc (calls : list call) (c : call) :
  after_calls (calls ++ [c]) = apply_call (after_calls calls) c.
Proof. unfold after_calls. by rewrite fold_left_app. Qed.

Lemma registry_stays_consistent_aux (calls : list call) :
  consistent (after_calls calls).
Proof.
  induction calls as [|c calls IH] using rev_ind; [apply empty_consistent|].
  rewrite after_calls_snoc. by apply apply_call_consistent.
Qed.

(** Whatever calls of [register_tool], [update_usage] and
    [unregister_tool] have been made on a new registry, the tools and the
    metadata have the same names in the same order, no name occurs twice,
    and every tool is listed under the category its metadata names. *)
Theorem registry_stays_consistent (calls : list call) :
  consistent (after_calls calls).
Proof.
  induction calls as [|c calls IH] using rev_ind; [apply empty_consistent|].
  rewrite after_calls_snoc. destruct c as [now [t|] cat level mcp | now n | n].
  - by apply (register_consistent (after_calls calls) _ now t cat level mcp).
  - exact IH.
  - by apply update_usage_consistent.
  - by apply apply_call_consistent.
Qed.

Lemma registry_stays_consistent_witness :
  consistent
    (after_calls [Register 1 (ATool nmap_tool) "network" "standard" false;
                  Register 2 (ATool whois_tool) "osint" "standard" false;
                  UpdateUsage 3 "nmap";
                  Unregister "whois";
                  Register 4 NotATool "network" "standard" false]).
Proof.
  exact (registry_stays_consistent
           [Register 1 (ATool nmap_tool) "network" "standard" false;
            Register 2 (ATool whois_tool) "osint" "standard" false;
            UpdateUsage 3 "nmap";
            Unregister "whois";
            Register 4 NotATool "network" "standard" false]).
Defined.

(** [unregister_tool] never raises on a registry built by the registry's
    own methods: it returns whether the tool was registered, afterwards
    neither the tool nor its metadata can be looked up, and every other
    tool is found as before. *)
Theorem unregister_never_raises (calls : list call) (n : string) :
  let r := after_calls calls in
  exists r',
    unregister_tool r n = (Returned (dict_mem (tools r) n), r')
    /\ get_tool r' n = None
    /\ get_tool_metadata r' n = None
    /\ forall n', n' <> n ->
         get_tool r' n' = get_tool r n'
         /\ get_tool_metadata r' n' = get_tool_metadata r n'.
Proof.
  cbv zeta. pose proof (registry_stays_consistent_aux calls) as Hr.
  destruct (unregister_consistent _ n Hr) as (r' & Hun & _ & Ht & Hm).
  destruct Hr as (Hkeys & Hnd & _).
  exists r'. split; [done|]. unfold get_tool, get_tool_metadata.
  rewrite Ht, Hm.
  destruct (dict_mem (tools (after_calls calls)) n) eqn:Hmem.
  - split; [by apply dict_get_remove_eq|].
    split; [apply dict_get_remove_eq; by rewrite <- Hkeys|].
    intros n' Hne. by rewrite !dict_get_remove_ne.
  - assert (dict_get (tools (after_calls calls)) n = None) as Hnone.
    { unfold dict_mem in Hmem. by destruct (dict_get _ n). }
    split; [done|]. split; [|done].
    apply dict_get_none_keys. rewrite <- Hkeys. by apply dict_get_none_keys.
Qed.

Lemma unregister_never_raises_witness :
  exists r',
    unregister_tool
      (after_calls [Register 1 (ATool nmap_tool) "network" "standard" false;
                    Register 2 (ATool whois_tool) "network" "standard" false])
      "nmap"
    = (Returned true, r')
    /\ get_tool r' "nmap" = None
    /\ get_tool r' "whois" = Some whois_tool.
Proof.
  pose proof (unregister_never_raises
                [Register 1 (ATool nmap_tool) "network" "standard" false;
                 Register 2 (ATool whois_tool) "network" "standard" false]
                "nmap") as H.
  cbv zeta in H. destruct H as (r' & Hun & Hget & _ & Hother).
  exists r'. split; [exact Hun|]. split; [exact Hget|].
  destruct (Hother "whois") as [-> _]; [discriminate | reflexivity].
Defined.

(** *** Registration and lookup *)

(** After [register_tool] with a tool, [get_tool] finds that tool under
    its name, its metadata carry the given category and security level
    with a usage count of 0 and no [last_used] (also when the name was
    registered before), the tool is among those of its category, and the
    other names are found as before; with an object that is not a tool
    [register_tool] raises [ValueError]. *)
Theorem register_then_lookup (r : ToolRegistry) now t cat level mcp :
  (exists r',
     register_tool r now (ATool t) cat level mcp = Returned r'
     /\ get_tool r' (name t) = Some t
     /\ (exists m, get_tool_metadata r' (name t) = Some m
                   /\ category m = cat /\ security_level m = level
                   /\ usage_count m = 0 /\ last_used m = None)
     /\ In t (get_tools_by_category r' cat)
     /\ forall n, n <> name t ->
          get_tool r' n = get_tool r n
          /\ get_tool_metadata r' n = get_tool_metadata r n)
  /\ register_tool r now NotATool cat level mcp
     = Raised (Exn ValueError "Tool must be a SmolagentsTool instance").
Proof.
  split; [|done]. eexists. split; [reflexivity|].
  unfold get_tool, get_tool_metadata, get_tools_by_category. simpl.
  split; [apply dict_get_set_eq|]. split.
  { eexists. split; [apply dict_get_set_eq | done]. }
  split.
  - rewrite dict_get_set_eq. simpl.
    apply list_elem_of_In, list_elem_of_omap. exists (name t).
    split; [|apply dict_get_set_eq].
    apply list_elem_of_In, in_app_iff. right. by left.
  - intros n Hn. by rewrite !dict_get_set_ne.
Qed.

Lemma register_then_lookup_witness :
  exists r',
    register_tool empty 1 (ATool nmap_tool) "network" "restricted" true
    = Returned r'
    /\ get_tool r' "nmap" = Some nmap_tool
    /\ get_tool r' "whois" = None.
Proof.
  destruct (register_then_lookup empty 1 nmap_tool "network" "restricted" true)
    as [(r' & Hreg & Hget & _ & _ & Hother) _].
  exists r'. split; [exact Hreg|]. split; [exact Hget|].
  destruct (Hother "whois") as [-> _]; [discriminate | reflexivity].
Defined.

Lemma dict_set_fresh {V} (d : dict V) (k : string) (v : V) :
  dict_get d k = None -> dict_set d k v = (d ++ [(k, v)])%list.
Proof.
  induction d as [|[k' v'] d IH]; simpl; [done|].
  destruct (String.eqb k' k); [done|]. intros H. by rewrite IH.
Qed.

Lemma dict_get_of_entries (l : list registration) (x : registration) :
  NoDup (map (fun y => name (reg_tool y)) l) -> In x l ->
  dict_get (map (fun y => (name (reg_tool y), reg_tool y)) l)
           (name (reg_tool x)) = Some (reg_tool x).
Proof.
  induction l as [|y l IH]; [done|]. simpl.
  intros [Hfresh Hnd]%NoDup_cons [->|Hin].
  - by rewrite String.eqb_refl.
  - destruct (String.eqb_spec (name (reg_tool y)) (name (reg_tool x)))
      as [Heq|Hne]; [|by apply IH].
    exfalso. apply Hfresh. rewrite Heq.
    apply list_elem_of_In, in_map_iff. by exists x.
Qed.

(** The registry after registering tools with pairwise distinct names. *)
Lemma register_each_state (l : list registration) :
  NoDup (map (fun y => name (reg_tool y)) l) ->
  tools (register_each l)
  = map (fun y => (name (reg_tool y), reg_tool y)) l
  /\ forall c,
       default [] (dict_get (categories (register_each l)) c)
       = map (fun y => name (reg_tool y))
             (List.filter (fun y => String.eqb (reg_category y) c) l).
Proof.
  induction l as [|x l IH] using rev_ind; [done|].
  rewrite map_app. intros [Hnd [Hfresh _]]%NoDup_app.
  destruct (IH Hnd) as [Htools Hcats].
  unfold register_each in *. rewrite map_app. simpl map.
  rewrite after_calls_snoc. simpl. split.
  - rewrite Htools, map_app. apply dict_set_fresh.
    apply dict_get_none_keys. unfold dict_keys. rewrite map_map. simpl.
    intros Hin. apply (Hfresh (name (reg_tool x))).
    + by apply list_elem_of_In.
    + left.
  - intros c. rewrite List.filter_app, map_app. simpl.
    set (cats := categories (after_calls (map call_of l))) in *.
    destruct (String.eqb_spec (reg_category x) c) as [<-|Hc].
    + rewrite dict_get_set_eq. simpl. f_equal.
      rewrite <- Hcats.
      destruct (dict_mem cats (reg_category x)) eqn:Hm; [done|].
      rewrite dict_get_set_eq.
      unfold dict_mem in Hm. by destruct (dict_get cats (reg_category x)).
    + rewrite dict_get_set_ne by done. rewrite app_nil_r, <- Hcats.
      destruct (dict_mem cats (reg_category x)); [done|].
      by rewrite dict_get_set_ne.
Qed.

(** Listing by category: after registering tools with pairwise distinct
    names on a new registry, [get_tools_by_category] returns the tools
    registered under that category, in the order of registration (nothing
    for a category never used), and [get_all_tools] returns all of them. *)
Theorem category_lists_its_tools (l : list registration) (c : string) :
  NoDup (map (fun y => name (reg_tool y)) l) ->
  get_tools_by_category (register_each l) c
  = map reg_tool (List.filter (fun y => String.eqb (reg_category y) c) l)
  /\ get_all_tools (register_each l) = map reg_tool l.
Proof.
  intros Hnd. destruct (register_each_state l Hnd) as [Htools Hcats].
  unfold get_tools_by_category, get_all_tools. rewrite Hcats, Htools.
  split; [|by rewrite map_map].
  assert (forall k, (forall y, In y k -> In y l) ->
            omap (dict_get (map (fun y => (name (reg_tool y), reg_tool y)) l))
                 (map (fun y => name (reg_tool y)) k)
            = map reg_tool k) as Hall.
  { induction k as [|y k IHk]; intros Hsub; [done|].
    simpl map. rewrite <- IHk by (intros; apply Hsub; by right).
    csimpl. by rewrite (dict_get_of_entries l y Hnd (Hsub y (or_introl eq_refl))). }
  apply Hall. intros y Hy. by apply filter_In in Hy as [? _].
Qed.

Lemma category_lists_its_tools_witness :
  get_tools_by_category
    (register_each
       [{| reg_time := 1; reg_tool := nmap_tool; reg_category := "network";
           reg_level := "standard"; reg_mcp := false |};
        {| reg_time := 2; reg_tool := whois_tool; reg_category := "osint";
           reg_level := "standard"; reg_mcp := false |}])
    "network"
  = [nmap_tool].
Proof.
  refine (proj1 (category_lists_its_tools _ "network" _)).
  by apply (bool_decide_unpack _).
Defined.

(** *** Usage statistics *)

(** [most_used] holds at most five entries, each the name and usage count
    of a registered tool, in descending order of the count; and no tool
    left out has a higher count than a tool listed. *)
Theorem most_used_is_top_five (r : ToolRegistry) :
  length (most_used r) = Nat.min 5 (length (metadata r))
  /\ descending snd (most_used r)
  /\ (forall n c, In (n, c) (most_used r) ->
        exists m, In (n, m) (metadata r) /\ usage_count m = c)
  /\ forall n m, In (n, m) (metadata r) ->
       In (n, usage_count m) (most_used r)
       \/ forall n' c', In (n', c') (most_used r) -> usage_count m <= c'.
Proof.
  unfold most_used.
  set (counts := map (fun item => (fst item, usage_count (snd item)))
                     (metadata r)).
  set (sorted := sort_desc snd counts).
  assert (sorted ≡ₚ counts) as Hperm by apply sort_desc_perm.
  assert (descending snd sorted) as Hsorted by apply sort_desc_sorted.
  split; [|split; [|split]].
  - rewrite length_take, (Permutation_length Hperm).
    unfold counts. by rewrite length_map.
  - apply (StronglySorted_app_1_l _ _ (drop 5 sorted)). by rewrite take_drop.
  - intros n c Hin.
    apply (proj2 (list_elem_of_In _ _)) in Hin.
    apply (elem_of_take_drop _ 0%nat) in Hin.
    assert ((n, c) ∈ counts) as Hc by (rewrite <- Hperm; exact Hin).
    apply list_elem_of_In, in_map_iff in Hc as ([n0 m] & [= <- <-] & Hc).
    by exists m.
  - intros n m Hin.
    assert ((n, usage_count m) ∈ sorted) as Hs.
    { rewrite Hperm. apply list_elem_of_In, in_map_iff. by exists (n, m). }
    rewrite <- (take_drop 5 sorted) in Hs, Hsorted.
    apply elem_of_app in Hs as [Hs|Hs]; [left; by apply list_elem_of_In|].
    right. intros n' c' Hin'.
    apply (proj2 (list_elem_of_In _ _)) in Hin'.
    by apply (StronglySorted_app_1_elem_of _ _ _ _ _ Hsorted Hin' Hs).
Qed.

Lemma most_used_is_top_five_witness :
  most_used
    (after_calls [Register 1 (ATool nmap_tool) "network" "standard" false;
                  Register 2 (ATool whois_tool) "osint" "standard" false;
                  UpdateUsage 3 "whois"])
  = [("whois", 1); ("nmap", 0)]
  /\ forall n c,
       In (n, c)
          (most_used
             (after_calls
                [Register 1 (ATool nmap_tool) "network" "standard" false;
                 Register 2 (ATool whois_tool) "osint" "standard" false;
                 UpdateUsage 3 "whois"])) ->
       exists m, usage_count m = c.
Proof.
  split; [reflexivity|]. intros n c Hin.
  destruct (most_used_is_top_five
              (after_calls
                 [Register 1 (ATool nmap_tool) "network" "standard" false;
                  Register 2 (ATool whois_tool) "osint" "standard" false;
                  UpdateUsage 3 "whois"])) as (_ & _ & Hfrom & _).
  destruct (Hfrom n c Hin) as (m & _ & Hm). by exists m.
Defined.

End RegistryProperties.

(** ** The agents' memory *)

Module MemoryProperties.
Import AgentMemory.

Abbreviation stamp := (fun x : Z * dict pyval => stamped (fst x) (snd x)).

(** One [store_interaction] on a memory of positive capacity that is not
    over-full. *)
Lemma store_interaction_step (m : AgentMemory) now interaction :
  1 <= max_size m ->
  Z.of_nat (length (memory m)) <= max_size m ->
  exists m',
    store_interaction m now interaction = Returned m'
    /\ max_size m' = max_size m
    /\ memory m'
       = drop (length (memory m) + 1 - Z.to_nat (max_size m))
              (memory m ++ [stamped now interaction]).
Proof.
  intros Hpos Hlen. unfold store_interaction, deque_append.
  destruct (Z.leb_spec (max_size m) (Z.of_nat (length (memory m)))) as [Hfull|Hroom].
  - destruct (memory m) as [|x rest] eqn:Hm; [simpl in *; lia|].
    simpl bind. eexists. split; [reflexivity|]. split; [done|]. simpl memory.
    simpl length in *. rewrite length_app. simpl length.
    destruct (Z.ltb_spec (max_size m) (Z.of_nat (length rest + 1))); [lia|].
    replace (S (length rest) + 1 - Z.to_nat (max_size m))%nat with 1%nat by lia.
    done.
  - simpl bind. eexists. split; [reflexivity|]. split; [done|]. simpl memory.
    rewrite length_app. simpl length.
    destruct (Z.ltb_spec (max_size m) (Z.of_nat (length (memory m) + 1)));
      [lia|].
    replace (length (memory m) + 1 - Z.to_nat (max_size m))%nat with 0%nat
      by lia.
    done.
Qed.

Lemma store_all_from (l : list (Z * dict pyval)) (m : AgentMemory) :
  1 <= max_size m ->
  Z.of_nat (length (memory m)) <= max_size m ->
  exists m',
    store_all m l = Returned m'
    /\ max_size m' = max_size m
    /\ memory m'
       = drop (length (memory m) + length l - Z.to_nat (max_size m))
              (memory m ++ map stamp l).
Proof.
  revert m. induction l as [|[now i] l IH]; intros m Hpos Hlen.
  - exists m. split; [done|]. split; [done|]. simpl.
    rewrite app_nil_r.
    replace (length (memory m) + 0 - Z.to_nat (max_size m))%nat with 0%nat
      by lia.
    done.
  - destruct (store_interaction_step m now i Hpos Hlen)
      as (m1 & Hstore & Hmax & Hmem).
    assert (Z.of_nat (length (memory m1)) <= max_size m1) as Hlen1.
    { rewrite Hmem, Hmax, length_drop, length_app. simpl. lia. }
    destruct (IH m1 ltac:(lia) Hlen1) as (m' & Hall & Hmax' & Hmem').
    exists m'. simpl store_all. rewrite Hstore. simpl bind.
    split; [done|]. split; [congruence|].
    rewrite Hmem', Hmax, Hmem. simpl map.
    rewrite length_drop, length_app. simpl length.
    set (k := Z.to_nat (max_size m)).
    set (a := (length (memory m) + 1 - k)%nat).
    assert (a <= length (memory m ++ [stamped now i]))%nat as Ha
      by (rewrite length_app; simpl; lia).
    rewrite <- (drop_app_le _ (map stamp l) a) by done.
    rewrite drop_drop, <- app_assoc. simpl. f_equal. lia.
Qed.

Lemma ssize_in_range (x : Z) :
  - PY_SSIZE_T_MAX - 1 <= x <= PY_SSIZE_T_MAX ->
  (x <? - PY_SSIZE_T_MAX - 1) || (PY_SSIZE_T_MAX <? x) = false.
Proof.
  assert (PY_SSIZE_T_MAX = 9223372036854775807) as -> by reflexivity.
  intros [H0 H1]. apply orb_false_iff. split; apply Z.ltb_ge; lia.
Qed.

(** The memory keeps the latest interactions: on a memory created with a
    capacity of at least 1 (and within the range of a [Py_ssize_t]), any
    sequence of [store_interaction] calls goes through, and the memory
    then holds the last [max_size] interactions stored (all of them when
    fewer were stored), oldest first, so [health_check] holds. *)
Theorem memory_keeps_latest_interactions
    (capacity : Z) (l : list (Z * dict pyval)) :
  1 <= capacity <= PY_SSIZE_T_MAX ->
  exists m0 m,
    init capacity = Returned m0
    /\ store_all m0 l = Returned m
    /\ memory m = drop (length l - Z.to_nat capacity) (map stamp l)
    /\ get_size m = Z.min (Z.of_nat (length l)) capacity
    /\ health_check m = true.
Proof.
  intros [Hpos Hfits]. unfold init.
  rewrite ssize_in_range
    by (assert (0 <= PY_SSIZE_T_MAX) by (by vm_compute); lia).
  destruct (Z.ltb_spec capacity 0); [lia|].
  eexists. destruct (store_all_from l {| max_size := capacity; memory := [] |})
    as (m & Hall & Hmax & Hmem); [simpl; lia | simpl; lia |].
  exists m. split; [reflexivity|]. split; [exact Hall|].
  simpl in Hmem, Hmax. split; [exact Hmem|].
  unfold get_size, health_check.
  rewrite Hmem, Hmax, length_drop, length_map. split; [lia|].
  apply Z.leb_le. lia.
Qed.

Lemma memory_keeps_latest_interactions_witness :
  exists m0 m,
    init 2 = Returned m0
    /\ store_all m0 [(1, [("type", PStr "a")]); (2, [("type", PStr "b")]);
                     (3, [("type", PStr "c")])] = Returned m
    /\ memory m = [stamped 2 [("type", PStr "b")];
                   stamped 3 [("type", PStr "c")]]
    /\ get_size m = 2.
Proof.
  destruct (memory_keeps_latest_interactions 2
              [(1, [("type", PStr "a")]); (2, [("type", PStr "b")]);
               (3, [("type", PStr "c")])]) as (m0 & m & H0 & Hall & Hmem & Hsz & _);
    [by vm_compute|].
  exists m0, m. split; [exact H0|]. split; [exact Hall|].
  split; [rewrite Hmem; reflexivity | rewrite Hsz; reflexivity].
Defined.

(** A memory of capacity 0 cannot store: it can be created, and every
    [store_interaction] on it raises ([popleft] on the empty deque); a
    negative capacity within the range of a [Py_ssize_t] is rejected at
    creation with [ValueError]. *)
Theorem zero_capacity_memory_cannot_store (capacity now : Z)
    (interaction : dict pyval) :
  - PY_SSIZE_T_MAX - 1 <= capacity <= 0 ->
  match init capacity with
  | Returned m0 =>
      capacity = 0
      /\ store_interaction m0 now interaction
         = Raised (Exn Exception "pop from an empty deque")
  | Raised e =>
      capacity < 0 /\ e = Exn ValueError "maxlen must be non-negative"
  end.
Proof.
  intros [Hmin Hcap]. unfold init.
  rewrite ssize_in_range
    by (assert (0 <= PY_SSIZE_T_MAX) by (by vm_compute); lia).
  destruct (Z.ltb_spec capacity 0); [done|].
  assert (capacity = 0) as -> by lia. done.
Qed.

Lemma zero_capacity_memory_cannot_store_witness :
  store_interaction {| max_size := 0; memory := [] |} 5
    [("type", PStr "task_start")]
  = Raised (Exn Exception "pop from an empty deque").
Proof.
  apply (zero_capacity_memory_cannot_store 0 5 [("type", PStr "task_start")]).
  by vm_compute.
Defined.

(** [get_recent_interactions] always returns a tail of the memory: for a
    positive [count] the last [count] entries (all, if there are fewer);
    for [count = 0] the whole memory, not the empty list; for a negative
    [count] the memory without its first [-count] entries. *)
Theorem recent_interactions_are_a_tail (m : AgentMemory) (count : Z) :
  (exists older, memory m = (older ++ get_recent_interactions m count)%list)
  /\ (0 < count ->
      length (get_recent_interactions m count)
      = Nat.min (Z.to_nat count) (length (memory m)))
  /\ (count = 0 -> get_recent_interactions m count = memory m)
  /\ (count < 0 ->
      get_recent_interactions m count = drop (Z.to_nat (- count)) (memory m)).
Proof.
  unfold get_recent_interactions.
  destruct (Z.ltb_spec 0 count) as [Hpos|Hnon].
  - split; [eexists; by rewrite take_drop|].
    split; [intros _; rewrite length_drop; lia|]. split; intros; lia.
  - split; [eexists; by rewrite take_drop|].
    split; [lia|]. split; [by intros ->|done].
Qed.

Lemma recent_interactions_are_a_tail_witness :
  get_recent_interactions
    {| max_size := 3;
       memory := [stamped 1 [("type", PStr "a")];
                  stamped 2 [("type", PStr "b")]] |} 0
  = [stamped 1 [("type", PStr "a")]; stamped 2 [("type", PStr "b")]]
  /\ length (get_recent_interactions
               {| max_size := 3;
                  memory := [stamped 1 [("type", PStr "a")];
                             stamped 2 [("type", PStr "b")]] |} 1)
     = 1%nat.
Proof.
  destruct (recent_interactions_are_a_tail
              {| max_size := 3;
                 memory := [stamped 1 [("type", PStr "a")];
                            stamped 2 [("type", PStr "b")]] |} 0)
    as (_ & _ & Hall & _).
  destruct (recent_interactions_are_a_tail
              {| max_size := 3;
                 memory := [stamped 1 [("type", PStr "a")];
                            stamped 2 [("type", PStr "b")]] |} 1)
    as (_ & Hlast & _).
  split; [exact (Hall eq_refl) | rewrite Hlast; [reflexivity | lia]].
Defined.

End MemoryProperties.

(** *** Stored interactions *)

Module MemoryEntries.
Import AgentMemory.

Lemma stamped_loop (l : dict pyval) (d0 : dict mem_value) (k : string) :
  NoDup (dict_keys l) ->
  dict_get
    (fold_left (fun d (item : string * pyval) =>
                  dict_set d (fst item) (Val (snd item))) l d0) k
  = match dict_get l k with
    | Some v => Some (Val v)
    | None => dict_get d0 k
    end.
Proof.
  revert d0. unfold dict_keys.
  induction l as [|[k0 v0] l IH]; intros d0; [done|].
  simpl. intros [Hfresh Hnd]%NoDup_cons. rewrite IH by done.
  destruct (String.eqb_spec k0 k) as [->|Hne].
  - assert (dict_get l k = None) as ->.
    { apply dict_get_none_keys. intros Hin. apply Hfresh.
      by apply list_elem_of_In. }
    apply dict_get_set_eq.
  - destruct (dict_get l k); [done|]. apply dict_get_set_ne. congruence.
Qed.

(** The entry stored for an interaction: its [timestamp] is the
    interaction's own [timestamp] value when it has one and the time of the
    call otherwise, and every other key holds the interaction's value. *)
Theorem interaction_timestamp_overrides_clock
    (now : Z) (interaction : dict pyval) :
  NoDup (dict_keys interaction) ->
  (forall v, dict_get interaction "timestamp" = Some v ->
     dict_get (stamped now interaction) "timestamp" = Some (Val v))
  /\ (dict_get interaction "timestamp" = None ->
      dict_get (stamped now interaction) "timestamp" = Some (Datetime now))
  /\ forall k, k <> "timestamp" ->
       dict_get (stamped now interaction) k
       = Val <$> dict_get interaction k.
Proof.
  intros Hnd. unfold stamped. split; [|split].
  - intros v Hv. by rewrite stamped_loop, Hv.
  - intros Hv. by rewrite stamped_loop, Hv.
  - intros k Hk. rewrite stamped_loop by done.
    destruct (dict_get interaction k); [done|].
    change (dict_get [("timestamp", Datetime now)] k)
      with (if String.eqb "timestamp" k
            then Some (Datetime now) else @None mem_value).
    destruct (String.eqb_spec "timestamp" k); [congruence | done].
Qed.

Lemma interaction_timestamp_overrides_clock_witness :
  dict_get (stamped 7 [("type", PStr "task_start");
                       ("timestamp", PStr "2025-01-15T10:00:00")])
           "timestamp"
  = Some (Val (PStr "2025-01-15T10:00:00")).
Proof.
  destruct (interaction_timestamp_overrides_clock 7
              [("type", PStr "task_start");
               ("timestamp", PStr "2025-01-15T10:00:00")]) as (Hown & _).
  - by apply (bool_decide_unpack _).
  - by apply Hown.
Defined.

End MemoryEntries.

(** ** The network scanner *)

Module ScannerProperties.
Import NetworkScanner.

Lemma scan_loop_from {network : Type}
    (connect_ex : network -> string -> Z -> outcome Z * network)
    (host : string) (ports : list Z) (o c : list Z) (net : network) :
  fold_left (scan_step network connect_ex host) ports (o, c, net)
  = ((o ++ map fst (List.filter snd
                      (fst (attempts network connect_ex net host ports))))%list,
     (c ++ map fst (List.filter (fun a => negb (snd a))
                      (fst (attempts network connect_ex net host ports))))%list,
     snd (attempts network connect_ex net host ports)).
Proof.
  revert o c net. induction ports as [|p ports IH]; intros o c net; simpl.
  - by rewrite !app_nil_r.
  - destruct (connect_ex net host p) as [[result|e] net'] eqn:Hp.
    + destruct (attempts network connect_ex net' host ports)
        as [more net''] eqn:Hmore.
      destruct (result =? 0); rewrite IH, Hmore; simpl;
        by rewrite <- ?app_assoc.
    + destruct (attempts network connect_ex net' host ports)
        as [more net''] eqn:Hmore.
      rewrite IH, Hmore. simpl. by rewrite <- ?app_assoc.
Qed.

Lemma attempts_ports {network : Type}
    (connect_ex : network -> string -> Z -> outcome Z * network)
    (net : network) (host : string) (ports : list Z) :
  map fst (fst (attempts network connect_ex net host ports)) = ports.
Proof.
  revert net. induction ports as [|p ports IH]; intros net; [done|].
  simpl. destruct (connect_ex net host p) as [res net'].
  specialize (IH net').
  destruct (attempts network connect_ex net' host ports) as [more net''].
  simpl in *. by rewrite IH.
Qed.

Lemma filter_partition {A} (f : A -> bool) (l : list A) :
  (List.filter f l ++ List.filter (fun x => negb (f x)) l)%list ≡ₚ l.
Proof.
  induction l as [|x l IH]; [done|]. simpl.
  destruct (f x); simpl.
  - by rewrite IH.
  - rewrite <- Permutation_middle. by rewrite IH.
Qed.

(** [scan_ports] makes one connection attempt for every element of the
    port list, in order (the thirteen default ports when no list is given),
    whatever happens afterwards.  An element goes to [open_ports] when its
    own attempt returned 0 and to [closed_ports] otherwise (also when the
    attempt raised), so the two lists together are a rearrangement of the
    port list and [total_scanned] is the sum of their lengths.  The result
    is returned only once it has been recorded in the memory; with an
    [AgentMemory] as memory the call raises [AttributeError] after the
    scan. *)
Theorem every_port_is_reported_once
    (network : Type)
    (connect_ex : network -> string -> Z -> outcome Z * network)
    (memory : Type) (record_scan : memory -> scan_result -> outcome memory)
    (net : network) (mem : memory) (now host : string)
    (ports : option (list Z)) :
  let scanned := default default_ports ports in
  let tried := fst (attempts network connect_ex net host scanned) in
  let net_after := snd (attempts network connect_ex net host scanned) in
  let r := fst (scan_result_of network connect_ex net now host ports) in
  map fst tried = scanned
  /\ open_ports r = map fst (List.filter snd tried)
  /\ closed_ports r = map fst (List.filter (fun a => negb (snd a)) tried)
  /\ (open_ports r ++ closed_ports r)%list ≡ₚ scanned
  /\ total_scanned r
     = Z.of_nat (length (open_ports r) + length (closed_ports r))
  /\ scan_ports network connect_ex memory record_scan net mem now host ports
     = match record_scan mem r with
       | Returned mem' => (Returned r, net_after, mem')
       | Raised e => (Raised e, net_after, mem)
       end
  /\ forall m : AgentMemory.AgentMemory,
       scan_ports network connect_ex AgentMemory.AgentMemory
         agent_memory_record_scan net m now host ports
       = (Raised (Exn AttributeError
                    "'AgentMemory' object has no attribute 'get_context'"),
          net_after, m).
Proof.
  cbv zeta. unfold scan_ports, scan_result_of, scan_loop.
  rewrite scan_loop_from. simpl.
  set (tried := fst (attempts network connect_ex net host
                       (default default_ports ports))).
  assert (map fst tried = default default_ports ports) as Hports
    by apply attempts_ports.
  assert ((map fst (List.filter snd tried)
           ++ map fst (List.filter (fun a => negb (snd a)) tried))%list
          ≡ₚ default default_ports ports) as Hperm.
  { rewrite <- map_app, <- Hports.
    apply Permutation_map, filter_partition. }
  split; [done|]. split; [done|]. split; [done|]. split; [done|].
  split; [|done].
  by rewrite <- length_app, (Permutation_length Hperm).
Qed.

Lemma port_in_spec (port : Z) (ports : list Z) :
  port_in port ports = true <-> In port ports.
Proof.
  unfold port_in. rewrite existsb_exists. split.
  - intros (x & Hin & ->%Z.eqb_eq). done.
  - intros Hin. exists port. split; [done | apply Z.eqb_refl].
Qed.

Lemma high_risk_spec (open : list Z) :
  existsb (fun port => port_in port open) high_risk_ports = true
  <-> exists p, In p high_risk_ports /\ In p open.
Proof.
  rewrite existsb_exists.
  split; intros (p & Hp & Hin); exists p; (split; [done|]);
    by apply port_in_spec.
Qed.

(** The assessed risk never drops when more ports are found open; it is
    ["high"] exactly when one of the ports 21, 23, 135, 139, 445, 1433,
    3389 is open, whatever the number of open ports, and ["minimal"]
    exactly when no port is open. *)
Theorem risk_grows_with_open_ports (scan : scan_result) (more : list Z) :
  risk_rank (_assess_risk_level (Some scan))
  <= risk_rank (_assess_risk_level (Some (with_more_open scan more)))
  /\ (_assess_risk_level (Some scan) = "high"
      <-> exists p, In p high_risk_ports /\ In p (open_ports scan))
  /\ (_assess_risk_level (Some scan) = "minimal" <-> open_ports scan = []).
Proof.
  unfold _assess_risk_level. simpl open_ports.
  destruct (existsb (fun port => port_in port (open_ports scan))
                    high_risk_ports) eqn:Hhigh.
  - assert (existsb (fun port => port_in port (open_ports scan ++ more))
                    high_risk_ports = true) as ->.
    { apply high_risk_spec. apply high_risk_spec in Hhigh as (p & Hp & Hin).
      exists p. split; [done|]. apply in_app_iff. by left. }
    split; [done|]. split; [by rewrite <- high_risk_spec|].
    split; [discriminate|]. intros Hnil. rewrite Hnil in Hhigh.
    by vm_compute in Hhigh.
  - split; [|split].
    + rewrite length_app.
      destruct (existsb (fun port => port_in port (open_ports scan ++ more))
                        high_risk_ports);
        destruct (Z.ltb_spec 5 (Z.of_nat (length (open_ports scan))));
        destruct (Z.ltb_spec 0 (Z.of_nat (length (open_ports scan))));
        destruct (Z.ltb_spec 5 (Z.of_nat (length (open_ports scan)
                                          + length more)));
        destruct (Z.ltb_spec 0 (Z.of_nat (length (open_ports scan)
                                          + length more)));
        first [lia | by vm_compute].
    + rewrite <- high_risk_spec, Hhigh.
      destruct (5 <? _); [done|]. by destruct (0 <? _).
    + destruct (Z.ltb_spec 5 (Z.of_nat (length (open_ports scan))));
        [split; [discriminate|]; intros Hnil; rewrite Hnil in *;
         simpl in *; lia|].
      destruct (Z.ltb_spec 0 (Z.of_nat (length (open_ports scan)))).
      * split; [discriminate|]. intros Hnil. rewrite Hnil in *.
        simpl in *. lia.
      * split; [intros _|done].
        destruct (open_ports scan); [done | simpl in *; lia].
Qed.

Lemma risk_grows_with_open_ports_witness :
  _assess_risk_level
    (Some {| host := "10.0.0.5"; open_ports := [22; 3389];
             closed_ports := [80]; total_scanned := 3; timestamp := "t0" |})
  = "high"
  /\ _assess_risk_level
       (Some {| host := "10.0.0.5"; open_ports := [];
                closed_ports := [22; 80]; total_scanned := 2;
                timestamp := "t0" |})
     = "minimal".
Proof.
  split.
  - apply (risk_grows_with_open_ports
             {| host := "10.0.0.5"; open_ports := [22; 3389];
                closed_ports := [80]; total_scanned := 3; timestamp := "t0" |}
             []).
    exists 3389. split; [by vm_compute; tauto | right; by left].
  - apply (risk_grows_with_open_ports
             {| host := "10.0.0.5"; open_ports := [];
                closed_ports := [22; 80]; total_scanned := 2;
                timestamp := "t0" |} []).
    reflexivity.
Defined.

Lemma every_port_is_reported_once_witness :
  let r := fst (scan_result_of nat accepts_once 0%nat "t0" "10.0.0.5"
                  (Some [22; 80; 22])) in
  open_ports r = [22] /\ closed_ports r = [80; 22] /\ total_scanned r = 3.
Proof.
  cbv zeta.
  destruct (every_port_is_reported_once nat accepts_once unit
              (fun mem _ => Returned mem) 0%nat tt "t0" "10.0.0.5"
              (Some [22; 80; 22]))
    as (_ & Hopen & Hclosed & _ & Htotal & _).
  rewrite Htotal, Hopen, Hclosed. split; [reflexivity|].
  split; reflexivity.
Defined.

End ScannerProperties.
